(** * mpfshell: the interactive shell of the MicroPython file explorer

    A shallow embedding of [mp/mpfshell.py] (class [MpFileShell]) and of the
    parts of the file explorer its specification describes, with the
    properties the specification states about them.

    Conventions.  A Python [str] is a Rocq [string], one element per
    character.  A command handler is a computation in the monad [M]: it
    threads the whole machine (the shell object, the world behind the
    File Explorer, what was printed) and ends in [Return v] or in
    [Raise e], an exception that left the handler.  Everything that lives
    outside [mp/mpfshell.py] (the device, the tokenizer, the exception
    classes of the sibling modules, the platform) is a field of [World]. *)

From Stdlib Require Import ZArith Ascii Permutation Sorted Lia.
From stdpp Require Import gmap strings list.

Local Open Scope string_scope.

(** ** Python values *)

(** The characters the shell writes that have no printable literal. *)
Definition chr (n : nat) : string := String (ascii_of_nat n) "".
Definition nl : string := chr 10.
Definition ESC : string := chr 27.

(** [colorama.Fore]: the ANSI colour sequences of the colorama package. *)
Module Fore.
Definition RED : string := ESC +:+ "[31m".
Definition GREEN : string := ESC +:+ "[32m".
Definition YELLOW : string := ESC +:+ "[33m".
Definition BLUE : string := ESC +:+ "[34m".
Definition MAGENTA : string := ESC +:+ "[35m".
Definition CYAN : string := ESC +:+ "[36m".
Definition RESET : string := ESC +:+ "[39m".
End Fore.

(** The built-in exception classes the shell names or can provoke. *)
Inductive builtin_exn :=
| BaseException | Exception | IOError | AttributeError | TypeError
| ValueError | IndexError | RuntimeError.

(** Exception classes: the built-in ones and the three imported from
    [mp.mpfexp], [mp.pyboard] and [mp.conbase]. *)
Inductive exn_class :=
| Builtin (b : builtin_exn)
| RemoteIOError
| PyboardError
| ConError.

Coercion Builtin : builtin_exn >-> exn_class.

(** An exception object: its class and [str(e)]. *)
Record exn := mkExn { exn_cls : exn_class; exn_str : string }.

Inductive outcome (A : Type) :=
| Return (a : A)
| Raise (e : exn).
Arguments Return {A} a.
Arguments Raise {A} e.

(** Text as Python 3 tells it apart: [str] and [bytes].  Under Python 2
    the two are one type and only [Str] occurs. *)
Inductive pytext :=
| Str (s : string)
| Bytes (b : string).

Coercion Str : string >-> pytext.

Definition len (t : pytext) : nat :=
  match t with Str s => String.length s | Bytes b => String.length b end.

(** [a + b] for a [str] [a]: concatenating [bytes] to a [str] raises. *)
Definition str_add (a : string) (b : pytext) : outcome string :=
  match b with
  | Str s => Return (a +:+ s)
  | Bytes _ => Raise (mkExn TypeError "can only concatenate str (not bytes) to str")
  end.

(** ** Exceptions and [except] clauses *)

Definition builtin_exn_eqb (a b : builtin_exn) : bool :=
  match a, b with
  | BaseException, BaseException | Exception, Exception | IOError, IOError
  | AttributeError, AttributeError | TypeError, TypeError
  | ValueError, ValueError | IndexError, IndexError
  | RuntimeError, RuntimeError => true
  | _, _ => false
  end.

(** The built-in hierarchy: everything derives from [BaseException], and
    every class here but [BaseException] from [Exception]. *)
Definition builtin_issubclass (a b : builtin_exn) : bool :=
  builtin_exn_eqb a b ||
  match b with
  | BaseException => true
  | Exception => negb (builtin_exn_eqb a BaseException)
  | _ => false
  end.

(** ** The world outside the shell *)

(** A token of [mp.tokenizer]; the shell reads its [value] only. *)
Record Token := mkToken { value : string }.

(** The File Explorer object as the shell sees it: the tracked remote
    directory behind [pwd()], and the attributes [sysname] and [con]. *)
Record MpFileExplorer := mkFe {
  dir : string;
  sysname : string;
  con : string
}.

(** Kind of a listed entry, as the device reports it. *)
Inductive Kind := KFile | KDir.

(** The operations the shell delegates to the File Explorer, indexed by
    what they return. *)
Inductive fe_call : Type -> Type :=
| Close : fe_call unit
| Pwd : fe_call string
| Cd (target : string) : fe_call string
| Ls : fe_call (list (string * Kind))
| Fqn (name : string) : fe_call string
| Md (target : string) : fe_call unit
| Put (src : string) (dst : option string) : fe_call unit
| Putr (src : string) (dst : option string) : fe_call unit
| Mput (src_dir pat : string) (verbose : bool) : fe_call unit
| Get (src : string) (dst : option string) : fe_call unit
| Getr (src : string) (dst : option string) : fe_call unit
| Mget (dst_dir pat : string) (verbose : bool) : fe_call unit
| Rm (target : string) : fe_call unit
| Rmr (target : string) : fe_call unit
| Mrm (pat : string) (verbose : bool) : fe_call unit
| Gets (src : string) : fe_call string
| ExecRawNoFollow (command : string) : fe_call unit
| Follow (timeout : option Z) : fe_call (list string * (string * string))
| Teardown : fe_call unit
| Setup : fe_call unit
| MpyCross (src : string) : fe_call unit.

(** The terminal of [mp.term] behind the [repl] command. *)
Inductive term_call := TermStart | TermJoin | TermCleanup.

Record World := mkWorld {
  (** state of the device, of the link to it and of the host's files *)
  Dev : Type;
  (** [platform.system()] *)
  platform_system : string;
  (** [sys.version_info >= (3, 0)] *)
  python3 : bool;
  (** [serial.VERSION] and the built-in [int] on its components *)
  serial_VERSION : string;
  int_ : string -> outcome Z;
  (** [str(data.decode('utf-8'))] *)
  decode_utf8 : string -> outcome string;
  (** [os.getcwd()] *)
  getcwd : Dev -> string;
  (** the built-in class each of the three imported exception classes
      derives from; their declarations are in the sibling modules *)
  RemoteIOError_base : builtin_exn;
  PyboardError_base : builtin_exn;
  ConError_base : builtin_exn;
  (** [Tokenizer().tokenize] of [mp.tokenizer] *)
  tokenize : string -> list Token * string;
  (** [MpFileExplorerCaching(port, reset)] when the first argument is
      set, [MpFileExplorer(port, reset)] otherwise *)
  connect : bool -> string -> bool -> Dev -> Dev * outcome MpFileExplorer;
  (** what the device and the host answer to a File Explorer operation *)
  remote : forall A, fe_call A -> MpFileExplorer -> Dev -> Dev * outcome A;
  (** the terminal session *)
  term : term_call -> Dev -> Dev * outcome unit;
  (** the interpreter's recursion limit *)
  recursion_limit : nat
}.
Arguments remote _ {A} _ _ _.

(** ** Built-in functions on strings and lists *)

(** [s.split(sep)] for a one-character separator. *)
Fixpoint split (sep : ascii) (s : string) : list string :=
  match s with
  | EmptyString => [""]
  | String c s' =>
      if Ascii.eqb c sep then "" :: split sep s'
      else match split sep s' with
           | w :: ws => String c w :: ws
           | [] => [String c ""]
           end
  end.

(** [s.strip(c)] for a one-character set. *)
Fixpoint lstrip (c : ascii) (s : string) : string :=
  match s with
  | EmptyString => ""
  | String c' s' => if Ascii.eqb c' c then lstrip c s' else s
  end.

Definition strip (c : ascii) (s : string) : string :=
  String.rev (lstrip c (String.rev (lstrip c s))).

(** [l[i]] and [l[-1]]: an index out of range raises [IndexError]. *)
Definition index_error (what : string) : exn :=
  mkExn IndexError (what +:+ " index out of range").

Definition item {A} (l : list A) (i : nat) : outcome A :=
  match l !! i with
  | Some x => Return x
  | None => Raise (index_error "list")
  end.

Definition last_item {A} (l : list A) : outcome A :=
  match last l with
  | Some x => Return x
  | None => Raise (index_error "list")
  end.

(** [s[:-4]] and [s[-4]]. *)
Definition drop_last4 (s : string) : string :=
  String.substring 0 (String.length s - 4) s.

Definition fourth_from_end (s : string) : outcome ascii :=
  if (String.length s <? 4)%nat then Raise (index_error "string")
  else match String.get (String.length s - 4) s with
       | Some c => Return c
       | None => Raise (index_error "string")
       end.

(** [sorted(l, key=key)] on string keys: a stable sort that compares keys
    with [<] only.  An element goes in front of the first one whose key
    is not smaller than its own, so equal keys keep their order. *)
Fixpoint insert_by {A} (key : A -> string) (x : A) (l : list A) : list A :=
  match l with
  | [] => [x]
  | y :: l' =>
      if String.ltb (key y) (key x) then y :: insert_by key x l'
      else x :: y :: l'
  end.

Fixpoint sorted {A} (key : A -> string) (l : list A) : list A :=
  match l with
  | [] => []
  | x :: l' => insert_by key x (sorted key l')
  end.

(** The box-drawing characters of [rec_tree], one character each as in
    the Python string; they are given their code page 437 codes. *)
Definition BOX_UP_RIGHT : ascii := ascii_of_nat 192.
Definition BOX_VERTICAL : ascii := ascii_of_nat 179.
Definition BOX_VERTICAL_RIGHT : ascii := ascii_of_nat 195.
Definition BOX_HORIZONTAL : ascii := ascii_of_nat 196.
Definition SPACE : ascii := ascii_of_nat 32.

Definition LAST_BRANCH : string :=
  String BOX_UP_RIGHT (String BOX_HORIZONTAL (String BOX_HORIZONTAL " ")).
Definition MID_BRANCH : string :=
  String BOX_VERTICAL_RIGHT (String BOX_HORIZONTAL (String BOX_HORIZONTAL " ")).

(** A logged File Explorer call, whatever it returns. *)
Definition fe_event : Type := { A : Type & fe_call A }.
Definition event {A} (c : fe_call A) : fe_event := existT A c.

(** [Term] of [mp.term], as far as [do_repl] configures it. *)
Record Term := mkTerm {
  serial : string;
  exit_character : string;
  raw : bool;
  rx_encoding : string;
  tx_encoding : string
}.

(** The attributes of an [MpFileShell] object. *)
Record MpFileShell := mkShell {
  color : bool;
  caching : bool;
  reset : bool;
  fe : option MpFileExplorer;
  repl : option Term;
  prompt : string
}.

Section Shell.

Variable W : World.

(** The machine a command runs on: the shell object [self], the world,
    what was written to standard output (one element per write), what
    went to [logging.error], and the history of File Explorer calls. *)
Record Machine := mkMachine {
  self : MpFileShell;
  dev : Dev W;
  stdout : list string;
  errlog : list string;
  calls : list fe_event
}.

Definition M (A : Type) : Type := Machine -> Machine * outcome A.

Definition ret {A} (a : A) : M A := fun m => (m, Return a).

Definition raise {A} (e : exn) : M A := fun m => (m, Raise e).

Definition bind {A B} (c : M A) (k : A -> M B) : M B :=
  fun m =>
    match c m with
    | (m', Return a) => k a m'
    | (m', Raise e) => (m', Raise e)
    end.

Definition lift {A} (o : outcome A) : M A := fun m => (m, o).

(** [isinstance(e, c)], the test an [except c] clause makes. *)
Definition base_of (c : exn_class) : builtin_exn :=
  match c with
  | Builtin b => b
  | RemoteIOError => RemoteIOError_base W
  | PyboardError => PyboardError_base W
  | ConError => ConError_base W
  end.

Definition issubclass (a b : exn_class) : bool :=
  match a, b with
  | RemoteIOError, RemoteIOError
  | PyboardError, PyboardError
  | ConError, ConError => true
  | _, Builtin b' => builtin_issubclass (base_of a) b'
  | _, _ => false
  end.

Definition isinstance (e : exn) (c : exn_class) : bool :=
  issubclass (exn_cls e) c.

(** [try: body  except c1 as e: h1 e  except c2 as e: h2 e ...]: the
    first clause whose class matches handles the exception. *)
Fixpoint dispatch {A} (hs : list (exn_class * (exn -> M A))) (e : exn) : M A :=
  match hs with
  | [] => raise e
  | (c, h) :: hs' => if isinstance e c then h e else dispatch hs' e
  end.

Definition try_except {A} (body : M A) (hs : list (exn_class * (exn -> M A))) : M A :=
  fun m =>
    match body m with
    | (m', Return a) => (m', Return a)
    | (m', Raise e) => dispatch hs e m'
    end.

Notation "'let*' x ':=' c 'in' k" := (bind c (fun x => k))
  (at level 10, x pattern, c at level 100, k at level 200, only parsing).
Notation "c ';;' k" := (bind c (fun _ => k))
  (at level 100, k at level 200, right associativity, only parsing).

(** *** Access to the machine *)

Definition get_self : M MpFileShell := fun m => (m, Return (self m)).

Definition set_self (s : MpFileShell) : M unit :=
  fun m => (mkMachine s (dev m) (stdout m) (errlog m) (calls m), Return tt).

Definition set_fe (f : option MpFileExplorer) : M unit :=
  let* s := get_self in
  set_self (mkShell (color s) (caching s) (reset s) f (repl s) (prompt s)).

Definition set_repl (t : option Term) : M unit :=
  let* s := get_self in
  set_self (mkShell (color s) (caching s) (reset s) (fe s) t (prompt s)).

Definition set_prompt (p : string) : M unit :=
  let* s := get_self in
  set_self (mkShell (color s) (caching s) (reset s) (fe s) (repl s) p).

(** [sys.stdout.write(s)] and [print(s)]. *)
Definition write (s : string) : M unit :=
  fun m => (mkMachine (self m) (dev m) (stdout m ++ [s]) (errlog m) (calls m), Return tt).

Definition print (s : string) : M unit := write (s +:+ nl).

(** [logging.error(e)] *)
Definition logging_error (s : string) : M unit :=
  fun m => (mkMachine (self m) (dev m) (stdout m) (errlog m ++ [s]) (calls m), Return tt).

(** [for x in l: body i x], with [i] the running index. *)
Fixpoint for_each {A} (l : list A) (i : nat) (body : nat -> A -> M unit) : M unit :=
  match l with
  | [] => ret tt
  | x :: l' => body i x ;; for_each l' (S i) body
  end.

(** *** The File Explorer behind [self.fe] *)

Definition method_name {A} (c : fe_call A) : string :=
  match c with
  | Close => "close" | Pwd => "pwd" | Cd _ => "cd" | Ls => "ls"
  | Fqn _ => "_fqn" | Md _ => "md" | Put _ _ => "put" | Putr _ _ => "putr"
  | Mput _ _ _ => "mput" | Get _ _ => "get" | Getr _ _ => "getr"
  | Mget _ _ _ => "mget" | Rm _ => "rm" | Rmr _ => "rmr" | Mrm _ _ => "mrm"
  | Gets _ => "gets" | ExecRawNoFollow _ => "exec_raw_no_follow"
  | Follow _ => "follow" | Teardown => "teardown" | Setup => "setup"
  | MpyCross _ => "mpy_cross"
  end.

(** [self.fe.<attribute>]: with no session [self.fe] is [None]. *)
Definition no_attribute (name : string) : exn :=
  mkExn AttributeError ("'NoneType' object has no attribute '" +:+ name +:+ "'").

Definition fe_attr {A} (name : string) (proj : MpFileExplorer -> A) : M A :=
  let* s := get_self in
  match fe s with
  | None => raise (no_attribute name)
  | Some f => ret (proj f)
  end.

(** A method call on [self.fe]: the call is recorded and the world
    answers it. *)
Definition fe_invoke {A} (c : fe_call A) : M A :=
  fun m =>
    match fe (self m) with
    | None => (m, Raise (no_attribute (method_name c)))
    | Some f =>
        let (d, r) := remote W c f (dev m) in
        (mkMachine (self m) d (stdout m) (errlog m) (calls m ++ [event c]), r)
    end.

(** Modelled from the spec: [MpFileExplorer.pwd] of [mp/mpfexp.py], which
    is not part of the sources at hand.  Section 4.2: returns the tracked
    current directory and never round-trips. *)
Definition fe_pwd : M string :=
  fun m =>
    match fe (self m) with
    | None => (m, Raise (no_attribute "pwd"))
    | Some f =>
        (mkMachine (self m) (dev m) (stdout m) (errlog m) (calls m ++ [event Pwd]),
         Return (dir f))
    end.

(** Modelled from the spec: [MpFileExplorer.cd] of [mp/mpfexp.py].
    Section 4.2: executes a snippet that verifies existence and changes
    directory; on success updates the tracked directory, on a remote error
    fails with the tracked directory unchanged.  The world's answer to
    [Cd target] is the directory the device is in afterwards. *)
Definition fe_cd (target : string) : M unit :=
  let* d := fe_invoke (Cd target) in
  let* s := get_self in
  match fe s with
  | None => ret tt
  | Some f => set_fe (Some (mkFe d (sysname f) (con f)))
  end.

(** The letters the shell reads the two kinds as. *)
Definition kind_code (k : Kind) : string :=
  match k with KFile => "F" | KDir => "D" end.

(** Modelled from the spec: [MpFileExplorer.ls(add_details=True)] of
    [mp/mpfexp.py].  Section 4.2: one [(name, kind)] pair per line, kind
    file or directory. *)
Definition fe_ls : M (list (string * string)) :=
  let* l := fe_invoke Ls in
  ret (map (fun e => (fst e, kind_code (snd e))) l).

(** A byte sequence as the running interpreter types it. *)
Definition as_bytes (b : string) : pytext :=
  if python3 W then Bytes b else Str b.

(** Modelled from the spec: [follow], the [streamResult] of section 4.1
    in [mp/pyboard.py]: hands each received fragment to the callback and
    returns the execution result, a pair of byte sequences. *)
Definition fe_follow (timeout : option Z) (data_consumer : string -> M unit)
  : M (pytext * pytext) :=
  let* r := fe_invoke (Follow timeout) in
  for_each (fst r) 0 (fun _ data => data_consumer data) ;;
  ret (as_bytes (fst (snd r)), as_bytes (snd (snd r))).

(** *** The private methods of [MpFileShell] *)

Definition __set_prompt_path : M unit :=
  let* s := get_self in
  let* pwd := match fe s with
              | Some _ => fe_pwd
              | None => ret "/"
              end in
  if color s then
    set_prompt (Fore.BLUE +:+ "mpfs [" +:+ Fore.YELLOW +:+ pwd +:+
                Fore.BLUE +:+ "]> " +:+ Fore.RESET)
  else
    set_prompt ("mpfs [" +:+ pwd +:+ "]> ").

Definition __error (msg : pytext) : M unit :=
  let* s := get_self in
  if color s then
    let* t := lift (str_add (nl +:+ Fore.RED) msg) in
    print (t +:+ Fore.RESET +:+ nl)
  else
    let* t := lift (str_add nl msg) in
    print (t +:+ nl).

Definition __disconnect : M unit :=
  let* s := get_self in
  match fe s with
  | Some _ =>
      try_except
        (fe_invoke Close ;;
         set_fe None ;;
         __set_prompt_path)
        [(RemoteIOError, fun e => __error (exn_str e))]
  | None => ret tt
  end.

Definition __connect (port : string) : M unit :=
  try_except
    (__disconnect ;;
     let* s := get_self in
     (if reset s then print "Hard resetting device ..." else ret tt) ;;
     let* f := (fun m =>
                  let (d, r) := connect W (caching s) port (reset s) (dev m) in
                  (mkMachine (self m) d (stdout m) (errlog m) (calls m), r)) in
     set_fe (Some f) ;;
     let* name := fe_attr "sysname" sysname in
     print ("Connected to " +:+ name))
    [(PyboardError, fun e => logging_error (exn_str e) ;; __error (exn_str e));
     (ConError, fun e => logging_error (exn_str e) ;;
                         __error ("Failed to open: " +:+ port));
     (Builtin AttributeError,
       fun e => logging_error (exn_str e) ;;
                __error ("Failed to open: " +:+ port))].

Definition __is_open : M bool :=
  let* s := get_self in
  match fe s with
  | None => __error "Not connected to device. Use 'open' first." ;; ret false
  | Some _ => ret true
  end.

(** Returns [None] after reporting an unparseable rest, the token values
    otherwise. *)
Definition __parse_file_names (args : string) : M (option (list string)) :=
  let (tokens, rest) := tokenize W args in
  if negb (String.eqb rest "") then
    __error ("Invalid filename given: " +:+ rest) ;; ret None
  else
    ret (Some (map value tokens)).

(** [not s_args]: [None] and the empty list are both false. *)
Definition falsy {A} (s_args : option (list A)) : bool :=
  match s_args with
  | None | Some [] => true
  | Some (_ :: _) => false
  end.

Definition list_len {A} (s_args : option (list A)) : nat :=
  match s_args with
  | None => 0
  | Some l => length l
  end.

(** [s_args[i]] *)
Definition arg {A} (s_args : option (list A)) (i : nat) : M A :=
  match s_args with
  | None => raise (mkExn TypeError "'NoneType' object is not subscriptable")
  | Some l => lift (item l i)
  end.

(** [s_args[1] if len(s_args) > 1 else None] *)
Definition second_arg {A} (s_args : option (list A)) : M (option A) :=
  if (1 <? list_len s_args)%nat then
    let* a := arg s_args 1 in ret (Some a)
  else ret None.

(** *** The commands.  A handler returns the stop flag of [cmd.Cmd]:
    [None] (here [false]) but for [exit]. *)

Definition do_exit (args : string) : M bool :=
  __disconnect ;;
  ret true.

Definition do_EOF := do_exit.

Definition do_open (args : string) : M bool :=
  if (String.length args =? 0)%nat then
    __error "Missing argument: <TARGET>" ;; ret false
  else
    let args :=
      if negb (String.prefix "ser:/dev/" args)
         && negb (String.prefix "ser:COM" args)
         && negb (String.prefix "tn:" args)
         && negb (String.prefix "ws:" args)
      then
        if String.eqb (platform_system W) "Windows" then "ser:" +:+ args
        else "ser:/dev/" +:+ args
      else args in
    __connect args ;;
    ret false.

Definition do_close (args : string) : M bool :=
  __disconnect ;;
  ret false.

(** One line of a listing. *)
Definition print_entry (elem type : string) : M unit :=
  let* s := get_self in
  if String.eqb type "F" then
    if color s then print (Fore.CYAN +:+ ("       " +:+ elem) +:+ Fore.RESET)
    else print ("       " +:+ elem)
  else
    if color s then print (Fore.MAGENTA +:+ (" <dir> " +:+ elem) +:+ Fore.RESET)
    else print (" <dir> " +:+ elem).

(** The order of display: by name, then stably by kind. *)
Definition display_order (files : list (string * string)) : list (string * string) :=
  sorted snd (sorted fst files).

Definition do_ls (directory : string) : M bool :=
  let* open := __is_open in
  if open then
    let* olddir := fe_pwd in
    try_except
      ((if negb (String.length directory =? 0)%nat then fe_cd directory
        else ret tt) ;;
       let* files := fe_ls in
       let* pwd := fe_pwd in
       let files := if negb (String.eqb pwd "/") then ("..", "D") :: files
                    else files in
       let* pwd := fe_pwd in
       print (nl +:+ "Remote files in '" +:+ pwd +:+ "':" +:+ nl) ;;
       let files := display_order files in
       for_each files 0 (fun _ f => print_entry (fst f) (snd f)) ;;
       print "")
      [(Builtin IOError, fun e => __error (exn_str e))] ;;
    (if negb (String.length directory =? 0)%nat then fe_cd olddir
     else ret tt) ;;
    ret false
  else ret false.

(** [rec_tree]; [depth] is what is left of the interpreter's recursion
    limit, and running out of it raises as the interpreter does. *)
Fixpoint rec_tree (depth : nat) (directory prefix : string) : M unit :=
  match depth with
  | 0 => raise (mkExn RuntimeError "maximum recursion depth exceeded")
  | S depth' =>
      try_except
        (let* olddir := fe_pwd in
         fe_cd directory ;;
         let* files := fe_ls in
         let* s := get_self in
         let* pwd := fe_pwd in
         let* name := lift (last_item (split "/" pwd)) in
         (if color s then print (Fore.MAGENTA +:+ (prefix +:+ name) +:+ Fore.RESET)
          else print (prefix +:+ name)) ;;
         let* prefix :=
           (if (4 <=? String.length prefix)%nat then
              let* c := lift (fourth_from_end prefix) in
              if Ascii.eqb c BOX_UP_RIGHT then ret (drop_last4 prefix +:+ "    ")
              else ret prefix
            else ret prefix) in
         let files := display_order files in
         for_each files 0 (fun i f =>
           let elem := fst f in
           let type := snd f in
           if String.eqb type "F" then
             let* fprefix :=
               (if (3 <=? String.length prefix)%nat then
                  let* c := lift (fourth_from_end prefix) in
                  ret (drop_last4 prefix +:+
                       (if Ascii.eqb c SPACE then " " else String BOX_VERTICAL "") +:+
                       "   ")
                else ret prefix) in
             let fprefix :=
               if (length files =? i + 1)%nat then fprefix +:+ LAST_BRANCH
               else fprefix +:+ MID_BRANCH in
             if color s then print (Fore.CYAN +:+ (fprefix +:+ elem) +:+ Fore.RESET)
             else print (fprefix +:+ elem)
           else
             if (length files =? i + 1)%nat then
               let* d := fe_invoke (Fqn elem) in
               rec_tree depth' d (prefix +:+ LAST_BRANCH)
             else
               let* d := fe_invoke (Fqn elem) in
               rec_tree depth' d (prefix +:+ MID_BRANCH)) ;;
         fe_cd olddir)
        [(Builtin IOError, fun e => __error (exn_str e))]
  end.

Definition do_tree (directory : string) : M bool :=
  let* open := __is_open in
  if open then
    let* olddir := fe_pwd in
    let* directory :=
      (if negb (String.length directory =? 0)%nat then
         fe_cd directory ;; ret directory
       else fe_pwd) in
    rec_tree (recursion_limit W) directory "" ;;
    (if negb (String.length directory =? 0)%nat then fe_cd olddir
     else ret tt) ;;
    ret false
  else ret false.

Definition do_pwd (args : string) : M bool :=
  let* open := __is_open in
  if open then
    let* pwd := fe_pwd in
    print pwd ;; ret false
  else ret false.

Definition do_cd (args : string) : M bool :=
  if (String.length args =? 0)%nat then
    __error "Missing argument: <REMOTE DIR>" ;; ret false
  else
    let* open := __is_open in
    if open then
      try_except
        (let* s_args := __parse_file_names args in
         if falsy s_args then ret false
         else if (1 <? list_len s_args)%nat then
           __error "Only one argument allowed: <REMOTE DIR>" ;; ret false
         else
           let* a := arg s_args 0 in
           fe_cd a ;;
           __set_prompt_path ;;
           ret false)
        [(Builtin IOError, fun e => __error (exn_str e) ;; ret false);
         (RemoteIOError, fun e => __error (exn_str e) ;; ret false)]
    else ret false.

Definition do_md (args : string) : M bool :=
  if (String.length args =? 0)%nat then
    __error "Missing argument: <REMOTE DIR>" ;; ret false
  else
    let* open := __is_open in
    if open then
      try_except
        (let* s_args := __parse_file_names args in
         if falsy s_args then ret false
         else if (1 <? list_len s_args)%nat then
           __error "Only one argument allowed: <REMOTE DIR>" ;; ret false
         else
           let* a := arg s_args 0 in
           fe_invoke (Md a) ;;
           ret false)
        [(Builtin IOError, fun e => __error (exn_str e) ;; ret false)]
    else ret false.

(** The common shape of [put], [putr], [get] and [getr]: one or two
    names, the second optional. *)
Definition transfer (usage : string) (op : string -> option string -> fe_call unit)
    (args : string) : M bool :=
  if (String.length args =? 0)%nat then
    __error ("Missing arguments: " +:+ usage) ;; ret false
  else
    let* open := __is_open in
    if open then
      let* s_args := __parse_file_names args in
      if falsy s_args then ret false
      else if (2 <? list_len s_args)%nat then
        __error ("Only one ore two arguments allowed: " +:+ usage) ;; ret false
      else
        try_except
          (let* src := arg s_args 0 in
           let* dst := second_arg s_args in
           fe_invoke (op src dst) ;;
           ret false)
          [(Builtin IOError, fun e => __error (exn_str e) ;; ret false)]
    else ret false.

Definition do_put : string -> M bool :=
  transfer "<LOCAL FILE> [<REMOTE FILE>]" Put.

Definition do_putr : string -> M bool :=
  transfer "<LOCAL DIRECTORY> [<REMOTE DIRECTORY>]" Putr.

Definition do_get : string -> M bool :=
  transfer "<REMOTE FILE> [<LOCAL FILE>]" Get.

Definition do_getr : string -> M bool :=
  transfer "<REMOTE DIRECTORY> [<LOCAL DIRECTORY>]" Getr.

(** The common shape of [mput], [mget] and [mrm]: the argument is the
    selection expression, passed on as it is. *)
Definition selection (op : Machine -> fe_call unit) (args : string) : M bool :=
  if (String.length args =? 0)%nat then
    __error "Missing argument: <SELECTION REGEX>" ;; ret false
  else
    let* open := __is_open in
    if open then
      try_except
        (let* c := (fun m => (m, Return (op m))) in
         fe_invoke c ;;
         ret false)
        [(Builtin IOError, fun e => __error (exn_str e) ;; ret false)]
    else ret false.

Definition do_mput (args : string) : M bool :=
  selection (fun m => Mput (getcwd W (dev m)) args true) args.

Definition do_mget (args : string) : M bool :=
  selection (fun m => Mget (getcwd W (dev m)) args true) args.

Definition do_mrm (args : string) : M bool :=
  selection (fun _ => Mrm args true) args.

(** The common shape of [rm] and [rmr]. *)
Definition remove (what : string) (op : string -> fe_call unit) (args : string)
  : M bool :=
  if (String.length args =? 0)%nat then
    __error ("Missing argument: " +:+ what) ;; ret false
  else
    let* open := __is_open in
    if open then
      let* s_args := __parse_file_names args in
      if falsy s_args then ret false
      else if (1 <? list_len s_args)%nat then
        __error ("Only one argument allowed: " +:+ what) ;; ret false
      else
        try_except
          (let* a := arg s_args 0 in
           fe_invoke (op a) ;;
           ret false)
          [(Builtin IOError, fun e => __error (exn_str e) ;; ret false);
           (PyboardError,
             fun _ => let* name := fe_attr "sysname" sysname in
                      __error ("Unable to send request to " +:+ name) ;;
                      ret false)]
    else ret false.

Definition do_rm : string -> M bool := remove "<REMOTE FILE>" Rm.

Definition do_rmr : string -> M bool := remove "<REMOTE DIRECTORY>" Rmr.

Definition do_cat (args : string) : M bool :=
  if (String.length args =? 0)%nat then
    __error "Missing argument: <REMOTE FILE>" ;; ret false
  else
    let* open := __is_open in
    if open then
      let* s_args := __parse_file_names args in
      if falsy s_args then ret false
      else if (1 <? list_len s_args)%nat then
        __error "Only one argument allowed: <REMOTE FILE>" ;; ret false
      else
        try_except
          (let* a := arg s_args 0 in
           let* text := fe_invoke (Gets a) in
           print text ;;
           ret false)
          [(Builtin IOError, fun e => __error (exn_str e) ;; ret false)]
    else ret false.

(** The callback of [do_exec]: decode the fragment and write it without
    the end-of-transmission characters. *)
Definition data_consumer (data : string) : M unit :=
  let* data := lift (decode_utf8 W data) in
  write (strip (ascii_of_nat 4) data).

Definition do_exec (args : string) : M bool :=
  if (String.length args =? 0)%nat then
    __error "Missing argument: <STATEMENT>" ;; ret false
  else
    let* open := __is_open in
    if open then
      try_except
        (fe_invoke (ExecRawNoFollow (args +:+ nl)) ;;
         let* r := fe_follow None data_consumer in
         (if negb (len (snd r) =? 0)%nat then __error (snd r) else ret tt) ;;
         ret false)
        [(Builtin IOError, fun e => __error (exn_str e) ;; ret false);
         (PyboardError, fun e => __error (exn_str e) ;; ret false)]
    else ret false.

Definition term_invoke (c : term_call) : M unit :=
  fun m =>
    let (d, r) := term W c (dev m) in
    (mkMachine (self m) d (stdout m) (errlog m) (calls m), r).

(** [int(ver[0]) < 2 or (int(ver[0]) == 2 and int(ver[1]) < 7)] for
    [ver = serial.VERSION.split(".")]. *)
Definition serial_too_old : outcome bool :=
  let ver := split "." (serial_VERSION W) in
  match item ver 0 with
  | Raise e => Raise e
  | Return v0 =>
      match int_ W v0 with
      | Raise e => Raise e
      | Return major =>
          if (major <? 2)%Z then Return true
          else if (major =? 2)%Z then
            match item ver 1 with
            | Raise e => Raise e
            | Return v1 =>
                match int_ W v1 with
                | Raise e => Raise e
                | Return minor => Return (minor <? 7)%Z
                end
            end
          else Return false
      end
  end.

Definition do_repl (args : string) : M bool :=
  let* too_old := lift serial_too_old in
  if too_old then
    __error ("REPL needs PySerial version >= 2.7, found " +:+ serial_VERSION W) ;;
    ret false
  else
    let* open := __is_open in
    if open then
      let* s := get_self in
      (match repl s with
       | None =>
           let* c := fe_attr "con" con in
           set_repl (Some (mkTerm c
                             (if String.eqb (platform_system W) "Windows"
                              then chr 17 else chr 29)
                             true "UTF-8" "UTF-8"))
       | Some t =>
           let* c := fe_attr "con" con in
           set_repl (Some (mkTerm c (exit_character t) (raw t)
                             (rx_encoding t) (tx_encoding t)))
       end) ;;
      fe_invoke Teardown ;;
      term_invoke TermStart ;;
      let* s := get_self in
      (match repl s with
       | Some t =>
           if String.eqb (exit_character t) (chr 17) then
             print (nl +:+ "*** Exit REPL with Ctrl+Q ***")
           else
             print (nl +:+ "*** Exit REPL with Ctrl+] ***")
       | None => raise (no_attribute "exit_character")
       end) ;;
      try_except (term_invoke TermJoin)
        [(Builtin Exception, fun _ => ret tt)] ;;
      term_invoke TermCleanup ;;
      fe_invoke Setup ;;
      print "" ;;
      ret false
    else ret false.

Definition do_mpyc (args : string) : M bool :=
  if (String.length args =? 0)%nat then
    __error "Missing argument: <LOCAL FILE>" ;; ret false
  else
    let* s_args := __parse_file_names args in
    if falsy s_args then ret false
    else if (1 <? list_len s_args)%nat then
      __error "Only one argument allowed: <LOCAL FILE>" ;; ret false
    else
      try_except
        (let* a := arg s_args 0 in
         fe_invoke (MpyCross a) ;;
         ret false)
        [(Builtin IOError, fun e => __error (exn_str e) ;; ret false)]
.

End Shell.

Arguments mkMachine {W} _ _ _ _ _.
Arguments self {W} _.
Arguments dev {W} _.
Arguments stdout {W} _.
Arguments errlog {W} _.
Arguments calls {W} _.

(** *** Vocabulary of the statements about the shell *)

(** What [__error msg] writes, colours included. *)
Definition error_text (colour : bool) (msg : string) : string :=
  if colour then (((nl +:+ Fore.RED) +:+ msg) +:+ (Fore.RESET +:+ nl)) +:+ nl
  else ((nl +:+ msg) +:+ nl) +:+ nl.

(** The prompt [__set_prompt_path] derives from a directory. *)
Definition prompt_for (colour : bool) (pwd : string) : string :=
  if colour then
    Fore.BLUE +:+ "mpfs [" +:+ Fore.YELLOW +:+ pwd +:+ Fore.BLUE +:+ "]> " +:+
    Fore.RESET
  else "mpfs [" +:+ pwd +:+ "]> ".

(** The machine after one more write to standard output. *)
Definition wrote {W} (m : Machine W) (s : string) : Machine W :=
  mkMachine (self m) (dev m) (stdout m ++ [s]) (errlog m) (calls m).

(** The directory the session tracks, when there is a session. *)
Definition tracked_dir {W} (m : Machine W) : option string :=
  dir <$> fe (self m).

(** The commands of the shell that reach the File Explorer, and the
    handler [cmd.Cmd] dispatches each to. *)
Inductive command :=
| c_ls | c_tree | c_pwd | c_cd | c_md | c_put | c_putr | c_mput | c_get
| c_getr | c_mget | c_rm | c_rmr | c_mrm | c_cat | c_exec | c_repl | c_mpyc.

Definition handler (W : World) (c : command) : string -> M W bool :=
  match c with
  | c_ls => do_ls W | c_tree => do_tree W | c_pwd => do_pwd W
  | c_cd => do_cd W | c_md => do_md W | c_put => do_put W
  | c_putr => do_putr W | c_mput => do_mput W | c_get => do_get W
  | c_getr => do_getr W | c_mget => do_mget W | c_rm => do_rm W
  | c_rmr => do_rmr W | c_mrm => do_mrm W | c_cat => do_cat W
  | c_exec => do_exec W | c_repl => do_repl W | c_mpyc => do_mpyc W
  end.

(** The commands that take exactly one path. *)
Definition single_path (c : command) : bool :=
  match c with
  | c_cd | c_md | c_rm | c_rmr | c_mpyc => true
  | _ => false
  end.

(** The commands that need a session, and those that insist on an
    argument before anything else. *)
Definition needs_session (c : command) : bool :=
  match c with
  | c_mpyc => false
  | _ => true
  end.

Definition takes_argument (c : command) : bool :=
  match c with
  | c_ls | c_tree | c_pwd | c_repl => false
  | _ => true
  end.

Definition not_connected : string :=
  "Not connected to device. Use 'open' first.".

(** The one File Explorer call a command makes inside its [try] block
    for an argument that parses into the right number of names; [None]
    for the other arguments and for the commands that make several
    calls or none inside a [try]. *)
Definition one_name {A} (op : string -> fe_call A) (names : list string)
  : option fe_event :=
  match names with
  | [a] => Some (event (op a))
  | _ => None
  end.

Definition one_or_two_names (op : string -> option string -> fe_call unit)
    (names : list string) : option fe_event :=
  match names with
  | [a] => Some (event (op a None))
  | [a; b] => Some (event (op a (Some b)))
  | _ => None
  end.

Definition delegated {W} (c : command) (args : string) (m : Machine W)
  : option fe_event :=
  let names := map value (fst (tokenize W args)) in
  if String.eqb args "" then None
  else
    match c with
    | c_mput => Some (event (Mput (getcwd W (dev m)) args true))
    | c_mget => Some (event (Mget (getcwd W (dev m)) args true))
    | c_mrm => Some (event (Mrm args true))
    | c_ls | c_tree | c_pwd | c_exec | c_repl => None
    | _ =>
        if negb (String.eqb (snd (tokenize W args)) "") then None
        else
          match c with
          | c_cd => one_name Cd names
          | c_md => one_name Md names
          | c_rm => one_name Rm names
          | c_rmr => one_name Rmr names
          | c_cat => one_name Gets names
          | c_mpyc => one_name MpyCross names
          | c_put => one_or_two_names Put names
          | c_putr => one_or_two_names Putr names
          | c_get => one_or_two_names Get names
          | c_getr => one_or_two_names Getr names
          | _ => None
          end
    end.

(** The classes named in the [except] clauses around that call. *)
Definition caught (c : command) : list exn_class :=
  match c with
  | c_cd => [Builtin IOError; RemoteIOError]
  | c_rm | c_rmr => [Builtin IOError; PyboardError]
  | _ => [Builtin IOError]
  end.

(** The world's answer to a logged call when it is an exception. *)
Definition failure {W} (ev : fe_event) (f : MpFileExplorer) (d : Dev W)
  : Dev W * option exn :=
  let (d', r) := remote W (projT2 ev) f d in
  (d', match r with Raise e => Some e | Return _ => None end).

(** The machine after a File Explorer call that left the world in [d]. *)
Definition called {W} (m : Machine W) (ev : fe_event) (d : Dev W) : Machine W :=
  mkMachine (self m) d (stdout m) (errlog m) (calls m ++ [ev]).

(** A target that names its transport: [scheme:target]. *)
Definition carries_scheme (target : string) : bool :=
  String.prefix "ser:" target || String.prefix "tn:" target
  || String.prefix "ws:" target.

(** The shell object with the session in another directory. *)
Definition moved (s : MpFileShell) (d : string) : MpFileShell :=
  mkShell (color s) (caching s) (reset s)
    ((fun f => mkFe d (sysname f) (con f)) <$> fe s) (repl s) (prompt s).

(** A computation that leaves the shell object alone, and one that at
    most moves the session to another directory. *)
Definition keeps_self {W A} (c : M W A) : Prop :=
  forall m m' r, c m = (m', r) -> self m' = self m.

Definition travels {W A} (c : M W A) : Prop :=
  forall m m' r, c m = (m', r) -> exists x, self m' = moved (self m) x.

(** Smaller key first; for equal keys, the order [R]. *)
Definition by_key_then {A} (key : A -> string) (R : A -> A -> Prop) (a b : A)
  : Prop :=
  String.ltb (key a) (key b) = true \/ (key a = key b /\ R a b).

(** Directories before files, and by name within each kind. *)
Definition listed_before (a b : string * string) : Prop :=
  (snd a = "D" /\ snd b = "F")
  \/ (snd a = snd b /\ String.leb (fst a) (fst b) = true).

(** The entries [do_ls] sorts: the listing with the kinds as letters, and
    the parent directory in front of it outside the root. *)
Definition coded (listing : list (string * Kind)) : list (string * string) :=
  map (fun e => (fst e, kind_code (snd e))) listing.

Definition with_parent (pwd : string) (files : list (string * string))
  : list (string * string) :=
  if negb (String.eqb pwd "/") then ("..", "D") :: files else files.

(** What [do_ls] writes for the heading and for one entry. *)
Definition listing_header (pwd : string) : string :=
  (nl +:+ "Remote files in '" +:+ pwd +:+ "':" +:+ nl) +:+ nl.

Definition entry_line (colour : bool) (f : string * string) : string :=
  (if String.eqb (snd f) "F" then
     if colour then Fore.CYAN +:+ ("       " +:+ fst f) +:+ Fore.RESET
     else "       " +:+ fst f
   else
     if colour then Fore.MAGENTA +:+ (" <dir> " +:+ fst f) +:+ Fore.RESET
     else " <dir> " +:+ fst f) +:+ nl.

(** The machine when [exec_raw_no_follow(command)] and [follow] have
    returned and the callback has written the decoded fragments. *)
Definition streamed {W} (m : Machine W) (command : string) (d : Dev W)
    (texts : list string) : Machine W :=
  mkMachine (self m) d (stdout m ++ map (strip (ascii_of_nat 4)) texts)
    (errlog m)
    (calls m ++ [event (ExecRawNoFollow command)] ++ [event (Follow None)]).

(** [MpFileShell(color, caching, reset)] as [__init__] leaves it. *)
Definition MpFileShell_init (color caching reset : bool) : MpFileShell :=
  mkShell color caching reset None None (prompt_for color "/").

(** ** File transfer: [put] and [get] of the File Explorer *)

Module Transfer.

(** A byte sequence is a [list ascii]; text sent to or printed by the
    device is a [string]. *)

(** Two lower-case hexadecimal digits per byte. *)
Definition hex_digits : list ascii :=
  String.list_ascii_of_string "0123456789abcdef".

Definition hex_digit (n : nat) : ascii :=
  nth n hex_digits (ascii_of_nat 102).

Fixpoint position (c : ascii) (l : list ascii) : option nat :=
  match l with
  | [] => None
  | x :: l' => if Ascii.eqb c x then Some 0 else S <$> position c l'
  end.

Definition hex_value (c : ascii) : option nat := position c hex_digits.

Definition hex_byte (b : ascii) : string :=
  String (hex_digit (nat_of_ascii b / 16))
    (String (hex_digit (nat_of_ascii b mod 16)) "").

Definition byte_of_hex (h l : ascii) : option ascii :=
  match hex_value h, hex_value l with
  | Some x, Some y => Some (ascii_of_nat (16 * x + y))
  | _, _ => None
  end.

Fixpoint hexlify (bs : list ascii) : string :=
  match bs with
  | [] => ""
  | b :: bs' => hex_byte b +:+ hexlify bs'
  end.

Fixpoint unhexlify (s : string) : option (list ascii) :=
  match s with
  | EmptyString => Some []
  | String h (String l s') =>
      match byte_of_hex h l, unhexlify s' with
      | Some b, Some bs => Some (b :: bs)
      | _, _ => None
      end
  | String _ EmptyString => None
  end.

(** Modelled from the spec: the encoding of a chunk by [put] in
    [mp/mpfexp.py], which is not part of the sources at hand.  Section
    4.2: chunk bytes encoded into a form safe to embed as literal source
    text, escaping control and non-printable bytes.  A printable byte
    other than the backslash and the quote stands for itself, any other
    byte is written [\xHH]. *)
Definition plain (b : ascii) : bool :=
  (32 <=? nat_of_ascii b)%nat && (nat_of_ascii b <=? 126)%nat
  && negb (Ascii.eqb b "\") && negb (Ascii.eqb b "'").

Definition escape_byte (b : ascii) : string :=
  if plain b then String b "" else String "\" (String "x" (hex_byte b)).

Fixpoint escape (bs : list ascii) : string :=
  match bs with
  | [] => ""
  | b :: bs' => escape_byte b +:+ escape bs'
  end.

(** The device reading the body of a bytes literal. *)
Fixpoint unescape (s : string) : option (list ascii) :=
  match s with
  | EmptyString => Some []
  | String c s1 =>
      if Ascii.eqb c "\" then
        match s1 with
        | String x (String h (String l s')) =>
            if Ascii.eqb x "x" then
              match byte_of_hex h l, unescape s' with
              | Some b, Some bs => Some (b :: bs)
              | _, _ => None
              end
            else None
        | _ => None
        end
      else
        match unescape s1 with
        | Some bs => Some (c :: bs)
        | None => None
        end
  end.

(** The remote side: its files and the file object a snippet left open,
    with the position reached in it. *)
Record Device := mkDevice {
  files : gmap string (list ascii);
  handle : option (string * nat)
}.

(** The snippets [put] and [get] submit. *)
Inductive snippet :=
| OpenWrite (path : string)
| WriteLiteral (lit : string)
| OpenRead (path : string)
| ReadHex (n : nat)
| CloseFile.

(** Modelled from the spec: one [execute] of the Execution Engine on a
    snippet, section 4.1, returning the execution result of section 3:
    the pair of standard output and standard error, a non-empty standard
    error signalling a remote-side failure. *)
Definition execute (sn : snippet) (d : Device) : Device * (string * string) :=
  match sn with
  | OpenWrite p =>
      (mkDevice (<[p := []]> (files d)) (Some (p, 0)), ("", ""))
  | WriteLiteral lit =>
      match handle d, unescape lit with
      | Some (p, pos), Some bs =>
          match files d !! p with
          | Some old =>
              (mkDevice (<[p := (old ++ bs)%list]> (files d))
                 (Some (p, pos + length bs)), ("", ""))
          | None => (d, ("", "OSError: [Errno 2] ENOENT"))
          end
      | None, _ => (d, ("", "NameError: name 'f' isn't defined"))
      | _, None => (d, ("", "SyntaxError: invalid syntax"))
      end
  | OpenRead p =>
      match files d !! p with
      | Some _ => (mkDevice (files d) (Some (p, 0)), ("", ""))
      | None => (d, ("", "OSError: [Errno 2] ENOENT"))
      end
  | ReadHex n =>
      match handle d with
      | Some (p, pos) =>
          match files d !! p with
          | Some content =>
              let chunk := take n (drop pos content) in
              (mkDevice (files d) (Some (p, pos + length chunk)),
               (hexlify chunk, ""))
          | None => (d, ("", "OSError: [Errno 2] ENOENT"))
          end
      | None => (d, ("", "NameError: name 'f' isn't defined"))
      end
  | CloseFile => (mkDevice (files d) None, ("", ""))
  end.

Definition remote_io_error (msg : string) : exn := mkExn RemoteIOError msg.

(** A snippet whose standard error is not empty failed remotely. *)
Definition run (sn : snippet) (d : Device) : Device * outcome string :=
  let (d', r) := execute sn d in
  if (String.length (snd r) =? 0)%nat then (d', Return (fst r))
  else (d', Raise (remote_io_error (snd r))).

(** Modelled from the spec: the write loop of [put].  Section 4.2: one
    write-snippet per local chunk, in order; the loop ends when the local
    file yields no more bytes.  [fuel] bounds the number of chunks. *)
Fixpoint put_chunks (fuel c : nat) (data : list ascii) (d : Device)
  : Device * outcome unit :=
  match fuel with
  | 0 => (d, Return tt)
  | S fuel' =>
      let chunk := take c data in
      if (length chunk =? 0)%nat then (d, Return tt)
      else
        match run (WriteLiteral (escape chunk)) d with
        | (d', Return _) => put_chunks fuel' c (drop c data) d'
        | (d', Raise e) => (d', Raise e)
        end
  end.

(** Modelled from the spec: [put(local, remote?)] with chunk size [c].
    Section 4.2: opens (or creates) the remote file once, writes the
    chunks, closes the remote file after the last one.  Without a remote
    name the file keeps its local name. *)
Definition put (c : nat) (local : gmap string (list ascii)) (src : string)
    (dst : option string) (d : Device) : Device * outcome unit :=
  match local !! src with
  | None => (d, Raise (mkExn IOError ("No such file: " +:+ src)))
  | Some data =>
      match run (OpenWrite (default src dst)) d with
      | (d1, Return _) =>
          match put_chunks (S (length data)) c data d1 with
          | (d2, Return _) =>
              match run CloseFile d2 with
              | (d3, Return _) => (d3, Return tt)
              | (d3, Raise e) => (d3, Raise e)
              end
          | (d2, Raise e) => (d2, Raise e)
          end
      | (d1, Raise e) => (d1, Raise e)
      end
  end.

(** Modelled from the spec: the read loop of [get].  Section 4.2: one
    encoded chunk per round trip, decoded and appended; a short or empty
    chunk signals the end of the file.  [fuel] bounds the number of round
    trips, and running out of it is the time-out of section 4.1. *)
Fixpoint get_chunks (fuel c : nat) (d : Device) (acc : list ascii)
  : Device * outcome (list ascii) :=
  match fuel with
  | 0 => (d, Raise (mkExn PyboardError "timeout waiting for EOF"))
  | S fuel' =>
      match run (ReadHex c) d with
      | (d', Return out) =>
          match unhexlify out with
          | Some chunk =>
              if (length chunk <? c)%nat || (length chunk =? 0)%nat
              then (d', Return (acc ++ chunk)%list)
              else get_chunks fuel' c d' (acc ++ chunk)%list
          | None => (d', Raise (mkExn PyboardError "could not decode chunk"))
          end
      | (d', Raise e) => (d', Raise e)
      end
  end.

(** Modelled from the spec: [get(remote, local?)] with chunk size [c]
    and at most [fuel] round trips for the chunks; the result is the
    host's files afterwards. *)
Definition get (fuel c : nat) (d : Device) (src : string) (dst : option string)
    (local : gmap string (list ascii))
  : Device * outcome (gmap string (list ascii)) :=
  match run (OpenRead src) d with
  | (d1, Return _) =>
      match get_chunks fuel c d1 [] with
      | (d2, Return data) =>
          match run CloseFile d2 with
          | (d3, Return _) => (d3, Return (<[default src dst := data]> local))
          | (d3, Raise e) => (d3, Raise e)
          end
      | (d2, Raise e) => (d2, Raise e)
      end
  | (d1, Raise e) => (d1, Raise e)
  end.

End Transfer.

(** ** The command line and the completion of [open] *)

(** [c.isspace()] on the characters below 256: the six of ASCII, and for
    a Python 3 [str] also the four separators and the two Latin-1
    spaces. *)
Definition isspace (py3 : bool) (c : ascii) : bool :=
  let n := nat_of_ascii c in
  ((9 <=? n) && (n <=? 13))%nat || (n =? 32)%nat
  || (py3 && (((28 <=? n) && (n <=? 31))%nat || (n =? 133)%nat || (n =? 160)%nat)).

(** [s.lstrip()] and [s.strip()] *)
Fixpoint lstrip_space (py3 : bool) (s : string) : string :=
  match s with
  | EmptyString => ""
  | String c s' => if isspace py3 c then lstrip_space py3 s' else s
  end.

Definition strip_space (py3 : bool) (s : string) : string :=
  String.rev (lstrip_space py3 (String.rev (lstrip_space py3 s))).

Section Main.

Variable W : World.

(** The loop of [main] over [args.command]; [onecmd] is the dispatcher
    of [cmd.Cmd], whose result the loop drops. *)
Definition run_commands (onecmd : string -> M W bool) (command : list string)
  : M W unit :=
  for_each W (split ";" (String.concat " " command)) 0
    (fun _ cmd =>
       let scmd := strip_space (python3 W) cmd in
       if (0 <? String.length scmd)%nat && negb (String.prefix "#" scmd)
       then bind W (onecmd scmd) (fun _ => ret W tt)
       else ret W tt).

End Main.

(** [i[5:]] *)
Definition from_fifth (i : string) : string :=
  String.substring 5 (String.length i - 5) i.

(** [complete_open]; [usb] and [acm] are what [glob.glob] finds for
    ['/dev/ttyUSB*'] and ['/dev/ttyACM*'], [text] is [args[0]]. *)
Definition complete_open (usb acm : list string) (text : string) : list string :=
  map from_fifth
    (List.filter (fun i => String.prefix text (from_fifth i)) (usb ++ acm)).

(** ** More vocabulary *)

(** The commands whose handler has no statement that assigns to the shell
    object and whose File Explorer operation works in the directory the
    session is in.  [ls], [tree] and [cd] change directory and [repl]
    stores the terminal; [putr], [getr] and [rmr] hand over to the File
    Explorer's recursive walks, whose code is not among the sources at
    hand and of which the spec (section 9) says that they move the
    directory cursor, so nothing is said about them. *)
Definition stays (c : command) : bool :=
  match c with
  | c_ls | c_tree | c_cd | c_repl | c_putr | c_getr | c_rmr => false
  | _ => true
  end.

(** The most names a command takes, for the commands that parse names. *)
Definition max_names (c : command) : option nat :=
  match c with
  | c_cd | c_md | c_rm | c_rmr | c_cat | c_mpyc => Some 1
  | c_put | c_putr | c_get | c_getr => Some 2
  | _ => None
  end.

(** The world's answer to a logged call when it is a result. *)
Definition answered {W} (ev : fe_event) (f : MpFileExplorer) (d d' : Dev W)
  : Prop :=
  exists a, remote W (projT2 ev) f d = (d', Return a).

(** The commands that say nothing when their call succeeds. *)
Definition silent (c : command) : bool :=
  match c with
  | c_md | c_put | c_putr | c_mput | c_get | c_getr | c_mget | c_rm | c_rmr
  | c_mrm | c_mpyc => true
  | _ => false
  end.

(** The target [do_open] hands to [__connect]. *)
Definition target_of (W : World) (args : string) : string :=
  if String.prefix "ser:/dev/" args || String.prefix "ser:COM" args
     || String.prefix "tn:" args || String.prefix "ws:" args
  then args
  else if String.eqb (platform_system W) "Windows" then "ser:" +:+ args
       else "ser:/dev/" +:+ args.

(** What [__connect] writes before it connects. *)
Definition reset_notice (s : MpFileShell) : list string :=
  if reset s then ["Hard resetting device ..." +:+ nl] else [].

(** What [__connect] reports for an exception of one of the classes it
    names. *)
Definition connect_report (port : string) (e : exn) : string :=
  match exn_cls e with
  | PyboardError => exn_str e
  | _ => "Failed to open: " +:+ port
  end.

(** The exit character of a fresh terminal and the hint [do_repl] prints
    for an exit character. *)
Definition fresh_exit_character (W : World) : string :=
  if String.eqb (platform_system W) "Windows" then chr 17 else chr 29.

Definition exit_hint (c : string) : string :=
  (if String.eqb c (chr 17) then nl +:+ "*** Exit REPL with Ctrl+Q ***"
   else nl +:+ "*** Exit REPL with Ctrl+] ***") +:+ nl.

(** The terminal [do_repl] works with: a fresh one on first use, the one
    kept from the last use, pointed at the current connection, later. *)
Definition terminal_for (W : World) (s : MpFileShell) (f : MpFileExplorer) : Term :=
  match repl s with
  | None => mkTerm (con f) (fresh_exit_character W) true "UTF-8" "UTF-8"
  | Some t => mkTerm (con f) (exit_character t) (raw t) (rx_encoding t) (tx_encoding t)
  end.

(** [join] ended, or failed in a way [except Exception] catches. *)
Definition join_ended (W : World) (r : outcome unit) : Prop :=
  match r with
  | Return _ => True
  | Raise e => isinstance W e Exception = true
  end.

(** The command lines [main] hands to the shell. *)
Definition command_lines (py3 : bool) (command : list string) : list string :=
  List.filter
    (fun scmd => (0 <? String.length scmd)%nat && negb (String.prefix "#" scmd))
    (map (strip_space py3) (split ";" (String.concat " " command))).

(** The characters of a string. *)
Definition chars (s : string) : list ascii := String.list_ascii_of_string s.

(** A command line as [main] passes it on. *)
Definition clean (py3 : bool) (scmd : string) : Prop :=
  scmd <> "" /\
  String.prefix "#" scmd = false /\
  ~ In (";"%char) (chars scmd) /\
  (forall c, head (chars scmd) = Some c -> isspace py3 c = false) /\
  (forall c, last (chars scmd) = Some c -> isspace py3 c = false).

(** What [rec_tree] writes for the directory it lists and, under an empty
    prefix, for the file at index [i] of [n] entries. *)
Definition tree_heading (colour : bool) (prefix pwd : string) : string :=
  (if colour then
     Fore.MAGENTA +:+ (prefix +:+ default "" (last (split "/" pwd))) +:+ Fore.RESET
   else prefix +:+ default "" (last (split "/" pwd))) +:+ nl.

Definition tree_file_line (colour : bool) (n i : nat) (f : string * string)
  : string :=
  let fprefix := if (n =? i + 1)%nat then "" +:+ LAST_BRANCH else "" +:+ MID_BRANCH in
  (if colour then Fore.CYAN +:+ (fprefix +:+ fst f) +:+ Fore.RESET
   else fprefix +:+ fst f) +:+ nl.

(** A File Explorer none of whose operations raises an [IndexError], and
    a computation that raises none. *)
Definition index_safe_device (W : World) : Prop :=
  forall A (c : fe_call A) f d d' e,
    remote W c f d = (d', Raise e) -> exn_cls e <> Builtin IndexError.

Definition no_index_error {W A} (c : M W A) : Prop :=
  forall m m' e, c m = (m', Raise e) -> exn_cls e <> Builtin IndexError.

(** ** Concrete worlds and machines *)

Module Examples.

(** A tokenizer without quoting: the words between single spaces; a
    quotation mark cannot be parsed and is left over with what follows. *)
Fixpoint before_quote (s : string) : string * string :=
  match s with
  | EmptyString => ("", "")
  | String c s' =>
      if Ascii.eqb c (ascii_of_nat 34) then ("", s)
      else let (a, b) := before_quote s' in (String c a, b)
  end.

Definition words (s : string) : list Token * string :=
  let (parsed, rest) := before_quote s in
  (map mkToken (List.filter (fun w => negb (String.eqb w "")) (split " " parsed)),
   rest).

(** The built-in [int] on the version components the examples use. *)
Definition small_int (s : string) : outcome Z :=
  if String.eqb s "2" then Return 2%Z
  else if String.eqb s "3" then Return 3%Z
  else if String.eqb s "5" then Return 5%Z
  else if String.eqb s "6" then Return 6%Z
  else Raise (mkExn ValueError ("invalid literal for int() with base 10: '" +:+ s +:+ "'")).

(** What a device on which everything succeeds returns. *)
Definition succeed {A} (c : fe_call A) : A :=
  match c in fe_call T return T with
  | Close => tt
  | Pwd => "/"
  | Cd target => target
  | Ls => [("main.py", KFile); ("lib", KDir); ("boot.py", KFile)]
  | Fqn name => "/" +:+ name
  | Gets _ => "print('hello')"
  | Follow _ => (["4"], ("4", ""))
  | Md _ | Put _ _ | Putr _ _ | Mput _ _ _ | Get _ _ | Getr _ _
  | Mget _ _ _ | Rm _ | Rmr _ | Mrm _ _ | ExecRawNoFollow _
  | Teardown | Setup | MpyCross _ => tt
  end.

Definition all_succeed (A : Type) (c : fe_call A) : outcome A :=
  Return (succeed c).

(** A device on which [cd] fails with [e]. *)
Definition cd_fails (e : exn) (A : Type) (c : fe_call A) : outcome A :=
  match c as c0 in fe_call T return outcome T with
  | Cd _ => Raise e
  | c0 => Return (succeed c0)
  end.

(** A device on which [md] fails with [e]. *)
Definition md_fails (e : exn) (A : Type) (c : fe_call A) : outcome A :=
  match c as c0 in fe_call T return outcome T with
  | Md _ => Raise e
  | c0 => Return (succeed c0)
  end.

(** A device on which the executed statement ends in a traceback. *)
Definition traceback : string :=
  "Traceback (most recent call last):" +:+ nl +:+
  "ZeroDivisionError: divide by zero" +:+ nl.

Definition statement_fails (A : Type) (c : fe_call A) : outcome A :=
  match c as c0 in fe_call T return outcome T with
  | Follow _ => Return ([], ("", traceback))
  | c0 => Return (succeed c0)
  end.

(** A host with PySerial 3.5 whose link opens on every port; the device
    behind it answers as [answer] says.  [RemoteIOError] derives from
    [IOError], [PyboardError] from [BaseException] and [ConError] from
    [Exception]. *)
Definition world (py3 : bool) (system : string)
    (answer : forall A, fe_call A -> outcome A) : World :=
  mkWorld unit system py3 "3.5" small_int (fun s => Return s)
    (fun _ => "/home/user")
    IOError BaseException Exception
    words
    (fun _ port _ d => (d, Return (mkFe "/" "esp8266" port)))
    (fun A c _ d => (d, answer A c))
    (fun _ d => (d, Return tt))
    1000.

Definition linux : World := world true "Linux" all_succeed.

(** A shell without colours, with and without a session. *)
Definition closed (W : World) (d : Dev W) : Machine W :=
  mkMachine (MpFileShell_init false true false) d [] [] [].

Definition session (W : World) (d : Dev W) (pwd : string) : Machine W :=
  mkMachine
    (mkShell false true false (Some (mkFe pwd "esp8266" "ser:/dev/ttyUSB0"))
       None (prompt_for false pwd))
    d [] [] [].

(** A device without the directory asked for. *)
Definition no_such_directory : exn :=
  mkExn RemoteIOError "No such directory: nodir".

Definition without_directory : World :=
  world true "Linux" (cd_fails no_such_directory).

(** A link on which [md] times out, and a device that refuses a name. *)
Definition link_timeout : exn :=
  mkExn PyboardError "timeout waiting for first EOF reception".

Definition broken_link : World := world true "Linux" (md_fails link_timeout).

Definition invalid_name : exn :=
  mkExn RemoteIOError "Invalid directory name: x".

Definition picky_device : World := world true "Linux" (md_fails invalid_name).

(** A Python 3 and a Python 2 host in front of a device on which the
    statement fails. *)
Definition failing_statement3 : World := world true "Linux" statement_fails.

Definition failing_statement2 : World := world false "Linux" statement_fails.

(** A host with PySerial 2.6, too old for [repl]. *)
Definition old_serial : World :=
  mkWorld unit "Linux" true "2.6" small_int (fun s => Return s)
    (fun _ => "/home/user")
    IOError BaseException Exception
    words
    (fun _ port _ d => (d, Return (mkFe "/" "esp8266" port)))
    (fun A c _ d => (d, all_succeed A c))
    (fun _ d => (d, Return tt))
    1000.

End Examples.

(** More devices and hosts. *)
Module Hosts.

(** A device whose directories hold files only, and a host on which no
    port opens. *)
Definition only_files (A : Type) (c : fe_call A) : outcome A :=
  match c as c0 in fe_call T return outcome T with
  | Ls => Return [("main.py", KFile); ("boot.py", KFile)]
  | c0 => Return (Examples.succeed c0)
  end.

Definition flat : World := Examples.world true "Linux" only_files.

Definition no_such_port : exn :=
  mkExn ConError "could not open port /dev/ttyUSB0".

Definition unplugged : World :=
  mkWorld unit "Linux" true "3.5" Examples.small_int (fun s => Return s)
    (fun _ => "/home/user")
    IOError BaseException Exception
    Examples.words
    (fun _ _ _ d => (d, Raise no_such_port))
    (fun A c _ d => (d, Examples.all_succeed A c))
    (fun _ d => (d, Return tt))
    1000.

(** A device that will not close, one without the directory [nodir], and
    one whose listings cannot be read. *)
Definition close_fails (e : exn) (A : Type) (c : fe_call A) : outcome A :=
  match c as c0 in fe_call T return outcome T with
  | Close => Raise e
  | c0 => Return (Examples.succeed c0)
  end.

Definition no_answer : exn := mkExn RemoteIOError "no answer to close".

Definition clinging : World := Examples.world true "Linux" (close_fails no_answer).

Definition missing (name : string) (A : Type) (c : fe_call A) : outcome A :=
  match c as c0 in fe_call T return outcome T with
  | Cd target =>
      if String.eqb target name then Raise Examples.no_such_directory
      else Return target
  | c0 => Return (Examples.succeed c0)
  end.

Definition one_missing : World := Examples.world true "Linux" (missing "nodir").

Definition ls_fails (e : exn) (A : Type) (c : fe_call A) : outcome A :=
  match c as c0 in fe_call T return outcome T with
  | Ls => Raise e
  | c0 => Return (Examples.succeed c0)
  end.

Definition no_listing : exn := mkExn IOError "cannot list directory".

Definition unreadable : World := Examples.world true "Linux" (ls_fails no_listing).

(** A statement whose output holds a byte that is not UTF-8, on a host
    whose decoder refuses it as Python's does, with a [ValueError]. *)
Definition stray : string := String (ascii_of_nat 255) EmptyString.

Definition undecodable : exn :=
  mkExn ValueError "'utf-8' codec can't decode byte 0xff in position 0".

Definition prints_stray (A : Type) (c : fe_call A) : outcome A :=
  match c as c0 in fe_call T return outcome T with
  | Follow _ => Return (["4"; stray; "2"], ("", ""))
  | c0 => Return (Examples.succeed c0)
  end.

Definition strict_decoder : World :=
  mkWorld unit "Linux" true "3.5" Examples.small_int
    (fun s => if String.eqb s stray then Raise undecodable else Return s)
    (fun _ => "/home/user")
    IOError BaseException Exception
    Examples.words
    (fun _ port _ d => (d, Return (mkFe "/" "esp8266" port)))
    (fun A c _ d => (d, prints_stray A c))
    (fun _ d => (d, Return tt))
    1000.

(** A device with the directories [/app] and [/lib], one file in each,
    behind a link that carries five changes of directory and times out at
    the sixth; the state of the world is the number of changes made. *)
Definition two_directories (A : Type) (c : fe_call A) (f : MpFileExplorer)
    (changes : nat) : nat * outcome A :=
  match c as c0 in fe_call T return nat * outcome T with
  | Cd target =>
      if (changes <? 5)%nat then (S changes, Return target)
      else (S changes, Raise Examples.link_timeout)
  | Ls =>
      (changes,
       Return (if String.eqb (dir f) "/" then [("lib", KDir); ("app", KDir)]
               else if String.eqb (dir f) "/app" then [("a.py", KFile)]
               else [("b.py", KFile)]))
  | c0 => (changes, Return (Examples.succeed c0))
  end.

Definition nested : World :=
  mkWorld nat "Linux" true "3.5" Examples.small_int (fun s => Return s)
    (fun _ => "/home/user")
    IOError BaseException Exception
    Examples.words
    (fun _ port _ d => (d, Return (mkFe "/" "esp8266" port)))
    two_directories
    (fun _ d => (d, Return tt))
    1000.

End Hosts.

(** * Properties *)

(** ** The private methods *)

Section Primitives.

Variable W : World.
Implicit Type m : Machine W.

Lemma error_wrote (msg : string) m :
  __error W msg m = (wrote m (error_text (color (self m)) msg), Return tt).
Proof.
  unfold __error, bind, get_self, error_text.
  destruct (color (self m)); reflexivity.
Qed.

Lemma is_open_closed m :
  fe (self m) = None ->
  __is_open W m =
    (wrote m (error_text (color (self m)) "Not connected to device. Use 'open' first."),
     Return false).
Proof.
  intros Hfe. unfold __is_open, bind, get_self. rewrite Hfe.
  rewrite error_wrote. reflexivity.
Qed.

Lemma is_open_session m f :
  fe (self m) = Some f -> __is_open W m = (m, Return true).
Proof.
  intros Hfe. unfold __is_open, bind, get_self. rewrite Hfe. reflexivity.
Qed.

Lemma parse_rest args m :
  snd (tokenize W args) <> "" ->
  __parse_file_names W args m =
    (wrote m (error_text (color (self m))
                ("Invalid filename given: " +:+ snd (tokenize W args))),
     Return None).
Proof.
  intros Hrest. unfold __parse_file_names.
  destruct (tokenize W args) as [tokens rest]; simpl in *.
  apply String.eqb_neq in Hrest. rewrite Hrest. simpl.
  unfold bind. rewrite error_wrote. reflexivity.
Qed.

Lemma parse_tokens args m :
  snd (tokenize W args) = "" ->
  __parse_file_names W args m =
    (m, Return (Some (map value (fst (tokenize W args))))).
Proof.
  intros Hrest. unfold __parse_file_names.
  destruct (tokenize W args) as [tokens rest]; simpl in *.
  subst rest. reflexivity.
Qed.

Lemma length_zero (args : string) :
  (String.length args =? 0)%nat = true <-> args = "".
Proof.
  destruct args; simpl; split; intros H; try reflexivity; discriminate.
Qed.

Lemma length_nonzero (args : string) :
  args <> "" -> (String.length args =? 0)%nat = false.
Proof.
  intros H. destruct (String.length args =? 0)%nat eqn:E; [|reflexivity].
  apply length_zero in E. contradiction.
Qed.

Lemma wrote_self m s : self (wrote m s) = self m.
Proof. reflexivity. Qed.

End Primitives.

(** ** Invalid arguments *)

Section UsageErrors.

Variable W : World.
Implicit Type m : Machine W.

Lemma several_names (l : list Token) :
  1 < length l ->
  falsy (Some (map value l)) = false /\
  (1 <? list_len (Some (map value l)))%nat = true.
Proof.
  intros H. destruct l as [|a [|b l]]; simpl in H; try lia.
  split; reflexivity.
Qed.

(** C3.  For the single-path commands [cd], [md], [rm], [rmr] and [mpyc]:
    when the argument is empty, or tokenizes with a non-empty rest, or
    yields more than one token, the handler writes one error message and
    returns; the shell object, the world and the history of File Explorer
    calls are what they were, so no File Explorer operation was invoked
    and the error was detected before any round trip. *)
Theorem invalid_argument_no_round_trip c args m :
  single_path c = true ->
  args = "" \/ snd (tokenize W args) <> ""
    \/ 1 < length (fst (tokenize W args)) ->
  exists msg,
    handler W c args m = (wrote m (error_text (color (self m)) msg), Return false).
Proof.
  intros Hc Hbad.
  destruct (String.eqb_spec args "") as [->|Hne].
  { destruct c; try discriminate Hc; simpl;
      unfold do_cd, do_md, do_rm, do_rmr, do_mpyc, remove; simpl;
      unfold bind; rewrite error_wrote; eauto. }
  destruct Hbad as [Hbad|Hbad]; [contradiction|].
  assert (Hargs : (String.length args =? 0)%nat = false)
    by (apply length_nonzero; assumption).
  destruct c; try discriminate Hc; simpl;
    unfold do_cd, do_md, do_rm, do_rmr, do_mpyc, remove;
    rewrite Hargs; unfold bind at 1.
  all: try (destruct (fe (self m)) as [f|] eqn:Hfe;
            [ rewrite (is_open_session W m f Hfe)
            | rewrite (is_open_closed W m Hfe); eauto ]).
  all: unfold try_except, bind.
  all: destruct (String.eqb_spec (snd (tokenize W args)) "") as [Hrest|Hrest];
    [ rewrite (parse_tokens W args m Hrest);
      destruct Hbad as [Hbad|Hbad]; [contradiction|];
      destruct (several_names _ Hbad) as [-> ->];
      rewrite error_wrote; eauto
    | rewrite (parse_rest W args m Hrest); simpl; eauto ].
Qed.

End UsageErrors.

(** [rm a b] on an open session: two names, one message, no call. *)
Lemma invalid_argument_witness :
  single_path c_rm = true /\
  1 < length (fst (tokenize Examples.linux "a b")) /\
  exists msg,
    handler Examples.linux c_rm "a b" (Examples.session Examples.linux tt "/") =
      (wrote (Examples.session Examples.linux tt "/") (error_text false msg),
       Return false).
Proof.
  split; [reflexivity|]. split; [vm_compute; lia|].
  apply (invalid_argument_no_round_trip Examples.linux c_rm "a b"
           (Examples.session Examples.linux tt "/")).
  - reflexivity.
  - right; right. vm_compute. lia.
Defined.

(** ** [cd] *)

Section ChangeDirectory.

Variable W : World.
Implicit Type m : Machine W.

(** What [fe.cd] does on a machine with a session. *)
Lemma fe_cd_raises m f target d' e :
  fe (self m) = Some f ->
  remote W (Cd target) f (dev m) = (d', Raise e) ->
  fe_cd W target m = (called m (event (Cd target)) d', Raise e).
Proof.
  intros Hfe Hcd. unfold fe_cd, bind, fe_invoke. rewrite Hfe, Hcd. reflexivity.
Qed.

Lemma fe_cd_returns m f target d' newdir :
  fe (self m) = Some f ->
  remote W (Cd target) f (dev m) = (d', Return newdir) ->
  fe_cd W target m =
    (mkMachine
       (mkShell (color (self m)) (caching (self m)) (reset (self m))
          (Some (mkFe newdir (sysname f) (con f))) (repl (self m))
          (prompt (self m)))
       d' (stdout m) (errlog m) (calls m ++ [event (Cd target)]),
     Return tt).
Proof.
  intros Hfe Hcd. unfold fe_cd, bind, fe_invoke. rewrite Hfe, Hcd.
  unfold get_self. simpl. rewrite Hfe. reflexivity.
Qed.

(** C1.  [cd] and the tracked directory.  First part: when the remote
    [cd] fails with an [IOError] or a [RemoteIOError], the handler reports
    the error and returns with the shell object, hence the session's
    tracked directory and the prompt, exactly as before the call.  Second
    part: whatever the argument, the shell object differs after the call
    only if the remote [cd] succeeded, and then the tracked directory and
    the prompt path are the directory it returned. *)
Theorem cd_tracks_remote_success args m :
  (forall f target d' e,
      fe (self m) = Some f ->
      args <> "" ->
      snd (tokenize W args) = "" ->
      map value (fst (tokenize W args)) = [target] ->
      remote W (Cd target) f (dev m) = (d', Raise e) ->
      exn_cls e = Builtin IOError \/ exn_cls e = RemoteIOError ->
      do_cd W args m =
        (wrote (called m (event (Cd target)) d')
           (error_text (color (self m)) (exn_str e)),
         Return false)) /\
  (forall m' r,
      do_cd W args m = (m', r) ->
      self m' = self m \/
      exists f target d' newdir,
        fe (self m) = Some f /\
        remote W (Cd target) f (dev m) = (d', Return newdir) /\
        r = Return false /\
        self m' =
          mkShell (color (self m)) (caching (self m)) (reset (self m))
            (Some (mkFe newdir (sysname f) (con f))) (repl (self m))
            (prompt_for (color (self m)) newdir)).
Proof.
  split.
  - intros f target d' e Hfe Hne Hrest Htok Hcd Hcls.
    unfold do_cd. rewrite (length_nonzero _ Hne). unfold bind at 1.
    rewrite (is_open_session W m f Hfe).
    unfold try_except, bind.
    rewrite (parse_tokens W args m Hrest), Htok. simpl.
    rewrite (fe_cd_raises m f target d' e Hfe Hcd).
    cbn [dispatch]. unfold isinstance.
    destruct Hcls as [Hcls|Hcls]; rewrite Hcls; cbn [issubclass base_of].
    + change (builtin_issubclass IOError IOError) with true. cbn iota.
      unfold bind. rewrite error_wrote. reflexivity.
    + destruct (builtin_issubclass (RemoteIOError_base W) IOError);
        unfold bind; rewrite error_wrote; reflexivity.
  - intros m' r Hrun. unfold do_cd in Hrun.
    destruct (String.length args =? 0)%nat.
    { unfold bind in Hrun. rewrite error_wrote in Hrun.
      inversion Hrun; subst. left; reflexivity. }
    unfold bind at 1 in Hrun.
    destruct (fe (self m)) as [f|] eqn:Hfe.
    2:{ rewrite (is_open_closed W m Hfe) in Hrun.
        inversion Hrun; subst. left; reflexivity. }
    rewrite (is_open_session W m f Hfe) in Hrun.
    unfold try_except, bind in Hrun.
    destruct (String.eqb_spec (snd (tokenize W args)) "") as [Hrest|Hrest].
    2:{ rewrite (parse_rest W args m Hrest) in Hrun. simpl in Hrun.
        inversion Hrun; subst. left; reflexivity. }
    rewrite (parse_tokens W args m Hrest) in Hrun.
    destruct (map value (fst (tokenize W args))) as [|target [|b l]]; simpl in Hrun.
    + inversion Hrun; subst. left; reflexivity.
    + destruct (remote W (Cd target) f (dev m)) as [d' [newdir|e]] eqn:Hcd.
      * rewrite (fe_cd_returns m f target d' newdir Hfe Hcd) in Hrun.
        right. exists f, target, d', newdir.
        unfold __set_prompt_path, bind, get_self, fe_pwd, set_prompt, set_self in Hrun.
        simpl in Hrun.
        destruct (color (self m)) eqn:Hcol; simpl in Hrun;
          inversion Hrun; subst; simpl; rewrite ?Hcol; auto.
      * rewrite (fe_cd_raises m f target d' e Hfe Hcd) in Hrun.
        simpl in Hrun.
        repeat match type of Hrun with
               | (if ?b then _ else _) _ = _ => destruct b
               end;
          unfold bind, raise in Hrun; rewrite ?error_wrote in Hrun;
          inversion Hrun; subst; left; reflexivity.
    + rewrite error_wrote in Hrun. inversion Hrun; subst. left; reflexivity.
Qed.

End ChangeDirectory.

(** [cd nodir] on a device without that directory: the error is shown,
    the session stays in [/] and the prompt is the old one. *)
Lemma cd_failure_witness :
  do_cd Examples.without_directory "nodir"
    (Examples.session Examples.without_directory tt "/") =
    (mkMachine (W := Examples.without_directory)
       (mkShell false true false (Some (mkFe "/" "esp8266" "ser:/dev/ttyUSB0"))
          None "mpfs [/]> ")
       tt [error_text false "No such directory: nodir"] []
       [event (Cd "nodir")],
     Return false).
Proof.
  apply (proj1 (cd_tracks_remote_success Examples.without_directory "nodir"
                  (Examples.session Examples.without_directory tt "/"))
           (mkFe "/" "esp8266" "ser:/dev/ttyUSB0") "nodir" tt
           Examples.no_such_directory).
  - reflexivity.
  - discriminate.
  - reflexivity.
  - reflexivity.
  - reflexivity.
  - right. reflexivity.
Defined.

(** ** Commands without a session *)

Section NoSession.

Variable W : World.
Implicit Type m : Machine W.

(** C9, as amended.  With no session, every command that needs one ends
    without a File Explorer call: the shell object, the world and the call
    history are unchanged, and the only exception that can leave a handler
    is one from the PySerial version check of [repl], never one from
    dereferencing the absent session.  The message is "Not connected to
    device. Use 'open' first." for [ls], [tree] and [pwd], for the
    commands that insist on an argument when it is not empty, and for
    [repl] when the version check passes; a command that insists on an
    argument and gets none writes its "Missing argument" message
    instead, and [repl] with a PySerial older than 2.7 writes its version
    message, which ends in [serial.VERSION].  When the version check
    itself raises, on a version that [int] cannot read, the exception
    leaves [repl] and nothing is written. *)
Theorem no_session_no_remote_operation c args m :
  needs_session c = true ->
  fe (self m) = None ->
  (* nothing remote happens and the handler ends *)
  (exists m' r,
      handler W c args m = (m', r) /\
      self m' = self m /\ dev m' = dev m /\ calls m' = calls m /\
      (forall e, r = Raise e -> c = c_repl /\ serial_too_old W = Raise e)) /\
  (* the message *)
  ((takes_argument c = false \/ args <> "") ->
   (c = c_repl -> serial_too_old W = Return false) ->
   handler W c args m =
     (wrote m (error_text (color (self m)) not_connected), Return false)) /\
  (takes_argument c = true -> args = "" ->
   exists usage,
     String.prefix "Missing argument" usage = true /\
     handler W c args m =
       (wrote m (error_text (color (self m)) usage), Return false)) /\
  (* the version message of repl *)
  (c = c_repl -> serial_too_old W = Return true ->
   handler W c args m =
     (wrote m (error_text (color (self m))
                 ("REPL needs PySerial version >= 2.7, found " +:+
                  serial_VERSION W)),
      Return false)) /\
  (* a version check that raises *)
  (forall e, c = c_repl -> serial_too_old W = Raise e ->
   handler W c args m = (m, Raise e)).
Proof.
  intros Hc Hfe.
  assert (Hcases :
    (exists e, c = c_repl /\ serial_too_old W = Raise e /\
               handler W c args m = (m, Raise e)) \/
    (c = c_repl /\ serial_too_old W = Return true /\
     handler W c args m =
       (wrote m (error_text (color (self m))
                   ("REPL needs PySerial version >= 2.7, found " +:+
                    serial_VERSION W)),
        Return false)) \/
    ((c = c_repl -> serial_too_old W = Return false) /\
     (takes_argument c = false \/ args <> "") /\
     handler W c args m =
       (wrote m (error_text (color (self m)) not_connected), Return false)) \/
    (takes_argument c = true /\ args = "" /\
     exists usage,
       String.prefix "Missing argument" usage = true /\
       handler W c args m =
         (wrote m (error_text (color (self m)) usage), Return false))).
  { destruct c; try discriminate Hc; simpl handler;
      unfold do_ls, do_tree, do_pwd, do_cd, do_md, do_put, do_putr, do_get,
        do_getr, do_mput, do_mget, do_mrm, do_rm, do_rmr, do_cat, do_exec,
        do_repl, transfer, selection, remove.
    all: try (right; right; left; split; [intro Hx; discriminate Hx|];
              split; [left; reflexivity|];
              unfold bind at 1; rewrite (is_open_closed W m Hfe); reflexivity).
    all: try (destruct (String.eqb_spec args "") as [->|Hne];
      [ right; right; right; split; [reflexivity|]; split; [reflexivity|];
        simpl; unfold bind; rewrite error_wrote; eexists; split;
        [|reflexivity]; reflexivity
      | right; right; left; split; [intro Hx; discriminate Hx|];
        split; [right; assumption|];
        rewrite (length_nonzero _ Hne);
        unfold bind at 1; rewrite (is_open_closed W m Hfe); reflexivity ]).
    destruct (serial_too_old W) as [[|]|e] eqn:Hver.
    - right; left. split; [reflexivity|]. split; [reflexivity|].
      unfold bind at 1, lift. cbn iota beta. unfold bind. rewrite error_wrote.
      reflexivity.
    - right; right; left. split; [reflexivity|]. split; [left; reflexivity|].
      unfold bind at 1, lift. cbn iota beta. unfold bind at 1.
      rewrite (is_open_closed W m Hfe). reflexivity.
    - left. exists e. repeat split. }
  split; [|split; [|split; [|split]]].
  - destruct Hcases as [(e & -> & Hv & Hrun)|[(-> & Hv & Hrun)|
      [(Hv & Harg & Hrun)|(Ht & -> & usage & Hp & Hrun)]]];
      rewrite Hrun; eexists _, _; repeat split; intros; try discriminate.
    congruence.
  - intros Harg Hv.
    destruct Hcases as [(e & -> & Hv' & Hrun)|[(-> & Hv' & Hrun)|
      [(_ & _ & Hrun)|(Ht & -> & usage & Hp & Hrun)]]]; auto.
    + rewrite Hv in Hv' by reflexivity. discriminate.
    + rewrite Hv in Hv' by reflexivity. discriminate.
    + destruct Harg as [Harg|Harg]; [congruence|contradiction].
  - intros Ht ->.
    destruct Hcases as [(e & -> & Hv' & Hrun)|[(-> & Hv' & Hrun)|
      [(_ & Harg & Hrun)|(_ & _ & usage & Hp & Hrun)]]]; try discriminate Ht.
    + destruct Harg as [Harg|Harg]; [congruence|contradiction].
    + eauto.
  - intros -> Hold.
    destruct Hcases as [(e & _ & Hv' & _)|[(_ & _ & Hrun)|
      [(Hv' & _ & _)|(Ht & _)]]].
    + rewrite Hold in Hv'. discriminate.
    + exact Hrun.
    + rewrite Hv' in Hold by reflexivity. discriminate.
    + discriminate Ht.
  - intros e -> Hraise.
    destruct Hcases as [(e' & _ & Hv' & Hrun)|[(_ & Hv' & _)|
      [(Hv' & _ & _)|(Ht & _)]]].
    + rewrite Hraise in Hv'. inversion Hv'; subst. exact Hrun.
    + rewrite Hraise in Hv'. discriminate.
    + rewrite Hv' in Hraise by reflexivity. discriminate.
    + discriminate Ht.
Qed.

End NoSession.

(** [get a.txt] without a session, and [repl] without a session on a
    host with PySerial 2.6. *)
Lemma no_session_witness :
  handler Examples.linux c_get "a.txt" (Examples.closed Examples.linux tt) =
    (wrote (Examples.closed Examples.linux tt) (error_text false not_connected),
     Return false) /\
  handler Examples.old_serial c_repl "" (Examples.closed Examples.old_serial tt) =
    (wrote (Examples.closed Examples.old_serial tt)
       (error_text false "REPL needs PySerial version >= 2.7, found 2.6"),
     Return false).
Proof.
  split.
  - apply (proj1 (proj2 (no_session_no_remote_operation Examples.linux c_get
                           "a.txt" (Examples.closed Examples.linux tt)
                           eq_refl eq_refl))).
    + right. discriminate.
    + intros H. discriminate H.
  - apply (proj1 (proj2 (proj2 (proj2 (no_session_no_remote_operation
                                         Examples.old_serial c_repl ""
                                         (Examples.closed Examples.old_serial tt)
                                         eq_refl eq_refl))))).
    + reflexivity.
    + reflexivity.
Defined.

(** C9, as stated, fails: [cd] without an argument and without a session
    answers with its usage message, not with the not-connected one. *)
Lemma cd_without_argument_reports_usage :
  needs_session c_cd = true /\
  fe (self (Examples.closed Examples.linux tt)) = None /\
  handler Examples.linux c_cd "" (Examples.closed Examples.linux tt) =
    (wrote (Examples.closed Examples.linux tt)
       (error_text false "Missing argument: <REMOTE DIR>"),
     Return false) /\
  error_text false "Missing argument: <REMOTE DIR>" <>
    error_text false not_connected.
Proof.
  repeat split. intros H. discriminate H.
Qed.

(** ** Errors of the File Explorer inside a [try] block *)

Section GuardedCalls.

Variable W : World.
Implicit Type m : Machine W.

Lemma fe_invoke_raises {A} (c : fe_call A) m f d' e :
  fe (self m) = Some f ->
  remote W c f (dev m) = (d', Raise e) ->
  fe_invoke W c m = (called m (event c) d', Raise e).
Proof.
  intros Hfe Hc. unfold fe_invoke. rewrite Hfe, Hc. reflexivity.
Qed.

Lemma failure_raises {A} (c : fe_call A) f (d d' : Dev W) e :
  failure (event c) f d = (d', Some e) ->
  remote W c f d = (d', Raise e).
Proof.
  unfold failure. simpl. destruct (remote W c f d) as [d1 [a|e1]]; intros H;
    inversion H; reflexivity.
Qed.

Lemma one_name_inv {A} (op : string -> fe_call A) names ev :
  one_name op names = Some ev -> exists a, names = [a] /\ ev = event (op a).
Proof.
  destruct names as [|a [|b l]]; simpl; intros H; inversion H; eauto.
Qed.

Lemma one_or_two_names_inv op names ev :
  one_or_two_names op names = Some ev ->
  exists a dst, (names = [a] /\ dst = None \/ exists b, names = [a; b] /\ dst = Some b)
                /\ ev = event (op a dst).
Proof.
  destruct names as [|a [|b [|c l]]]; simpl; intros H; inversion H; eauto 8.
Qed.

Lemma guarded_call_outcome c args m f ev d' e :
  fe (self m) = Some f ->
  delegated c args m = Some ev ->
  failure ev f (dev m) = (d', Some e) ->
  exists msg,
    handler W c args m =
      if existsb (isinstance W e) (caught c)
      then (wrote (called m ev d') (error_text (color (self m)) msg), Return false)
      else (called m ev d', Raise e).
Proof.
  intros Hfe Hdel Hfail.
  unfold delegated in Hdel.
  destruct (String.eqb_spec args "") as [|Hne]; [discriminate Hdel|].
  assert (Hargs := length_nonzero _ Hne).
  destruct c; try discriminate Hdel; simpl handler;
    unfold do_cd, do_md, do_put, do_putr, do_get, do_getr, do_mput, do_mget,
      do_mrm, do_rm, do_rmr, do_cat, do_mpyc, transfer, selection, remove;
    rewrite Hargs; unfold bind at 1; rewrite ?(is_open_session W m f Hfe).
  all: try (destruct (String.eqb_spec (snd (tokenize W args)) "") as [Hrest|Hrest];
            [simpl in Hdel|discriminate Hdel]).
  all: try (apply one_name_inv in Hdel; destruct Hdel as (a & Hnames & ->)).
  all: try (apply one_or_two_names_inv in Hdel;
            destruct Hdel as (a & dst & Hnames & ->)).
  all: try (inversion Hdel; subst ev; clear Hdel).
  all: apply failure_raises in Hfail.
  all: unfold try_except; unfold bind at 1;
    rewrite ?(parse_tokens W args m Hrest).
  all: try rewrite Hnames.
  all: try (destruct Hnames as [[Hn ->]|(b & Hn & ->)]; rewrite Hn).
  all: unfold fe_cd, second_arg, arg, bind, lift, ret, fe_invoke;
    cbn -[__error isinstance error_text remote wrote called];
    rewrite Hfe, Hfail;
    cbn -[__error isinstance error_text remote wrote called].
  all: repeat match goal with
         | |- context [isinstance W ?e ?c] =>
             let E := fresh "E" in
             destruct (isinstance W e c) eqn:E
         end;
    cbn -[__error isinstance error_text remote wrote called];
    unfold raise, fe_attr, get_self, bind, ret;
    cbn -[__error isinstance error_text remote wrote called];
    rewrite ?Hfe, ?error_wrote; eauto.
Qed.

(** C7, as amended.  For [cd], [md], [put], [putr], [mput], [get],
    [getr], [mget], [rm], [rmr], [mrm], [cat] and [mpyc] on an open
    session and an argument that parses: when the File Explorer call of
    the command raises [e], the handler writes one message and returns if
    [e] is an instance of a class its [except] clauses name ([IOError];
    for [cd] also [RemoteIOError]; for [rm] and [rmr] also
    [PyboardError]), and otherwise [e] leaves the handler. *)
Theorem guarded_errors_are_reported c args m f ev d' e :
  fe (self m) = Some f ->
  delegated c args m = Some ev ->
  failure ev f (dev m) = (d', Some e) ->
  (existsb (isinstance W e) (caught c) = true ->
   exists msg,
     handler W c args m =
       (wrote (called m ev d') (error_text (color (self m)) msg), Return false)) /\
  (existsb (isinstance W e) (caught c) = false ->
   handler W c args m = (called m ev d', Raise e)).
Proof.
  intros Hfe Hdel Hfail.
  destruct (guarded_call_outcome c args m f ev d' e Hfe Hdel Hfail) as [msg Hrun].
  split; intros Hc; rewrite Hc in Hrun; eauto.
Qed.

End GuardedCalls.

(** [md x] on a device that refuses the name: [RemoteIOError] derives
    from [IOError] there, and is reported. *)
Lemma guarded_error_witness :
  exists msg,
    handler Examples.picky_device c_md "x"
      (Examples.session Examples.picky_device tt "/") =
      (wrote (called (Examples.session Examples.picky_device tt "/")
                (event (Md "x")) tt)
         (error_text false msg),
       Return false).
Proof.
  apply (proj1 (guarded_errors_are_reported Examples.picky_device c_md "x"
                  (Examples.session Examples.picky_device tt "/")
                  (mkFe "/" "esp8266" "ser:/dev/ttyUSB0") (event (Md "x")) tt
                  Examples.invalid_name eq_refl eq_refl eq_refl)).
  reflexivity.
Defined.

(** C7, as stated, fails.  A [PyboardError] from [md] leaves [do_md],
    whose only clause names [IOError]; and [do_tree] calls [cd] outside
    any [try], so even a [RemoteIOError] that derives from [IOError]
    leaves it. *)
Lemma errors_escape_md_and_tree :
  handler Examples.broken_link c_md "x"
    (Examples.session Examples.broken_link tt "/") =
    (called (Examples.session Examples.broken_link tt "/") (event (Md "x")) tt,
     Raise Examples.link_timeout) /\
  snd (handler Examples.without_directory c_tree "nodir"
         (Examples.session Examples.without_directory tt "/")) =
    Raise Examples.no_such_directory.
Proof.
  split; reflexivity.
Qed.

(** ** [ls] and the current directory *)

Section Listing.

Variable W : World.
Implicit Type m : Machine W.

Lemma keeps_ret {A} (a : A) : keeps_self (ret W a).
Proof. intros m m' r H. inversion H. reflexivity. Qed.

Lemma keeps_raise {A} e : keeps_self (@raise W A e).
Proof. intros m m' r H. inversion H. reflexivity. Qed.

Lemma keeps_bind {A B} (c : M W A) (k : A -> M W B) :
  keeps_self c -> (forall a, keeps_self (k a)) -> keeps_self (bind W c k).
Proof.
  intros Hc Hk m m' r H. unfold bind in H.
  destruct (c m) as [m1 [a|e]] eqn:E.
  - rewrite (Hk a m1 m' r H). eapply Hc; eassumption.
  - inversion H; subst. eapply Hc; eassumption.
Qed.

Lemma keeps_dispatch {A} (hs : list (exn_class * (exn -> M W A))) e :
  Forall (fun h => forall e', keeps_self (snd h e')) hs ->
  keeps_self (dispatch W hs e).
Proof.
  induction 1 as [|[c h] hs Hh _ IH]; simpl.
  - apply keeps_raise.
  - destruct (isinstance W e c); [apply Hh | apply IH].
Qed.

Lemma keeps_try {A} (body : M W A) hs :
  keeps_self body ->
  Forall (fun h => forall e', keeps_self (snd h e')) hs ->
  keeps_self (try_except W body hs).
Proof.
  intros Hb Hh m m' r H. unfold try_except in H.
  destruct (body m) as [m1 [a|e]] eqn:E.
  - inversion H; subst. eapply Hb; eassumption.
  - rewrite (keeps_dispatch hs e Hh m1 m' r H). eapply Hb; eassumption.
Qed.

Lemma keeps_write s : keeps_self (write W s).
Proof. intros m m' r H. inversion H. reflexivity. Qed.

Lemma keeps_print s : keeps_self (print W s).
Proof. apply keeps_write. Qed.

Lemma keeps_error (msg : string) : keeps_self (__error W msg).
Proof. intros m m' r H. rewrite error_wrote in H. inversion H. reflexivity. Qed.

Lemma keeps_invoke {A} (c : fe_call A) : keeps_self (fe_invoke W c).
Proof.
  intros m m' r H. unfold fe_invoke in H.
  destruct (fe (self m)); [destruct (remote W c _ (dev m))|];
    inversion H; reflexivity.
Qed.

Lemma keeps_pwd : keeps_self (fe_pwd W).
Proof.
  intros m m' r H. unfold fe_pwd in H.
  destruct (fe (self m)); inversion H; reflexivity.
Qed.

Lemma keeps_ls : keeps_self (fe_ls W).
Proof.
  apply keeps_bind; [apply keeps_invoke | intros; apply keeps_ret].
Qed.

Lemma keeps_for_each {A} (l : list A) i (body : nat -> A -> M W unit) :
  (forall i x, keeps_self (body i x)) -> keeps_self (for_each W l i body).
Proof.
  intros Hb. revert i. induction l as [|x l IH]; intros i; simpl.
  - apply keeps_ret.
  - apply keeps_bind; [apply Hb | intros; apply IH].
Qed.

Lemma keeps_print_entry elem type : keeps_self (print_entry W elem type).
Proof.
  intros m m' r H. unfold print_entry, bind, get_self in H.
  destruct (type =? "F")%string, (color (self m)); inversion H; reflexivity.
Qed.

Lemma moved_back s f : fe s = Some f -> moved s (dir f) = s.
Proof. intros H. destruct s, f; simpl in *. subst. reflexivity. Qed.

Lemma moved_moved s d d' : moved (moved s d) d' = moved s d'.
Proof. destruct s as [? ? ? [f|] ? ?]; reflexivity. Qed.

(** [fe.cd]: the session moves to where the world says, or stays. *)
Lemma fe_cd_moves target m m' r :
  fe_cd W target m = (m', r) ->
  (r = Return tt /\ exists f d' newdir,
      fe (self m) = Some f /\
      remote W (Cd target) f (dev m) = (d', Return newdir) /\
      self m' = moved (self m) newdir) \/
  ((exists e, r = Raise e) /\ self m' = self m).
Proof.
  intros H. unfold fe_cd, bind, fe_invoke in H.
  destruct (fe (self m)) as [f|] eqn:Hfe.
  - destruct (remote W (Cd target) f (dev m)) as [d' [newdir|e]] eqn:Hcd.
    + unfold get_self, set_fe, bind, get_self, set_self in H. simpl in H.
      rewrite Hfe in H. inversion H; subst. left. split; [reflexivity|].
      exists f, d', newdir. repeat split; auto.
      simpl. unfold moved. rewrite Hfe. reflexivity.
    + inversion H; subst. right. split; eauto.
  - inversion H; subst. right. split; eauto.
Qed.

Lemma same_is_moved s : exists x, s = moved s x.
Proof.
  destruct (fe s) as [f|] eqn:Hfe.
  - exists (dir f). symmetry. apply moved_back. assumption.
  - exists "". destruct s; simpl in *; subst; reflexivity.
Qed.

Lemma keeps_travels {A} (c : M W A) : keeps_self c -> travels c.
Proof.
  intros Hc m m' r H. rewrite (Hc m m' r H). apply same_is_moved.
Qed.

Lemma travels_cd target : travels (fe_cd W target).
Proof.
  intros m m' r H.
  destruct (fe_cd_moves target m m' r H)
    as [(_ & f & d' & newdir & _ & _ & E)|(_ & E)].
  - eauto.
  - rewrite E. apply same_is_moved.
Qed.

Lemma travels_bind {A B} (c : M W A) (k : A -> M W B) :
  travels c -> (forall a, travels (k a)) -> travels (bind W c k).
Proof.
  intros Hc Hk m m' r H. unfold bind in H.
  destruct (c m) as [m1 [a|e]] eqn:E.
  - destruct (Hc m m1 _ E) as [x Hx]. destruct (Hk a m1 m' r H) as [y Hy].
    exists y. rewrite Hy, Hx. apply moved_moved.
  - inversion H; subst. eapply Hc; eassumption.
Qed.

Lemma travels_try {A} (body : M W A) hs :
  travels body ->
  Forall (fun h => forall e', keeps_self (snd h e')) hs ->
  travels (try_except W body hs).
Proof.
  intros Hb Hh m m' r H. unfold try_except in H.
  destruct (body m) as [m1 [a|e]] eqn:E.
  - inversion H; subst. eapply Hb; eassumption.
  - rewrite (keeps_dispatch hs e Hh m1 m' r H). eapply Hb; eassumption.
Qed.

(** What [do_ls] does after the optional [cd]. *)
Lemma keeps_listing :
  keeps_self
    (bind W (fe_ls W) (fun files =>
     bind W (fe_pwd W) (fun pwd =>
     bind W (fe_pwd W) (fun pwd0 =>
     bind W (print W (nl +:+ "Remote files in '" +:+ pwd0 +:+ "':" +:+ nl)) (fun _ =>
     bind W (for_each W
               (display_order
                  (if negb (pwd =? "/")%string then ("..", "D") :: files else files))
               0 (fun _ f => print_entry W (fst f) (snd f))) (fun _ =>
     print W "")))))).
Proof.
  apply keeps_bind; [apply keeps_ls|intros files].
  apply keeps_bind; [apply keeps_pwd|intros pwd].
  apply keeps_bind; [apply keeps_pwd|intros pwd0].
  apply keeps_bind; [apply keeps_print|intros _].
  apply keeps_bind; [|intros _; apply keeps_print].
  apply keeps_for_each. intros i x. apply keeps_print_entry.
Qed.

(** C4.  When [do_ls] returns, the shell object is the one before the
    call: the session tracks the directory it tracked, whether or not a
    directory was given and whether the change of directory or the
    listing failed with an [IOError].  The hypothesis is the File
    Explorer's: a successful [cd] to the directory [pwd()] gave ends in
    that directory. *)
Theorem ls_restores_directory directory m m' r :
  (forall olddir f d d' p,
      tracked_dir m = Some olddir ->
      remote W (Cd olddir) f d = (d', Return p) -> p = olddir) ->
  do_ls W directory m = (m', Return r) ->
  self m' = self m /\ tracked_dir m' = tracked_dir m.
Proof.
  intros Hback Hrun.
  cut (self m' = self m).
  { intros E. split; [assumption|]. unfold tracked_dir. rewrite E. reflexivity. }
  unfold do_ls in Hrun. unfold bind at 1 in Hrun.
  destruct (fe (self m)) as [f|] eqn:Hfe.
  2:{ rewrite (is_open_closed W m Hfe) in Hrun. inversion Hrun. reflexivity. }
  rewrite (is_open_session W m f Hfe) in Hrun.
  unfold bind at 1 in Hrun. unfold fe_pwd at 1 in Hrun. rewrite Hfe in Hrun.
  set (m0 := mkMachine (self m) (dev m) (stdout m) (errlog m)
               (calls m ++ [event Pwd])) in Hrun.
  unfold bind at 1 in Hrun.
  match type of Hrun with
  | context [try_except W ?b ?h m0] =>
      destruct (try_except W b h m0) as [m1 [[]|e1]] eqn:Htry
  end; [|discriminate Hrun].
  assert (Hhandlers :
    Forall (fun h : exn_class * (exn -> M W unit) =>
              forall e', keeps_self (snd h e'))
      [(Builtin IOError, fun e : exn => __error W (exn_str e))]).
  { constructor; [|constructor]. intros e'. apply keeps_error. }
  destruct (String.length directory =? 0)%nat eqn:Hdir; simpl in Hrun, Htry.
  - (* no change of directory at all *)
    inversion Hrun; subst.
    apply (keeps_try _ _
             (keeps_bind _ _ (keeps_ret tt) (fun _ => keeps_listing))
             Hhandlers) in Htry.
    exact Htry.
  - (* there and back *)
    apply (travels_try _ _
             (travels_bind _ _ (travels_cd directory)
                (fun _ => keeps_travels _ keeps_listing))
             Hhandlers) in Htry.
    destruct Htry as [x Hx]. simpl in Hx.
    unfold bind in Hrun.
    destruct (fe_cd W (dir f) m1) as [m2 [[]|e2]] eqn:Hcd; [|discriminate Hrun].
    inversion Hrun; subst.
    destruct (fe_cd_moves _ _ _ _ Hcd)
      as [(_ & f1 & d' & newdir & Hf1 & Hremote & E)|((e & He) & _)];
      [|discriminate He].
    assert (newdir = dir f).
    { apply (Hback (dir f) f1 (dev m1) d' newdir); [|assumption].
      unfold tracked_dir. rewrite Hfe. reflexivity. }
    subst newdir. rewrite E, Hx, moved_moved. apply moved_back. assumption.
Qed.

End Listing.

(** [ls lib] from [/]: there and back. *)
Lemma ls_restores_witness :
  tracked_dir (fst (do_ls Examples.linux "lib"
                      (Examples.session Examples.linux tt "/"))) =
  tracked_dir (Examples.session Examples.linux tt "/").
Proof.
  refine (proj2 (ls_restores_directory Examples.linux "lib"
                   (Examples.session Examples.linux tt "/")
                   (fst (do_ls Examples.linux "lib"
                           (Examples.session Examples.linux tt "/")))
                   false _ _)).
  - intros olddir f d d' p _ H. vm_compute in H. congruence.
  - vm_compute. reflexivity.
Defined.

(** ** The order of a listing *)

(** The order of Python on [str]: lexicographic on the characters. *)
Lemma ascii_compare_N (x y : ascii) :
  Ascii.compare x y = N.compare (N_of_ascii x) (N_of_ascii y).
Proof. reflexivity. Qed.

Lemma string_leb_trans (a b c : string) :
  String.leb a b = true -> String.leb b c = true -> String.leb a c = true.
Proof.
  unfold String.leb. revert b c.
  induction a as [|x a IH]; intros [|y b] [|z c]; simpl; try congruence.
  rewrite !ascii_compare_N.
  destruct (N.compare_spec (N_of_ascii x) (N_of_ascii y)) as [Hxy|Hxy|Hxy];
    destruct (N.compare_spec (N_of_ascii y) (N_of_ascii z)) as [Hyz|Hyz|Hyz];
    destruct (N.compare_spec (N_of_ascii x) (N_of_ascii z)) as [Hxz|Hxz|Hxz];
    try congruence; try lia; try apply IH.
Qed.

Lemma string_ltb_leb (a b : string) :
  String.ltb a b = true -> String.leb a b = true.
Proof.
  unfold String.ltb, String.leb. destruct (String.compare a b); congruence.
Qed.

Lemma string_not_ltb (a b : string) :
  String.ltb b a = false -> String.leb a b = true.
Proof.
  unfold String.ltb, String.leb. rewrite (String.compare_antisym a b).
  destruct (String.compare b a); simpl; congruence.
Qed.

Lemma string_leb_cases (a b : string) :
  String.leb a b = true -> String.ltb a b = true \/ a = b.
Proof.
  unfold String.ltb, String.leb.
  destruct (String.compare a b) eqn:E; try congruence; auto.
  right. apply String.compare_eq_iff. assumption.
Qed.

Section StableSort.

Context {A : Type} (key : A -> string) (R : A -> A -> Prop).

Local Abbreviation by_key_then := (by_key_then key R).

Lemma string_leb_refl (a : string) : String.leb a a = true.
Proof.
  destruct (String.leb_total a a); assumption.
Qed.

Lemma by_key_leb a b : by_key_then a b -> String.leb (key a) (key b) = true.
Proof.
  intros [H|[H _]]; [apply string_ltb_leb; assumption|].
  rewrite H. apply string_leb_refl.
Qed.

Lemma insert_by_perm x l : Permutation (insert_by key x l) (x :: l).
Proof.
  induction l as [|y l IH]; simpl; [reflexivity|].
  destruct (String.ltb (key y) (key x)); [|reflexivity].
  rewrite IH. apply perm_swap.
Qed.

Lemma sorted_perm l : Permutation (sorted key l) l.
Proof.
  induction l as [|x l IH]; simpl; [reflexivity|].
  rewrite insert_by_perm. constructor. assumption.
Qed.

Lemma insert_by_sorted x l :
  StronglySorted by_key_then l ->
  Forall (R x) l ->
  StronglySorted by_key_then (insert_by key x l).
Proof.
  induction 1 as [|y l Hl IH Hy]; intros Hx; simpl.
  - repeat constructor.
  - inversion Hx as [|? ? Hxy Hxl]; subst.
    destruct (String.ltb (key y) (key x)) eqn:E.
    + constructor; [apply IH; assumption|].
      rewrite insert_by_perm. constructor; [left; assumption|assumption].
    + constructor; [constructor; assumption|].
      assert (Hle : String.leb (key x) (key y) = true)
        by (apply string_not_ltb; assumption).
      assert (Hall : forall z, R x z -> String.leb (key y) (key z) = true ->
                               by_key_then x z).
      { intros z Hxz Hyz.
        destruct (string_leb_cases _ _ (string_leb_trans _ _ _ Hle Hyz))
          as [Hlt|Heq]; [left; assumption|right; split; assumption]. }
      constructor.
      * apply Hall; [assumption|apply string_leb_refl].
      * rewrite Forall_forall in *. intros z Hz.
        apply Hall; [apply Hxl; assumption|].
        apply by_key_leb. apply Hy. assumption.
Qed.

(** Sorting by [key] a list in the order [R] keeps [R] among equal keys. *)
Lemma sorted_stable l :
  StronglySorted R l -> StronglySorted by_key_then (sorted key l).
Proof.
  induction 1 as [|x l Hl IH Hx]; simpl; [constructor|].
  apply insert_by_sorted; [assumption|].
  rewrite sorted_perm. assumption.
Qed.

End StableSort.

Lemma strongly_sorted_weaken {A} (R R' : A -> A -> Prop) (P : A -> Prop) l :
  (forall a b, P a -> P b -> R a b -> R' a b) ->
  Forall P l -> StronglySorted R l -> StronglySorted R' l.
Proof.
  intros HR HP. induction 1 as [|x l Hl IH Hx]; [constructor|].
  inversion HP; subst. constructor; [apply IH; assumption|].
  rewrite Forall_forall in *. intros z Hz. apply HR; auto.
Qed.

Lemma any_order_sorted {A} (l : list A) : StronglySorted (fun _ _ => True) l.
Proof.
  induction l; constructor; [assumption|]. apply Forall_forall. auto.
Qed.

Lemma display_order_perm files : Permutation (display_order files) files.
Proof.
  unfold display_order. rewrite !sorted_perm. reflexivity.
Qed.

Lemma display_order_sorted files :
  Forall (fun f => snd f = "D" \/ snd f = "F") files ->
  StronglySorted listed_before (display_order files).
Proof.
  intros Hkinds. unfold display_order.
  apply (strongly_sorted_weaken
           (by_key_then snd (by_key_then fst (fun _ _ => True)))
           listed_before
           (fun f => snd f = "D" \/ snd f = "F")).
  - intros a b Ha Hb [Hlt|[Heq Hname]].
    + left. destruct Ha as [Ha|Ha], Hb as [Hb|Hb]; rewrite Ha, Hb in *;
        try discriminate Hlt; auto.
    + right. split; [assumption|]. apply (by_key_leb fst _ _ _ Hname).
  - rewrite !sorted_perm. assumption.
  - apply sorted_stable. apply sorted_stable. apply any_order_sorted.
Qed.

Section ListingOutput.
Variable W : World.
Implicit Type m : Machine W.

Lemma for_each_entries (l : list (string * string)) i m :
  for_each W l i (fun _ f => print_entry W (fst f) (snd f)) m =
    (mkMachine (self m) (dev m)
       (stdout m ++ map (entry_line (color (self m))) l) (errlog m) (calls m),
     Return tt).
Proof.
  revert i m. induction l as [|f l IH]; intros i m; simpl.
  - rewrite app_nil_r. destruct m; reflexivity.
  - unfold bind. unfold print_entry at 1, bind, get_self, entry_line.
    destruct (String.eqb (snd f) "F"), (color (self m)) eqn:Hc;
      unfold print, write; rewrite IH; simpl; rewrite Hc, <- app_assoc;
      reflexivity.
Qed.

Lemma fe_cd_stdout target m : stdout (fst (fe_cd W target m)) = stdout m.
Proof.
  unfold fe_cd, bind, fe_invoke.
  destruct (fe (self m)) as [f|] eqn:Hfe; [|reflexivity].
  destruct (remote W (Cd target) f (dev m)) as [d [x|e]]; [|reflexivity].
  unfold get_self, set_fe, bind, get_self, set_self. simpl. rewrite Hfe.
  reflexivity.
Qed.

(** The listing proper, once the session is in the directory to list. *)
Lemma listing_written m f d2 listing :
  fe (self m) = Some f ->
  remote W Ls f (dev m) = (d2, Return listing) ->
  bind W (fe_ls W) (fun files =>
  bind W (fe_pwd W) (fun pwd =>
  bind W (fe_pwd W) (fun pwd0 =>
  bind W (print W (nl +:+ "Remote files in '" +:+ pwd0 +:+ "':" +:+ nl)) (fun _ =>
  bind W (for_each W
            (display_order
               (if negb (pwd =? "/")%string then ("..", "D") :: files else files))
            0 (fun _ f => print_entry W (fst f) (snd f))) (fun _ =>
  print W ""))))) m =
  (mkMachine (self m) d2
     (stdout m ++ [listing_header (dir f)]
        ++ map (entry_line (color (self m)))
             (display_order (with_parent (dir f) (coded listing)))
        ++ [nl])
     (errlog m)
     (calls m ++ [event Ls] ++ [event Pwd] ++ [event Pwd]),
   Return tt).
Proof.
  intros Hfe Hls.
  unfold bind at 1. unfold fe_ls, bind at 1, fe_invoke. rewrite Hfe, Hls.
  unfold ret at 1.
  unfold bind at 1. unfold fe_pwd at 1. cbn [self]. rewrite Hfe.
  unfold bind at 1. unfold fe_pwd at 1. cbn [self]. rewrite Hfe.
  unfold bind at 1. unfold print at 1, write at 1.
  unfold bind at 1. rewrite for_each_entries.
  unfold print, write. cbn [self dev stdout errlog calls].
  unfold with_parent, coded, listing_header.
  rewrite <- !app_assoc. reflexivity.
Qed.

(** C10.  What [do_ls] displays when the change of directory (if one is
    asked for) and the listing succeed: the heading, then one line per
    entry, then an empty line.  Outside the root the entry [("..", "D")]
    is added to the listing; the entries shown are a permutation of the
    entries, and every entry shown earlier is listed before every later
    one: directories before files, and by name within each kind. *)
Theorem ls_lists_directories_first directory m f d1 pwd d2 listing :
  fe (self m) = Some f ->
  (if (String.length directory =? 0)%nat then (d1, pwd) = (dev m, dir f)
   else remote W (Cd directory) f (dev m) = (d1, Return pwd)) ->
  remote W Ls (mkFe pwd (sysname f) (con f)) d1 = (d2, Return listing) ->
  let entries := with_parent pwd (coded listing) in
  let shown := display_order entries in
  stdout (fst (do_ls W directory m)) =
    (stdout m ++ [listing_header pwd]
       ++ map (entry_line (color (self m))) shown ++ [nl])%list
  /\ (pwd <> "/" -> In ("..", "D") entries)
  /\ Permutation shown entries
  /\ StronglySorted listed_before shown.
Proof.
  intros Hfe Hcd Hls entries shown. split; [|split; [|split]].
  - unfold do_ls. unfold bind at 1. rewrite (is_open_session W m f Hfe).
    unfold bind at 1. unfold fe_pwd at 1. rewrite Hfe.
    unfold bind at 1. unfold try_except. unfold bind at 1.
    destruct (String.length directory =? 0)%nat eqn:Hdir; cbn [negb].
    + inversion Hcd; subst d1 pwd. unfold ret at 1.
      assert (Hf : mkFe (dir f) (sysname f) (con f) = f) by (destruct f; reflexivity).
      rewrite Hf in Hls.
      cbn beta iota.
      rewrite (listing_written
                 (mkMachine (self m) (dev m) (stdout m) (errlog m)
                    (calls m ++ [event Pwd])) f d2 listing Hfe Hls).
      reflexivity.
    + rewrite (fe_cd_returns W
                 (mkMachine (self m) (dev m) (stdout m) (errlog m)
                    (calls m ++ [event Pwd])) f directory d1 pwd Hfe Hcd).
      cbn beta iota. cbn [self dev stdout errlog calls].
      rewrite (listing_written
                 (mkMachine
                    (mkShell (color (self m)) (caching (self m)) (reset (self m))
                       (Some (mkFe pwd (sysname f) (con f))) (repl (self m))
                       (prompt (self m)))
                    d1 (stdout m) (errlog m)
                    ((calls m ++ [event Pwd]) ++ [event (Cd directory)]))
                 (mkFe pwd (sysname f) (con f)) d2 listing eq_refl Hls).
      cbn [self dev stdout errlog calls color dir].
      unfold bind.
      match goal with
      | |- context [fe_cd W ?t ?m2] =>
          pose proof (fe_cd_stdout t m2) as Hout;
          destruct (fe_cd W t m2) as [m3 [[]|e3]]
      end; simpl in Hout |- *; rewrite Hout; reflexivity.
  - intros Hpwd. unfold entries, with_parent.
    destruct (String.eqb_spec pwd "/") as [->|_]; [contradiction|].
    left. reflexivity.
  - apply display_order_perm.
  - apply display_order_sorted. unfold entries, with_parent, coded.
    assert (Hcoded : Forall (fun f0 : string * string => snd f0 = "D" \/ snd f0 = "F")
                       (map (fun e => (fst e, kind_code (snd e))) listing)).
    { apply Forall_forall. intros x Hx. apply list_elem_of_In, in_map_iff in Hx.
      destruct Hx as ([n k] & <- & _). destruct k; simpl; auto. }
    destruct (negb (String.eqb pwd "/")); [constructor; auto|assumption].
Qed.
End ListingOutput.

(** [ls lib] from [/] on the example device. *)
Lemma ls_listing_witness :
  stdout (fst (do_ls Examples.linux "lib"
                 (Examples.session Examples.linux tt "/"))) =
    ([] ++ [listing_header "lib"]
       ++ map (entry_line false)
            (display_order
               (with_parent "lib"
                  (coded [("main.py", KFile); ("lib", KDir); ("boot.py", KFile)])))
       ++ [nl])%list.
Proof.
  exact (proj1 (ls_lists_directories_first Examples.linux "lib"
                  (Examples.session Examples.linux tt "/")
                  (mkFe "/" "esp8266" "ser:/dev/ttyUSB0") tt "lib" tt
                  [("main.py", KFile); ("lib", KDir); ("boot.py", KFile)]
                  eq_refl eq_refl eq_refl)).
Defined.

(** ** [close] and [exit] *)

Section Closing.

Variable W : World.
Implicit Type m : Machine W.

Lemma disconnect_closed m :
  fe (self m) = None -> __disconnect W m = (m, Return tt).
Proof.
  intros Hfe. unfold __disconnect, bind, get_self. rewrite Hfe. reflexivity.
Qed.

(** The machine after a successful [close()] of the session. *)
Lemma disconnect_session m f d' :
  fe (self m) = Some f ->
  remote W Close f (dev m) = (d', Return tt) ->
  __disconnect W m =
    (mkMachine
       (mkShell (color (self m)) (caching (self m)) (reset (self m)) None
          (repl (self m)) (prompt_for (color (self m)) "/"))
       d' (stdout m) (errlog m) (calls m ++ [event Close]),
     Return tt).
Proof.
  intros Hfe Hclose.
  unfold __disconnect. unfold bind at 1, get_self at 1. rewrite Hfe.
  unfold try_except. unfold bind at 1. unfold fe_invoke. rewrite Hfe, Hclose.
  unfold bind, set_fe, bind, get_self, set_self, __set_prompt_path, bind,
    get_self, set_prompt, bind, get_self, set_self, ret.
  cbn [self fe color caching reset repl prompt dev stdout errlog calls].
  destruct (color (self m)); reflexivity.
Qed.

(** C6.  Closing is safe and idempotent.  With no session, [close] and
    [exit] change nothing and raise nothing.  From a session whose
    [close()] succeeds, [close] (or [exit]) clears the session reference
    after that one call to the File Explorer, and a second [close] or
    [exit] changes nothing. *)
Theorem close_is_idempotent args m :
  (fe (self m) = None ->
   do_close W args m = (m, Return false) /\ do_exit W args m = (m, Return true))
  /\
  (forall f d',
      fe (self m) = Some f ->
      remote W Close f (dev m) = (d', Return tt) ->
      exists m',
        do_close W args m = (m', Return false) /\
        do_exit W args m = (m', Return true) /\
        fe (self m') = None /\
        calls m' = (calls m ++ [event Close])%list /\
        do_close W args m' = (m', Return false) /\
        do_exit W args m' = (m', Return true)).
Proof.
  split.
  - intros Hfe. unfold do_close, do_exit, bind.
    rewrite (disconnect_closed m Hfe). split; reflexivity.
  - intros f d' Hfe Hclose.
    exists (mkMachine
              (mkShell (color (self m)) (caching (self m)) (reset (self m)) None
                 (repl (self m)) (prompt_for (color (self m)) "/"))
              d' (stdout m) (errlog m) (calls m ++ [event Close])).
    unfold do_close, do_exit, bind.
    rewrite (disconnect_session m f d' Hfe Hclose).
    rewrite disconnect_closed by reflexivity.
    repeat split; reflexivity.
Qed.

End Closing.

(** Closing the example session twice. *)
Lemma close_twice_witness :
  exists m',
    do_close Examples.linux "" (Examples.session Examples.linux tt "/") =
      (m', Return false) /\
    fe (self m') = None /\
    do_close Examples.linux "" m' = (m', Return false).
Proof.
  destruct (proj2 (close_is_idempotent Examples.linux ""
                     (Examples.session Examples.linux tt "/"))
              (mkFe "/" "esp8266" "ser:/dev/ttyUSB0") tt eq_refl eq_refl)
    as (m' & H1 & _ & H2 & _ & H3 & _).
  exists m'. repeat split; assumption.
Defined.

(** ** [open] *)

Section Opening.

Variable W : World.
Implicit Type m : Machine W.

(** C2, as amended.  For a non-empty target: one that starts with
    [ser:/dev/], [ser:COM], [tn:] or [ws:] is passed to the connect step
    unchanged; any other, a serial target such as [ser:ttyUSB0] included,
    is passed with [ser:] in front on Windows and [ser:/dev/] in front
    elsewhere. *)
Theorem open_normalises_target args m :
  args <> "" ->
  (String.prefix "ser:/dev/" args = true \/ String.prefix "ser:COM" args = true
   \/ String.prefix "tn:" args = true \/ String.prefix "ws:" args = true ->
   do_open W args m = bind W (__connect W args) (fun _ => ret W false) m)
  /\
  (String.prefix "ser:/dev/" args = false ->
   String.prefix "ser:COM" args = false ->
   String.prefix "tn:" args = false ->
   String.prefix "ws:" args = false ->
   do_open W args m =
     bind W
       (__connect W
          ((if String.eqb (platform_system W) "Windows" then "ser:"
            else "ser:/dev/") +:+ args))
       (fun _ => ret W false) m).
Proof.
  intros Hne. unfold do_open. rewrite (length_nonzero _ Hne). split.
  - intros H.
    assert (E : negb (String.prefix "ser:/dev/" args)
                && negb (String.prefix "ser:COM" args)
                && negb (String.prefix "tn:" args)
                && negb (String.prefix "ws:" args) = false).
    { destruct H as [H|[H|[H|H]]]; rewrite H; simpl;
        rewrite ?andb_false_r; reflexivity. }
    rewrite E. reflexivity.
  - intros H1 H2 H3 H4. rewrite H1, H2, H3, H4. simpl negb. cbn [andb].
    destruct (String.eqb (platform_system W) "Windows"); reflexivity.
Qed.
End Opening.

(** [open ttyUSB0] away from Windows. *)
Lemma open_witness :
  do_open Examples.linux "ttyUSB0" (Examples.closed Examples.linux tt) =
    bind Examples.linux (__connect Examples.linux ("ser:/dev/" +:+ "ttyUSB0"))
      (fun _ => ret Examples.linux false) (Examples.closed Examples.linux tt).
Proof.
  refine (proj2 (open_normalises_target Examples.linux "ttyUSB0"
                   (Examples.closed Examples.linux tt) _) _ _ _ _);
    [discriminate | reflexivity ..].
Defined.

(** C2, as stated, fails: a target that carries the serial scheme but
    not one of the two recognised serial prefixes is not passed unchanged;
    the connection is opened on the target with [ser:/dev/] in front. *)
Lemma serial_scheme_is_prefixed_again :
  carries_scheme "ser:ttyUSB0" = true /\
  do_open Examples.linux "ser:ttyUSB0" (Examples.closed Examples.linux tt) =
    bind Examples.linux (__connect Examples.linux "ser:/dev/ser:ttyUSB0")
      (fun _ => ret Examples.linux false) (Examples.closed Examples.linux tt) /\
  con <$> fe (self (fst (do_open Examples.linux "ser:ttyUSB0"
                           (Examples.closed Examples.linux tt)))) =
    Some "ser:/dev/ser:ttyUSB0".
Proof.
  split; [reflexivity|]. split; [reflexivity|]. vm_compute. reflexivity.
Qed.

(** ** [exec] *)

Section Exec.

Variable W : World.
Implicit Type m : Machine W.

(** The callback on fragments that decode. *)
Lemma consumed (chunks texts : list string) i m :
  Forall2 (fun data text => decode_utf8 W data = Return text) chunks texts ->
  for_each W chunks i (fun _ data => data_consumer W data) m =
    (mkMachine (self m) (dev m)
       (stdout m ++ map (strip (ascii_of_nat 4)) texts) (errlog m) (calls m),
     Return tt).
Proof.
  intros H. revert i m. induction H as [|data text chunks texts Hd _ IH];
    intros i m; simpl.
  - rewrite app_nil_r. destruct m; reflexivity.
  - unfold bind at 1. unfold data_consumer at 1, bind, lift. rewrite Hd.
    unfold write. rewrite IH. cbn [self dev stdout errlog calls].
    rewrite <- app_assoc. reflexivity.
Qed.

Lemma exec_outcome args m f d1 d2 chunks texts out err :
  fe (self m) = Some f ->
  args <> "" ->
  remote W (ExecRawNoFollow (args +:+ nl)) f (dev m) = (d1, Return tt) ->
  remote W (Follow None) f d1 = (d2, Return (chunks, (out, err))) ->
  Forall2 (fun data text => decode_utf8 W data = Return text) chunks texts ->
  do_exec W args m =
    if (String.length err =? 0)%nat then
      (streamed m (args +:+ nl) d2 texts, Return false)
    else if python3 W then
      (streamed m (args +:+ nl) d2 texts,
       Raise (mkExn TypeError "can only concatenate str (not bytes) to str"))
    else
      (wrote (streamed m (args +:+ nl) d2 texts)
         (error_text (color (self m)) err),
       Return false).
Proof.
  intros Hfe Hne Hexec Hfollow Hdecode.
  unfold do_exec. rewrite (length_nonzero _ Hne).
  unfold bind at 1. rewrite (is_open_session W m f Hfe).
  unfold try_except. unfold bind at 1. unfold fe_invoke at 1.
  rewrite Hfe, Hexec.
  unfold bind at 1. unfold fe_follow. unfold bind at 1. unfold fe_invoke.
  cbn [self dev]. rewrite Hfe, Hfollow.
  unfold bind at 1. cbn [fst snd].
  rewrite (consumed chunks texts 0 _ Hdecode).
  unfold ret at 1. cbn [self dev stdout errlog calls fst snd].
  unfold as_bytes.
  destruct (python3 W) eqn:Hpy; cbn [len snd].
  - destruct (String.length err =? 0)%nat eqn:Herr; cbn [negb].
    + unfold bind, ret, streamed. rewrite <- app_assoc. reflexivity.
    + unfold bind at 1. unfold __error, bind, get_self, lift.
      cbn [self]. destruct (color (self m)); simpl;
        unfold streamed; rewrite <- app_assoc; reflexivity.
  - destruct (String.length err =? 0)%nat eqn:Herr; cbn [negb].
    + unfold bind, ret, streamed. rewrite <- app_assoc. reflexivity.
    + unfold bind. rewrite error_wrote. unfold ret, streamed, wrote.
      cbn [self dev stdout errlog calls]. rewrite <- !app_assoc. reflexivity.
Qed.

(** C5, the failing case.  Under Python 3, where the execution result
    holds [bytes], a non-empty standard error is not reported: [__error]
    is handed the [bytes] object, concatenating it to a [str] raises
    [TypeError], no [except] clause of [do_exec] names it, and it leaves
    the handler with nothing written about the failure. *)
Theorem exec_stderr_raises_under_python3 args m f d1 d2 chunks texts out err :
  python3 W = true ->
  fe (self m) = Some f ->
  args <> "" ->
  remote W (ExecRawNoFollow (args +:+ nl)) f (dev m) = (d1, Return tt) ->
  remote W (Follow None) f d1 = (d2, Return (chunks, (out, err))) ->
  Forall2 (fun data text => decode_utf8 W data = Return text) chunks texts ->
  err <> "" ->
  do_exec W args m =
    (streamed m (args +:+ nl) d2 texts,
     Raise (mkExn TypeError "can only concatenate str (not bytes) to str")).
Proof.
  intros Hpy Hfe Hne Hexec Hfollow Hdecode Herr.
  rewrite (exec_outcome args m f d1 d2 chunks texts out err
             Hfe Hne Hexec Hfollow Hdecode).
  rewrite (length_nonzero _ Herr), Hpy. reflexivity.
Qed.

(** [exec] when the statement runs and leaves its standard error empty:
    the statement, with a newline appended, goes to [exec_raw_no_follow],
    [follow] streams the output, every fragment is decoded and written
    without the end-of-transmission characters at its ends, and the
    handler returns.  Nothing about a failure is written and nothing else
    is called.  No exception stands in the way here: [len] takes [bytes]
    as well as [str], and [__error] is not reached. *)
Theorem exec_streams_output args m f d1 d2 chunks texts out :
  fe (self m) = Some f ->
  args <> "" ->
  remote W (ExecRawNoFollow (args +:+ nl)) f (dev m) = (d1, Return tt) ->
  remote W (Follow None) f d1 = (d2, Return (chunks, (out, ""))) ->
  Forall2 (fun data text => decode_utf8 W data = Return text) chunks texts ->
  do_exec W args m = (streamed m (args +:+ nl) d2 texts, Return false).
Proof.
  intros Hfe Hne Hexec Hfollow Hdecode.
  rewrite (exec_outcome args m f d1 d2 chunks texts out ""
             Hfe Hne Hexec Hfollow Hdecode).
  reflexivity.
Qed.

(** The other branch of the model, [python3 W = false], in which [str]
    and [bytes] are one type: there the failure is reported if and only
    if the standard error is not empty.  This is what C5 asks of the
    handler; it is not a run of the file as it stands, which holds
    non-ASCII characters without a coding declaration and so is refused
    by a Python 2 interpreter. *)
Lemma exec_reports_stderr_under_python2 args m f d1 d2 chunks texts out err :
  python3 W = false ->
  fe (self m) = Some f ->
  args <> "" ->
  remote W (ExecRawNoFollow (args +:+ nl)) f (dev m) = (d1, Return tt) ->
  remote W (Follow None) f d1 = (d2, Return (chunks, (out, err))) ->
  Forall2 (fun data text => decode_utf8 W data = Return text) chunks texts ->
  (err = "" ->
   do_exec W args m = (streamed m (args +:+ nl) d2 texts, Return false)) /\
  (err <> "" ->
   do_exec W args m =
     (wrote (streamed m (args +:+ nl) d2 texts)
        (error_text (color (self m)) err),
      Return false)).
Proof.
  intros Hpy Hfe Hne Hexec Hfollow Hdecode.
  rewrite (exec_outcome args m f d1 d2 chunks texts out err
             Hfe Hne Hexec Hfollow Hdecode).
  split.
  - intros ->. reflexivity.
  - intros Herr. rewrite (length_nonzero _ Herr), Hpy. reflexivity.
Qed.

End Exec.

(** [exec 1/0] under Python 3: the traceback is never shown. *)
Lemma exec_traceback_witness :
  do_exec Examples.failing_statement3 "1/0"
    (Examples.session Examples.failing_statement3 tt "/") =
    (streamed (Examples.session Examples.failing_statement3 tt "/")
       ("1/0" +:+ nl) tt [],
     Raise (mkExn TypeError "can only concatenate str (not bytes) to str")).
Proof.
  apply (exec_stderr_raises_under_python3 Examples.failing_statement3 "1/0"
           (Examples.session Examples.failing_statement3 tt "/")
           (mkFe "/" "esp8266" "ser:/dev/ttyUSB0") tt tt [] [] ""
           Examples.traceback).
  - reflexivity.
  - reflexivity.
  - discriminate.
  - reflexivity.
  - reflexivity.
  - constructor.
  - discriminate.
Defined.

(** [exec print(2+2)]: the output is shown. *)
Lemma exec_streams_witness :
  do_exec Examples.linux "print(2+2)" (Examples.session Examples.linux tt "/") =
    (@mkMachine Examples.linux
       (self (Examples.session Examples.linux tt "/")) tt ["4"] []
       [event (ExecRawNoFollow ("print(2+2)" +:+ nl)); event (Follow None)],
     Return false).
Proof.
  refine (exec_streams_output Examples.linux "print(2+2)"
            (Examples.session Examples.linux tt "/")
            (mkFe "/" "esp8266" "ser:/dev/ttyUSB0") tt tt ["4"] ["4"] "4"
            eq_refl _ eq_refl eq_refl _).
  - discriminate.
  - repeat constructor.
Defined.

(** [exec 1/0] in the branch where [str] and [bytes] are one type: the
    traceback is shown. *)
Lemma exec_python2_witness :
  do_exec Examples.failing_statement2 "1/0"
    (Examples.session Examples.failing_statement2 tt "/") =
    (wrote (streamed (Examples.session Examples.failing_statement2 tt "/")
              ("1/0" +:+ nl) tt [])
       (error_text false Examples.traceback),
     Return false).
Proof.
  refine (proj2 (exec_reports_stderr_under_python2 Examples.failing_statement2
                   "1/0" (Examples.session Examples.failing_statement2 tt "/")
                   (mkFe "/" "esp8266" "ser:/dev/ttyUSB0") tt tt [] [] ""
                   Examples.traceback eq_refl eq_refl _ eq_refl eq_refl _) _).
  - discriminate.
  - constructor.
  - discriminate.
Defined.

(** ** The round trip of a file *)

Module TransferFacts.

Import Transfer.
Local Open Scope list_scope.

Lemma hex_byte_decodes (b : ascii) :
  byte_of_hex (hex_digit (nat_of_ascii b / 16)) (hex_digit (nat_of_ascii b mod 16))
  = Some b.
Proof.
  destruct b as [[] [] [] [] [] [] [] []]; vm_compute; reflexivity.
Qed.

Lemma unhexlify_hexlify (bs : list ascii) : unhexlify (hexlify bs) = Some bs.
Proof.
  induction bs as [|b bs IH]; [reflexivity|].
  change (hexlify (b :: bs))
    with (String (hex_digit (nat_of_ascii b / 16))
            (String (hex_digit (nat_of_ascii b mod 16)) (hexlify bs))).
  cbn [unhexlify]. rewrite hex_byte_decodes, IH. reflexivity.
Qed.

Lemma plain_not_backslash (b : ascii) : plain b = true -> Ascii.eqb b "\" = false.
Proof.
  unfold plain. destruct (Ascii.eqb b "\"); [|reflexivity].
  rewrite !andb_true_iff. simpl. intros [[_ H] _]. discriminate H.
Qed.

Lemma unescape_escape (bs : list ascii) : unescape (escape bs) = Some bs.
Proof.
  induction bs as [|b bs IH]; [reflexivity|].
  cbn [escape]. unfold escape_byte.
  destruct (plain b) eqn:Hb.
  - change (String b "" +:+ escape bs) with (String b (escape bs)).
    cbn [unescape]. rewrite (plain_not_backslash b Hb), IH. reflexivity.
  - change (String "\" (String "x" (hex_byte b)) +:+ escape bs)
      with (String "\" (String "x"
              (String (hex_digit (nat_of_ascii b / 16))
                 (String (hex_digit (nat_of_ascii b mod 16)) (escape bs))))).
    cbn [unescape].
    change (Ascii.eqb "\" "\") with true. change (Ascii.eqb "x" "x") with true.
    cbn iota. rewrite hex_byte_decodes, IH. reflexivity.
Qed.

Lemma put_chunks_appends fuel c data d p pos old :
  0 < c ->
  length data < fuel ->
  handle d = Some (p, pos) ->
  files d !! p = Some old ->
  exists pos',
    put_chunks fuel c data d =
      (mkDevice (<[p := old ++ data]> (files d)) (Some (p, pos')), Return tt).
Proof.
  intros Hc. revert data d pos old.
  induction fuel as [|fuel IH]; intros data d pos old Hlen Hh Hf; [lia|].
  cbn [put_chunks].
  destruct data as [|b data].
  - rewrite take_nil. cbn [length Nat.eqb]. exists pos.
    rewrite app_nil_r, insert_id by assumption.
    destruct d; simpl in *; subst; reflexivity.
  - destruct (length (take c (b :: data)) =? 0)%nat eqn:E.
    + apply Nat.eqb_eq in E. rewrite length_take in E. simpl in E. lia.
    + unfold run, execute. rewrite Hh, unescape_escape, Hf. cbn [snd fst String.length Nat.eqb].
      destruct (IH (drop c (b :: data))
                  (mkDevice (<[p := old ++ take c (b :: data)]> (files d))
                     (Some (p, pos + length (take c (b :: data)))))
                  (pos + length (take c (b :: data)))
                  (old ++ take c (b :: data))) as [pos' Hrec].
      * rewrite length_drop. simpl in *. lia.
      * reflexivity.
      * cbn [files]. apply lookup_insert_eq.
      * exists pos'. rewrite Hrec. cbn [files].
        rewrite insert_insert_eq, <- app_assoc, take_drop. reflexivity.
Qed.

Lemma get_chunks_reads fuel c d p pos content acc :
  0 < c ->
  length content - pos < fuel ->
  handle d = Some (p, pos) ->
  files d !! p = Some content ->
  exists pos',
    get_chunks fuel c d acc =
      (mkDevice (files d) (Some (p, pos')), Return (acc ++ drop pos content)).
Proof.
  intros Hc. revert d pos acc.
  induction fuel as [|fuel IH]; intros d pos acc Hlen Hh Hf; [lia|].
  cbn [get_chunks]. unfold run, execute. rewrite Hh, Hf.
  cbn [snd fst String.length Nat.eqb]. rewrite unhexlify_hexlify.
  set (chunk := take c (drop pos content)).
  destruct ((length chunk <? c)%nat || (length chunk =? 0)%nat) eqn:E.
  - exists (pos + length chunk).
    assert (Hshort : length chunk < c).
    { apply orb_true_iff in E. destruct E as [E|E].
      - apply Nat.ltb_lt in E. assumption.
      - apply Nat.eqb_eq in E. lia. }
    assert (Hall : chunk = drop pos content).
    { unfold chunk in *. rewrite length_take in Hshort.
      apply take_ge. lia. }
    rewrite Hall. reflexivity.
  - apply orb_false_iff in E. destruct E as [E _]. apply Nat.ltb_ge in E.
    assert (Hfull : length chunk = c).
    { unfold chunk in *. rewrite length_take in *. lia. }
    destruct (IH (mkDevice (files d) (Some (p, pos + length chunk)))
                (pos + length chunk) (acc ++ chunk)) as [pos' Hrec].
    + unfold chunk in Hfull. rewrite length_take, length_drop in Hfull. lia.
    + reflexivity.
    + assumption.
    + exists pos'. rewrite Hrec. cbn [files].
      rewrite <- app_assoc. f_equal. f_equal. f_equal.
      rewrite Hfull. unfold chunk.
      rewrite <- (take_drop c (drop pos content)) at 2.
      rewrite drop_drop. reflexivity.
Qed.

(** C8.  Round trip: for every file content [f] and every chunk size
    [c > 0], [put] of the local file to a remote name succeeds, and a
    [get] of that remote name afterwards, given round trips enough for the
    chunks, leaves a local file equal to [f] byte for byte. *)
Theorem get_put_roundtrip (c : nat) (local : gmap string (list ascii))
    (src : string) (remote dst : option string) (d : Device) (f : list ascii) :
  0 < c ->
  local !! src = Some f ->
  exists d1 d2,
    put c local src remote d = (d1, Return tt) /\
    forall fuel,
      length f < fuel ->
      get fuel c d1 (default src remote) dst local =
        (d2, Return (<[default (default src remote) dst := f]> local)).
Proof.
  intros Hc Hsrc.
  set (name := default src remote).
  destruct (put_chunks_appends (S (length f)) c f
              (mkDevice (<[name := []]> (files d)) (Some (name, 0)))
              name 0 []) as [pos Hput]; try reflexivity; try lia.
  { cbn [files]. apply lookup_insert_eq. }
  cbn [files] in Hput. rewrite insert_insert_eq in Hput. simpl app in Hput.
  exists (mkDevice (<[name := f]> (files d)) None),
         (mkDevice (<[name := f]> (files d)) None).
  split.
  - unfold put. rewrite Hsrc. unfold run at 1. cbn [execute snd fst String.length Nat.eqb].
    fold name. rewrite Hput. reflexivity.
  - intros fuel Hfuel. unfold get. unfold run at 1. cbn [execute files].
    rewrite lookup_insert_eq. cbn [snd fst String.length Nat.eqb].
    destruct (get_chunks_reads fuel c
                (mkDevice (<[name := f]> (files d)) (Some (name, 0)))
                name 0 f []) as [pos' Hget]; try reflexivity; try lia.
    { cbn [files]. apply lookup_insert_eq. }
    rewrite Hget. reflexivity.
Qed.

(** Three bytes, one of them not printable, in chunks of two. *)
Lemma roundtrip_witness :
  0 < 2 /\
  exists d1 d2,
    put 2 {[ "main.py" := ["a"; "007"; "'"]%char ]} "main.py" None
      (mkDevice ∅ None) = (d1, Return tt) /\
    forall fuel,
      length ["a"; "007"; "'"]%char < fuel ->
      get fuel 2 d1 (default "main.py" None) (Some "copy.py")
        {[ "main.py" := ["a"; "007"; "'"]%char ]} =
        (d2,
         Return (<[default (default "main.py" None) (Some "copy.py") :=
                     ["a"; "007"; "'"]%char]>
                   {[ "main.py" := ["a"; "007"; "'"]%char ]})).
Proof.
  split; [lia|].
  apply (get_put_roundtrip 2 {[ "main.py" := ["a"; "007"; "'"]%char ]}
           "main.py" None (Some "copy.py") (mkDevice ∅ None)
           ["a"; "007"; "'"]%char).
  - lia.
  - apply lookup_singleton_eq.
Defined.

End TransferFacts.

(** ** What a command leaves alone *)

Section Frame.

Variable W : World.
Implicit Type m : Machine W.

Lemma keeps_lift {A} (o : outcome A) : keeps_self (lift W o).
Proof. intros m m' r H. inversion H. reflexivity. Qed.

Lemma keeps_get_self : keeps_self (get_self W).
Proof. intros m m' r H. inversion H. reflexivity. Qed.

Lemma keeps_error_text (msg : pytext) : keeps_self (__error W msg).
Proof.
  intros m m' r H. unfold __error, bind, get_self, lift, print, write in H.
  destruct (color (self m)), msg; simpl in H; inversion H; reflexivity.
Qed.

Lemma keeps_is_open : keeps_self (__is_open W).
Proof.
  intros m m' r H. unfold __is_open, bind, get_self in H.
  destruct (fe (self m)); [inversion H; reflexivity|].
  rewrite error_wrote in H. inversion H. reflexivity.
Qed.

Lemma keeps_parse args : keeps_self (__parse_file_names W args).
Proof.
  unfold __parse_file_names. destruct (tokenize W args) as [tokens rest].
  destruct (negb (rest =? "")%string).
  - apply keeps_bind; [apply keeps_error|intros; apply keeps_ret].
  - apply keeps_ret.
Qed.

Lemma keeps_arg {A} (s_args : option (list A)) i : keeps_self (arg W s_args i).
Proof.
  unfold arg. destruct s_args; [apply keeps_lift|apply keeps_raise].
Qed.

Lemma keeps_second_arg {A} (s_args : option (list A)) :
  keeps_self (second_arg W s_args).
Proof.
  unfold second_arg. destruct (1 <? list_len s_args)%nat; [|apply keeps_ret].
  apply keeps_bind; [apply keeps_arg|intros; apply keeps_ret].
Qed.

Lemma keeps_attr {A} name (proj : MpFileExplorer -> A) :
  keeps_self (fe_attr W name proj).
Proof.
  intros m m' r H. unfold fe_attr, bind, get_self in H.
  destruct (fe (self m)); inversion H; reflexivity.
Qed.

Lemma keeps_consumer data : keeps_self (data_consumer W data).
Proof.
  apply keeps_bind; [apply keeps_lift|intros; apply keeps_write].
Qed.

Lemma keeps_follow timeout :
  keeps_self (fe_follow W timeout (data_consumer W)).
Proof.
  apply keeps_bind; [apply keeps_invoke|intros r].
  apply keeps_bind; [|intros; apply keeps_ret].
  apply keeps_for_each. intros. apply keeps_consumer.
Qed.

Ltac keeps :=
  repeat first
    [ apply keeps_ret | apply keeps_raise | apply keeps_lift
    | apply keeps_error | apply keeps_error_text | apply keeps_is_open
    | apply keeps_parse | apply keeps_arg | apply keeps_second_arg
    | apply keeps_attr | apply keeps_invoke | apply keeps_pwd
    | apply keeps_print | apply keeps_follow
    | apply keeps_try; [|repeat constructor; intros ?]
    | apply keeps_bind; [|intros ?]
    | match goal with
      | |- keeps_self (if ?b then _ else _) => destruct b
      end ].

(** [pwd], [md], [put], [mput], [get], [mget], [rm], [mrm], [cat],
    [exec] and [mpyc] leave the shell object as they found it, whatever
    the argument, whatever the device answers and whether the handler
    returns or raises: the session reference, the directory it tracks,
    the terminal and the prompt are those before the call.  The handlers
    assign to none of them, and the File Explorer operations they call
    are the ones that, by section 4.2 of the spec, work in the current
    directory and leave the tracked directory to [cd].  The recursive
    [putr], [getr] and [rmr] are not covered. *)
Theorem commands_keep_shell_object c args :
  stays c = true -> keeps_self (handler W c args).
Proof.
  intros Hc.
  destruct c; try discriminate Hc; simpl handler;
    unfold do_pwd, do_md, do_put, do_get, do_mput, do_mget,
      do_mrm, do_rm, do_cat, do_exec, do_mpyc, transfer, selection,
      remove.
  all: keeps.
  all: try (intros m m' r H; inversion H; reflexivity).
Qed.

End Frame.

(** [rm main.py] on a session. *)
Lemma keep_shell_object_witness :
  stays c_rm = true /\
  self (fst (handler Examples.linux c_rm "main.py"
               (Examples.session Examples.linux tt "/"))) =
  self (Examples.session Examples.linux tt "/").
Proof.
  split; [reflexivity|].
  apply (commands_keep_shell_object Examples.linux c_rm "main.py" eq_refl
           (Examples.session Examples.linux tt "/")
           (fst (handler Examples.linux c_rm "main.py"
                   (Examples.session Examples.linux tt "/")))
           (snd (handler Examples.linux c_rm "main.py"
                   (Examples.session Examples.linux tt "/")))).
  apply surjective_pairing.
Defined.

(** ** The walk of [tree] *)

Section TreeWalk.

Variable W : World.
Implicit Type m : Machine W.

Lemma travels_for_each {A} (l : list A) i (body : nat -> A -> M W unit) :
  (forall i x, travels (body i x)) -> travels (for_each W l i body).
Proof.
  intros Hb. revert i. induction l as [|x l IH]; intros i; simpl.
  - apply keeps_travels, keeps_ret.
  - apply travels_bind; [apply Hb | intros; apply IH].
Qed.

Lemma travels_rec_tree depth directory prefix :
  travels (rec_tree W depth directory prefix).
Proof.
  revert directory prefix. induction depth as [|depth IH]; intros directory prefix.
  - apply keeps_travels, keeps_raise.
  - cbn [rec_tree]. apply travels_try.
    2:{ constructor; [|constructor]. intros e'. apply keeps_error. }
    apply travels_bind; [apply keeps_travels, keeps_pwd|intros olddir].
    apply travels_bind; [apply travels_cd|intros _].
    apply travels_bind; [apply keeps_travels, keeps_ls|intros files].
    apply travels_bind; [apply keeps_travels, keeps_get_self|intros s].
    apply travels_bind; [apply keeps_travels, keeps_pwd|intros pwd].
    apply travels_bind; [apply keeps_travels, keeps_lift|intros name].
    apply travels_bind.
    { destruct (color s); apply keeps_travels, keeps_print. }
    intros _.
    apply travels_bind.
    { destruct (4 <=? String.length prefix)%nat; [|apply keeps_travels, keeps_ret].
      apply travels_bind; [apply keeps_travels, keeps_lift|intros c].
      destruct (Ascii.eqb c BOX_UP_RIGHT); apply keeps_travels, keeps_ret. }
    intros prefix'.
    apply travels_bind; [|intros _; apply travels_cd].
    apply travels_for_each. intros i f.
    destruct (String.eqb (snd f) "F").
    + apply keeps_travels.
      apply keeps_bind.
      { destruct (3 <=? String.length prefix')%nat; [|apply keeps_ret].
        apply keeps_bind; [apply keeps_lift|intros; apply keeps_ret]. }
      intros fprefix. destruct (color s); apply keeps_print.
    + destruct (length (display_order files) =? i + 1)%nat;
        (apply travels_bind; [apply keeps_travels, keeps_invoke|intros d; apply IH]).
Qed.

Lemma bind_returns {A B} (c : M W A) (k : A -> M W B) m m' b :
  bind W c k m = (m', Return b) ->
  exists m1 a, c m = (m1, Return a) /\ k a m1 = (m', Return b).
Proof.
  unfold bind. destruct (c m) as [m1 [a|e]]; intros H; [eauto|discriminate H].
Qed.

(** When [do_tree] returns, the shell object is the one before the call:
    however deep the walk went and whatever [rec_tree] reported on the
    way, the session tracks the directory it tracked.  The first
    hypothesis is the File Explorer's: a successful [cd] to the directory
    [pwd()] gave ends in that directory.  The second leaves out the one
    case in which [do_tree] does not go back: no argument and an empty
    tracked directory. *)
Theorem tree_restores_directory directory m m' r :
  (forall olddir f d d' p,
      tracked_dir m = Some olddir ->
      remote W (Cd olddir) f d = (d', Return p) -> p = olddir) ->
  directory <> "" \/ tracked_dir m <> Some "" ->
  do_tree W directory m = (m', Return r) ->
  self m' = self m.
Proof.
  intros Hback Hdir Hrun.
  unfold do_tree in Hrun. unfold bind at 1 in Hrun.
  destruct (fe (self m)) as [f|] eqn:Hfe.
  2:{ rewrite (is_open_closed W m Hfe) in Hrun. inversion Hrun. reflexivity. }
  rewrite (is_open_session W m f Hfe) in Hrun.
  unfold bind at 1 in Hrun. unfold fe_pwd at 1 in Hrun. rewrite Hfe in Hrun.
  set (m0 := mkMachine (self m) (dev m) (stdout m) (errlog m)
               (calls m ++ [event Pwd])) in Hrun.
  apply bind_returns in Hrun. destruct Hrun as (m1 & dir1 & Hfirst & Hrun).
  apply bind_returns in Hrun. destruct Hrun as (m2 & [] & Htree & Hrun).
  apply bind_returns in Hrun. destruct Hrun as (m3 & [] & Hlast & Hrun).
  inversion Hrun; subst m3 r; clear Hrun.
  (* the directory walked is not empty, and the session has only moved *)
  assert (H1 : dir1 <> "" /\ exists x, self m1 = moved (self m0) x).
  { destruct (String.length directory =? 0)%nat eqn:Hlen; cbn [negb] in Hfirst.
    - apply length_zero in Hlen. subst directory.
      unfold fe_pwd in Hfirst. cbn [self m0] in Hfirst. rewrite Hfe in Hfirst.
      inversion Hfirst; subst. split.
      + destruct Hdir as [Hdir|Hdir]; [contradiction|].
        intros E. apply Hdir. unfold tracked_dir. rewrite Hfe, <- E. reflexivity.
      + apply same_is_moved.
    - apply bind_returns in Hfirst. destruct Hfirst as (m1' & [] & Hcd & Hret).
      inversion Hret; subst. split.
      + intros ->. discriminate Hlen.
      + eapply travels_cd; eassumption. }
  destruct H1 as [Hne [x Hx]].
  destruct (travels_rec_tree _ _ _ _ _ _ Htree) as [y Hy].
  rewrite (length_nonzero _ Hne) in Hlast. cbn [negb] in Hlast.
  destruct (fe_cd_moves W _ _ _ _ Hlast)
    as [(_ & f1 & d' & newdir & Hf1 & Hremote & E)|((e & He) & _)];
    [|discriminate He].
  assert (newdir = dir f).
  { apply (Hback (dir f) f1 (dev m2) d' newdir); [|assumption].
    unfold tracked_dir. rewrite Hfe. reflexivity. }
  subst newdir. rewrite E, Hy, Hx, !moved_moved. apply moved_back. assumption.
Qed.

End TreeWalk.

(** [tree lib] on a device whose directories hold files only. *)
Lemma tree_restores_witness :
  self (fst (do_tree Hosts.flat "lib" (Examples.session Hosts.flat tt "/"))) =
  self (Examples.session Hosts.flat tt "/").
Proof.
  refine (tree_restores_directory Hosts.flat "lib"
            (Examples.session Hosts.flat tt "/")
            (fst (do_tree Hosts.flat "lib" (Examples.session Hosts.flat tt "/")))
            false _ _ _).
  - intros olddir f d d' p _ H. vm_compute in H. congruence.
  - left. discriminate.
  - vm_compute. reflexivity.
Defined.

(** ** The tree of a directory without subdirectories *)

Section FlatTree.


Variable W : World.
Implicit Type m : Machine W.

Lemma split_last (sep : ascii) (s : string) :
  exists name, last (split sep s) = Some name.
Proof.
  induction s as [|c s [name IH]]; simpl; [eauto|].
  destruct (Ascii.eqb c sep).
  - exists name. destruct (split sep s); [discriminate IH|exact IH].
  - destruct (split sep s) as [|w [|w' ws]]; [discriminate IH| |].
    + simpl in *. eauto.
    + exists name. exact IH.
Qed.

(** A loop whose every turn only writes one line. *)
Lemma for_each_writes {A} (g : nat -> A -> string) (P : A -> Prop)
    (body : nat -> A -> M W unit) (l : list A) i m :
  (forall j x m0,
      P x -> self m0 = self m -> body j x m0 = (wrote m0 (g j x), Return tt)) ->
  Forall P l ->
  for_each W l i body m =
    (mkMachine (self m) (dev m)
       (stdout m ++ imap (fun j x => g (i + j) x) l) (errlog m) (calls m),
     Return tt).
Proof.
  intros Hbody Hl. revert i m Hbody.
  induction Hl as [|x l Hx _ IH]; intros i m Hbody.
  - simpl. rewrite app_nil_r. destruct m; reflexivity.
  - cbn [for_each]. unfold bind. rewrite (Hbody i x m Hx eq_refl).
    rewrite (IH (S i) (wrote m (g i x))).
    + unfold wrote. cbn [self dev stdout errlog calls].
      rewrite <- app_assoc. cbn [imap app]. rewrite Nat.add_0_r.
      do 4 f_equal. apply imap_ext. intros j y _. simpl. f_equal. lia.
    + intros j y m0 Hy Hm0. apply Hbody; assumption.
Qed.

(** What [rec_tree] does in a directory that holds files only, called
    with an empty prefix: it asks for the directory, enters [directory],
    lists it, writes the last component of the new path as the heading
    and one line per file in display order, the last one with the closing
    branch and the others with the middle branch, goes back to the
    directory it started from, and returns.  Nothing is logged and no
    other File Explorer operation is called. *)
Theorem tree_of_files depth directory m f d1 pwd d2 listing d3 back :
  fe (self m) = Some f ->
  remote W (Cd directory) f (dev m) = (d1, Return pwd) ->
  remote W Ls (mkFe pwd (sysname f) (con f)) d1 = (d2, Return listing) ->
  Forall (fun e => snd e = KFile) listing ->
  remote W (Cd (dir f)) (mkFe pwd (sysname f) (con f)) d2 = (d3, Return back) ->
  rec_tree W (S depth) directory "" m =
    (mkMachine (moved (self m) back) d3
       (stdout m ++ [tree_heading (color (self m)) "" pwd]
          ++ imap (tree_file_line (color (self m)) (length listing))
               (display_order (coded listing)))
       (errlog m)
       (calls m ++ [event Pwd; event (Cd directory); event Ls; event Pwd;
                    event (Cd (dir f))]),
     Return tt).
Proof.
  intros Hfe Hcd Hls Hfiles Hback.
  cbn [rec_tree]. unfold try_except.
  unfold bind at 1. unfold fe_pwd at 1. rewrite Hfe.
  unfold bind at 1.
  rewrite (fe_cd_returns W
             (mkMachine (self m) (dev m) (stdout m) (errlog m)
                (calls m ++ [event Pwd])) f directory d1 pwd Hfe Hcd).
  cbn [self dev stdout errlog calls].
  unfold bind at 1. unfold fe_ls, bind at 1, fe_invoke.
  cbn [self dev stdout errlog calls fe]. rewrite Hls. unfold ret at 1.
  unfold bind at 1, get_self at 1. cbn [self].
  unfold bind at 1. unfold fe_pwd at 1. cbn [self fe dir].
  destruct (split_last "/" pwd) as [name Hname].
  unfold bind at 1, lift at 1, last_item. rewrite Hname.
  cbn [self dev stdout errlog calls color fe].
  unfold bind at 1.
  assert (Hhead : forall m0 : Machine W,
             (if color (self m) then print W (Fore.MAGENTA +:+ ("" +:+ name) +:+ Fore.RESET)
              else print W ("" +:+ name)) m0
             = (wrote m0 (tree_heading (color (self m)) "" pwd), Return tt)).
  { intros m0. unfold tree_heading. rewrite Hname. cbn [default].
    destruct (color (self m)); reflexivity. }
  rewrite Hhead. unfold wrote at 1. cbn [self dev stdout errlog calls].
  change (4 <=? String.length "")%nat with false. cbv iota.
  unfold bind at 1, ret at 1. unfold bind at 1.
  fold (coded listing).
  assert (Hlen : length (display_order (coded listing)) = length listing).
  { rewrite (Permutation_length (display_order_perm (coded listing))).
    unfold coded. apply length_map. }
  rewrite Hlen.
  erewrite (for_each_writes
              (tree_file_line (color (self m)) (length listing))
              (fun e => snd e = "F")).
  2:{ intros j x m0 Hx _. rewrite Hx.
      change ("F" =? "F")%string with true. cbv iota.
      change (3 <=? String.length "")%nat with false. cbv iota.
      unfold bind, ret, tree_file_line.
      destruct (color (self m)), (length listing =? j + 1)%nat; reflexivity. }
  2:{ apply Forall_forall. intros e He.
      assert (Hin : e ∈ coded listing).
      { rewrite <- (display_order_perm (coded listing)). exact He. }
      unfold coded in Hin. apply list_elem_of_fmap in Hin.
      destruct Hin as (e0 & -> & He0).
      rewrite Forall_forall in Hfiles. cbn [snd]. rewrite (Hfiles e0 He0).
      reflexivity. }
  cbn [self dev stdout errlog calls].
  erewrite fe_cd_returns; [|reflexivity|exact Hback].
  cbn [self dev stdout errlog calls color caching reset repl prompt sysname con].
  unfold moved. rewrite Hfe. cbn [fmap option_fmap option_map].
  rewrite <- !app_assoc. reflexivity.
Qed.

End FlatTree.

(** [rec_tree("lib")] from the root of such a device. *)
Lemma tree_of_files_witness :
  rec_tree Hosts.flat 1 "lib" "" (Examples.session Hosts.flat tt "/") =
    (@mkMachine Hosts.flat
       (moved (self (Examples.session Hosts.flat tt "/")) "/") tt
       ([tree_heading false "" "lib"]
          ++ imap (tree_file_line false 2) [("boot.py", "F"); ("main.py", "F")])%list
       []
       [event Pwd; event (Cd "lib"); event Ls; event Pwd; event (Cd "/")],
     Return tt).
Proof.
  refine (tree_of_files Hosts.flat 0 "lib" (Examples.session Hosts.flat tt "/")
            (mkFe "/" "esp8266" "ser:/dev/ttyUSB0") tt "lib" tt
            [("main.py", KFile); ("boot.py", KFile)] tt "/"
            eq_refl eq_refl eq_refl _ eq_refl).
  repeat constructor.
Defined.

(** ** The display order is canonical *)

Lemma string_ltb_asym (a b : string) :
  String.ltb a b = true -> String.ltb b a = true -> False.
Proof.
  unfold String.ltb. rewrite (String.compare_antisym a b).
  destruct (String.compare b a); simpl; congruence.
Qed.

Lemma string_ltb_irrefl (a : string) : String.ltb a a = false.
Proof.
  destruct (String.ltb a a) eqn:E; [|reflexivity].
  destruct (string_ltb_asym a a E E).
Qed.

(** Two sorted arrangements of the same entries are one arrangement. *)
Lemma sorted_unique {A} (R : A -> A -> Prop) (l1 l2 : list A) :
  (forall a b, R a b -> R b a -> a = b) ->
  StronglySorted R l1 -> StronglySorted R l2 -> Permutation l1 l2 -> l1 = l2.
Proof.
  intros Hanti H1. revert l2.
  induction H1 as [|x l1 Hl1 IH Hx]; intros l2 H2 Hp.
  - apply Permutation_nil in Hp. congruence.
  - destruct H2 as [|y l2 Hl2 Hy].
    + apply Permutation_sym, Permutation_nil in Hp. discriminate Hp.
    + assert (x = y) as ->.
      { assert (Hin1 : In x (y :: l2))
          by (eapply Permutation_in; [exact Hp|left; reflexivity]).
        assert (Hin2 : In y (x :: l1))
          by (eapply Permutation_in; [apply Permutation_sym; exact Hp|left; reflexivity]).
        destruct Hin1 as [->|Hin1]; [reflexivity|].
        destruct Hin2 as [->|Hin2]; [reflexivity|].
        rewrite Forall_forall in Hx, Hy.
        apply Hanti; [apply Hx|apply Hy]; apply list_elem_of_In; assumption. }
      f_equal. apply IH; [assumption|].
      eapply Permutation_cons_inv; eassumption.
Qed.

(** The order in which [ls] and [tree] show the entries of a directory
    does not depend on the order in which the device reports them: two
    listings with the same entries are displayed alike. *)
Theorem display_order_canonical (l1 l2 : list (string * string)) :
  Permutation l1 l2 -> display_order l1 = display_order l2.
Proof.
  intros Hp.
  apply (sorted_unique (by_key_then snd (by_key_then fst (fun _ _ => True)))).
  - intros [n1 k1] [n2 k2] [H1|[E1 H1]] [H2|[E2 H2]]; simpl in *.
    + destruct (string_ltb_asym _ _ H1 H2).
    + subst. rewrite string_ltb_irrefl in H1. discriminate H1.
    + subst. rewrite string_ltb_irrefl in H2. discriminate H2.
    + subst. destruct H1 as [H1|[E1' _]], H2 as [H2|[E2' _]]; simpl in *.
      * destruct (string_ltb_asym _ _ H1 H2).
      * subst. rewrite string_ltb_irrefl in H1. discriminate H1.
      * subst. rewrite string_ltb_irrefl in H2. discriminate H2.
      * subst. reflexivity.
  - unfold display_order. apply sorted_stable, sorted_stable, any_order_sorted.
  - unfold display_order. apply sorted_stable, sorted_stable, any_order_sorted.
  - rewrite !display_order_perm. assumption.
Qed.

(** Two reports of one directory. *)
Lemma display_order_witness :
  display_order [("main.py", "F"); ("lib", "D"); ("boot.py", "F")] =
  display_order [("lib", "D"); ("boot.py", "F"); ("main.py", "F")].
Proof.
  apply (display_order_canonical
           [("main.py", "F"); ("lib", "D"); ("boot.py", "F")]
           [("lib", "D"); ("boot.py", "F"); ("main.py", "F")]).
  apply (perm_trans (perm_swap _ _ _)). apply perm_skip. apply perm_swap.
Defined.

(** ** The number of names *)

Section Names.

Variable W : World.
Implicit Type m : Machine W.

Lemma too_many (n : nat) (l : list Token) :
  n < length l -> 0 < n ->
  falsy (Some (map value l)) = false /\
  (n <? list_len (Some (map value l)))%nat = true.
Proof.
  intros H Hn. split.
  - destruct l; simpl in *; [lia|reflexivity].
  - apply Nat.ltb_lt. simpl. rewrite length_map. assumption.
Qed.

(** For every command that parses names ([cd], [md], [rm], [rmr], [cat]
    and [mpyc] take one; [put], [putr], [get] and [getr] take two): when
    the argument is empty, or tokenizes with a rest, or names more than
    the command takes, the handler writes one error message and returns;
    the shell object, the world and the history of File Explorer calls
    are what they were. *)
Theorem too_many_names_no_round_trip c n args m :
  max_names c = Some n ->
  args = "" \/ snd (tokenize W args) <> ""
    \/ n < length (fst (tokenize W args)) ->
  exists msg,
    handler W c args m = (wrote m (error_text (color (self m)) msg), Return false).
Proof.
  intros Hc Hbad.
  destruct (String.eqb_spec args "") as [->|Hne].
  { destruct c; try discriminate Hc; simpl;
      unfold do_cd, do_md, do_rm, do_rmr, do_cat, do_mpyc, do_put, do_putr,
        do_get, do_getr, remove, transfer; simpl;
      unfold bind; rewrite error_wrote; eauto. }
  destruct Hbad as [Hbad|Hbad]; [contradiction|].
  assert (Hargs : (String.length args =? 0)%nat = false)
    by (apply length_nonzero; assumption).
  destruct c; inversion Hc; subst n; simpl;
    unfold do_cd, do_md, do_rm, do_rmr, do_cat, do_mpyc, do_put, do_putr,
      do_get, do_getr, remove, transfer;
    rewrite Hargs; unfold bind at 1.
  all: try (destruct (fe (self m)) as [f|] eqn:Hfe;
            [ rewrite (is_open_session W m f Hfe)
            | rewrite (is_open_closed W m Hfe); eauto ]).
  all: unfold try_except, bind.
  all: destruct (String.eqb_spec (snd (tokenize W args)) "") as [Hrest|Hrest];
    [ rewrite (parse_tokens W args m Hrest);
      destruct Hbad as [Hbad|Hbad]; [contradiction|];
      match goal with
      | |- context [(?k <? list_len _)%nat] =>
          destruct (too_many k _ Hbad ltac:(lia)) as [-> ->]
      end;
      rewrite error_wrote; eauto
    | rewrite (parse_rest W args m Hrest); simpl; eauto ].
Qed.

(** An argument that is not empty but holds no name, such as blanks the
    tokenizer drops: the handler returns without a message and without a
    File Explorer call, the machine is unchanged. *)
Theorem no_name_is_ignored c n args m :
  max_names c = Some n ->
  (c = c_mpyc \/ fe (self m) <> None) ->
  args <> "" ->
  tokenize W args = ([], "") ->
  handler W c args m = (m, Return false).
Proof.
  intros Hc Hfe Hne Htok.
  assert (Hargs := length_nonzero _ Hne).
  assert (Hparse : __parse_file_names W args m = (m, Return (Some []))).
  { rewrite parse_tokens; rewrite Htok; reflexivity. }
  destruct c; inversion Hc; subst n; simpl;
    unfold do_cd, do_md, do_rm, do_rmr, do_cat, do_mpyc, do_put, do_putr,
      do_get, do_getr, remove, transfer;
    rewrite Hargs; unfold bind at 1.
  all: try (destruct Hfe as [Hfe|Hfe]; [discriminate Hfe|];
            destruct (fe (self m)) as [f|] eqn:Hf; [|contradiction];
            rewrite (is_open_session W m f Hf)).
  all: unfold try_except, bind; rewrite Hparse; reflexivity.
Qed.

(** [mpyc] is the one command that names a file and does not ask whether
    a session is open: with no session and one name, the call on the
    absent File Explorer raises an [AttributeError], which the handler's
    [except IOError] does not catch; nothing is written. *)
Theorem mpyc_without_session_raises args name m :
  fe (self m) = None ->
  args <> "" ->
  snd (tokenize W args) = "" ->
  map value (fst (tokenize W args)) = [name] ->
  do_mpyc W args m = (m, Raise (no_attribute "mpy_cross")).
Proof.
  intros Hfe Hne Hrest Hname.
  unfold do_mpyc. rewrite (length_nonzero _ Hne).
  unfold bind at 1. rewrite (parse_tokens W args m Hrest), Hname.
  cbn [falsy list_len length Nat.ltb Nat.leb].
  unfold try_except, bind, arg, lift, fe_invoke. cbn. rewrite Hfe. cbn.
  unfold isinstance. cbn. unfold raise. reflexivity.
Qed.

End Names.

(** [put a b c] *)
Lemma too_many_names_witness :
  max_names c_put = Some 2 /\
  exists msg,
    handler Examples.linux c_put "a b c" (Examples.session Examples.linux tt "/") =
      (wrote (Examples.session Examples.linux tt "/") (error_text false msg),
       Return false).
Proof.
  split; [reflexivity|].
  apply (too_many_names_no_round_trip Examples.linux c_put 2 "a b c"
           (Examples.session Examples.linux tt "/") eq_refl).
  right; right. vm_compute. lia.
Defined.

(** [rm] with a blank for an argument. *)
Lemma no_name_witness :
  tokenize Examples.linux " " = ([], "") /\
  handler Examples.linux c_rm " " (Examples.session Examples.linux tt "/") =
    (Examples.session Examples.linux tt "/", Return false).
Proof.
  split; [reflexivity|].
  apply (no_name_is_ignored Examples.linux c_rm 1 " "
           (Examples.session Examples.linux tt "/") eq_refl).
  - right. discriminate.
  - discriminate.
  - reflexivity.
Defined.

(** [mpyc main.py] before any [open]. *)
Lemma mpyc_without_session_witness :
  do_mpyc Examples.linux "main.py" (Examples.closed Examples.linux tt) =
    (Examples.closed Examples.linux tt, Raise (no_attribute "mpy_cross")).
Proof.
  apply (mpyc_without_session_raises Examples.linux "main.py" "main.py"
           (Examples.closed Examples.linux tt) eq_refl).
  - discriminate.
  - reflexivity.
  - reflexivity.
Defined.

(** ** Success is silent *)

Section Success.

Variable W : World.
Implicit Type m : Machine W.

Lemma fe_invoke_returns {A} (c : fe_call A) m f d' a :
  fe (self m) = Some f ->
  remote W c f (dev m) = (d', Return a) ->
  fe_invoke W c m = (called m (event c) d', Return a).
Proof.
  intros Hfe Hc. unfold fe_invoke. rewrite Hfe, Hc. reflexivity.
Qed.

(** For [md], [put], [putr], [mput], [get], [getr], [mget], [rm], [rmr],
    [mrm] and [mpyc] on an open session: when the File Explorer call the
    argument leads to succeeds, the handler makes that one call and
    returns; it writes nothing, logs nothing and leaves the shell object
    alone. *)
Theorem success_is_silent c args m f ev d' :
  silent c = true ->
  fe (self m) = Some f ->
  delegated c args m = Some ev ->
  answered ev f (dev m) d' ->
  handler W c args m = (called m ev d', Return false).
Proof.
  intros Hc Hfe Hdel [a Hok].
  unfold delegated in Hdel.
  destruct (String.eqb_spec args "") as [|Hne]; [discriminate Hdel|].
  assert (Hargs := length_nonzero _ Hne).
  destruct c; try discriminate Hc; simpl handler;
    unfold do_md, do_put, do_putr, do_get, do_getr, do_mput, do_mget,
      do_mrm, do_rm, do_rmr, do_mpyc, transfer, selection, remove;
    rewrite Hargs; unfold bind at 1; rewrite ?(is_open_session W m f Hfe).
  all: try (destruct (String.eqb_spec (snd (tokenize W args)) "") as [Hrest|Hrest];
            [simpl in Hdel|discriminate Hdel]).
  all: try (apply one_name_inv in Hdel; destruct Hdel as (x & Hnames & ->)).
  all: try (apply one_or_two_names_inv in Hdel;
            destruct Hdel as (x & dst & Hnames & ->)).
  all: try (inversion Hdel; subst ev; clear Hdel).
  all: simpl in Hok.
  all: unfold try_except; unfold bind at 1;
    rewrite ?(parse_tokens W args m Hrest).
  all: try rewrite Hnames.
  all: try (destruct Hnames as [[Hn ->]|(b & Hn & ->)]; rewrite Hn).
  all: unfold second_arg, arg, bind, lift, ret, fe_invoke;
    cbn -[remote called]; rewrite Hfe, Hok; reflexivity.
Qed.

End Success.

(** [md x] on a device that obeys. *)
Lemma success_is_silent_witness :
  handler Examples.linux c_md "x" (Examples.session Examples.linux tt "/") =
    (called (Examples.session Examples.linux tt "/") (event (Md "x")) tt,
     Return false).
Proof.
  apply (success_is_silent Examples.linux c_md "x"
           (Examples.session Examples.linux tt "/")
           (mkFe "/" "esp8266" "ser:/dev/ttyUSB0") (event (Md "x")) tt
           eq_refl eq_refl eq_refl).
  exists tt. reflexivity.
Defined.

(** ** Opening: failure and replacement *)

Section Connecting.

Variable W : World.
Implicit Type m : Machine W.

Lemma open_connects args m :
  args <> "" ->
  do_open W args m =
    bind W (__connect W (target_of W args)) (fun _ => ret W false) m.
Proof.
  intros Hne. unfold do_open, target_of. rewrite (length_nonzero _ Hne).
  destruct (String.prefix "ser:/dev/" args), (String.prefix "ser:COM" args),
    (String.prefix "tn:" args), (String.prefix "ws:" args); reflexivity.
Qed.

(** [open] with no session, when the connection fails with a
    [PyboardError], a [ConError] or an [AttributeError]: the exception is
    logged, one error message is written (the exception's text for a
    [PyboardError], "Failed to open: " and the normalised target
    otherwise) after the reset notice if a reset was asked for, and the
    handler returns with the shell object unchanged, so still without a
    session. *)
Theorem failed_open_is_reported args m d' e :
  fe (self m) = None ->
  args <> "" ->
  connect W (caching (self m)) (target_of W args) (reset (self m)) (dev m)
    = (d', Raise e) ->
  exn_cls e = PyboardError \/ exn_cls e = ConError
    \/ exn_cls e = Builtin AttributeError ->
  do_open W args m =
    (mkMachine (self m) d'
       (stdout m ++ reset_notice (self m)
          ++ [error_text (color (self m)) (connect_report (target_of W args) e)])
       (errlog m ++ [exn_str e]) (calls m),
     Return false).
Proof.
  intros Hfe Hne Hcon Hcls.
  rewrite (open_connects args m Hne).
  unfold bind at 1. unfold __connect, try_except.
  unfold bind at 1. rewrite (disconnect_closed W m Hfe).
  unfold bind at 1, get_self at 1.
  unfold reset_notice, connect_report.
  destruct (reset (self m)) eqn:Hreset.
  - unfold bind at 1, print at 1, write at 1.
    unfold bind at 1. cbn [self dev stdout errlog calls]. rewrite Hcon.
    cbn [dispatch]. unfold isinstance.
    destruct Hcls as [Hc|[Hc|Hc]]; rewrite Hc;
      cbn -[__error error_text String.append];
      unfold bind, logging_error;
      cbn -[__error error_text String.append]; rewrite error_wrote;
      unfold wrote; cbn -[error_text String.append];
      rewrite <- !app_assoc; reflexivity.
  - unfold bind at 1, ret at 1.
    unfold bind at 1. rewrite Hcon.
    cbn [dispatch]. unfold isinstance.
    destruct Hcls as [Hc|[Hc|Hc]]; rewrite Hc;
      cbn -[__error error_text String.append];
      unfold bind, logging_error;
      cbn -[__error error_text String.append]; rewrite error_wrote;
      unfold wrote; cbn -[error_text String.append]; reflexivity.
Qed.

(** [open] on an open session, when closing it and connecting succeed:
    the old session is closed first (the only File Explorer call), the
    new one takes its place, the prompt shows the root directory, and
    after the reset notice, if any, the line "Connected to" with the
    system name of the new device is written. *)
Theorem open_replaces_session args m f d1 d2 f' :
  fe (self m) = Some f ->
  args <> "" ->
  remote W Close f (dev m) = (d1, Return tt) ->
  connect W (caching (self m)) (target_of W args) (reset (self m)) d1
    = (d2, Return f') ->
  do_open W args m =
    (mkMachine
       (mkShell (color (self m)) (caching (self m)) (reset (self m)) (Some f')
          (repl (self m)) (prompt_for (color (self m)) "/"))
       d2
       (stdout m ++ reset_notice (self m)
          ++ [("Connected to " +:+ sysname f') +:+ nl])
       (errlog m) (calls m ++ [event Close]),
     Return false).
Proof.
  intros Hfe Hne Hclose Hcon.
  rewrite (open_connects args m Hne).
  unfold bind at 1. unfold __connect, try_except.
  unfold bind at 1. rewrite (disconnect_session W m f d1 Hfe Hclose).
  unfold bind at 1, get_self at 1. cbn [self reset caching].
  unfold reset_notice.
  destruct (reset (self m)) eqn:Hreset.
  - unfold bind at 1, print at 1, write at 1.
    unfold bind at 1. cbn [self dev stdout errlog calls]. rewrite Hcon.
    unfold bind, set_fe, bind, get_self, set_self, fe_attr, bind, get_self,
      print, write, ret. cbn -[String.append prompt_for].
    rewrite <- !app_assoc. reflexivity.
  - unfold bind at 1, ret at 1.
    unfold bind at 1. cbn [self dev stdout errlog calls]. rewrite Hcon.
    unfold bind, set_fe, bind, get_self, set_self, fe_attr, bind, get_self,
      print, write, ret. cbn -[String.append prompt_for]. reflexivity.
Qed.

End Connecting.

(** [open ttyUSB0] where no port opens. *)
Lemma failed_open_witness :
  do_open Hosts.unplugged "ttyUSB0" (Examples.closed Hosts.unplugged tt) =
    (@mkMachine Hosts.unplugged (self (Examples.closed Hosts.unplugged tt)) tt
       [error_text false "Failed to open: ser:/dev/ttyUSB0"]
       ["could not open port /dev/ttyUSB0"] [],
     Return false).
Proof.
  refine (failed_open_is_reported Hosts.unplugged "ttyUSB0"
            (Examples.closed Hosts.unplugged tt) tt Hosts.no_such_port
            eq_refl _ eq_refl _).
  - discriminate.
  - right; left. reflexivity.
Defined.

(** [open ttyUSB1] on a session in [/lib]. *)
Lemma open_replaces_witness :
  do_open Examples.linux "ttyUSB1" (Examples.session Examples.linux tt "/lib") =
    (@mkMachine Examples.linux
       (mkShell false true false (Some (mkFe "/" "esp8266" "ser:/dev/ttyUSB1"))
          None (prompt_for false "/"))
       tt ["Connected to esp8266" +:+ nl] [] [event Close],
     Return false).
Proof.
  refine (open_replaces_session Examples.linux "ttyUSB1"
            (Examples.session Examples.linux tt "/lib")
            (mkFe "/lib" "esp8266" "ser:/dev/ttyUSB0") tt tt
            (mkFe "/" "esp8266" "ser:/dev/ttyUSB1") eq_refl _ eq_refl eq_refl).
  discriminate.
Defined.

(** ** Completion of [open] *)

Lemma prefix_split (p s : string) :
  String.prefix p s = true -> exists r, s = p +:+ r.
Proof.
  revert s. induction p as [|c p IH]; intros s H.
  - exists s. reflexivity.
  - destruct s as [|c' s]; [discriminate H|].
    simpl in H. destruct (ascii_dec c c') as [->|]; [|discriminate H].
    destruct (IH s H) as [r ->]. exists r. reflexivity.
Qed.

Lemma prefix_append (p r : string) : String.prefix p (p +:+ r) = true.
Proof.
  induction p as [|c p IH]; simpl.
  - destruct r; reflexivity.
  - destruct (ascii_dec c c); [assumption|contradiction].
Qed.

Lemma substring_all (s : string) : String.substring 0 (String.length s) s = s.
Proof. induction s as [|c s IH]; simpl; [reflexivity|]. rewrite IH. reflexivity. Qed.

Lemma from_fifth_dev (r : string) : from_fifth ("/dev/" +:+ r) = r.
Proof.
  unfold from_fifth.
  change ("/dev/" +:+ r)
    with (String "/" (String "d" (String "e" (String "v" (String "/" r))))).
  cbn [String.length Nat.sub String.substring]. rewrite Nat.sub_0_r.
  apply substring_all.
Qed.

Section Completion.


Variable W : World.
Implicit Type m : Machine W.

(** What [complete_open] proposes, [open] connects to.  With [usb] and
    [acm] the device files found for the two patterns, every proposal
    starts with the text typed, is the name of one of the device files
    without its [/dev/], and on a host other than Windows [open] of the
    proposal connects to that very device file over the serial scheme. *)
Theorem completed_port_opens usb acm text c m :
  Forall (fun i => String.prefix "/dev/ttyUSB" i = true) usb ->
  Forall (fun i => String.prefix "/dev/ttyACM" i = true) acm ->
  String.eqb (platform_system W) "Windows" = false ->
  In c (complete_open usb acm text) ->
  String.prefix text c = true /\
  In ("/dev/" +:+ c) (usb ++ acm) /\
  do_open W c m =
    bind W (__connect W ("ser:" +:+ ("/dev/" +:+ c))) (fun _ => ret W false) m.
Proof.
  intros Husb Hacm Hsys Hin.
  unfold complete_open in Hin. apply in_map_iff in Hin.
  destruct Hin as (i & <- & Hi). apply filter_In in Hi. destruct Hi as [Hi Hpre].
  assert (Hdev : exists r, i = "/dev/" +:+ r /\
                           (String.prefix "ttyUSB" r = true
                            \/ String.prefix "ttyACM" r = true)).
  { apply in_app_or in Hi. rewrite Forall_forall in Husb, Hacm.
    destruct Hi as [Hi|Hi].
    - apply list_elem_of_In, Husb, prefix_split in Hi. destruct Hi as [r ->].
      exists ("ttyUSB" +:+ r). split; [reflexivity|]. left. apply prefix_append.
    - apply list_elem_of_In, Hacm, prefix_split in Hi. destruct Hi as [r ->].
      exists ("ttyACM" +:+ r). split; [reflexivity|]. right. apply prefix_append. }
  destruct Hdev as (r & -> & Htty).
  rewrite from_fifth_dev in *.
  split; [assumption|]. split; [assumption|].
  assert (Hne : r <> "") by (intros ->; destruct Htty as [H|H]; discriminate H).
  rewrite (open_connects W r m Hne). unfold target_of. rewrite Hsys.
  assert (Hplain : String.prefix "ser:/dev/" r || String.prefix "ser:COM" r
                   || String.prefix "tn:" r || String.prefix "ws:" r = false).
  { destruct Htty as [H|H]; apply prefix_split in H; destruct H as [r' ->];
      reflexivity. }
  rewrite Hplain. reflexivity.
Qed.

End Completion.

(** Completing [ttyU] with one USB and one ACM port plugged in. *)
Lemma completed_port_witness :
  In "ttyUSB0" (complete_open ["/dev/ttyUSB0"] ["/dev/ttyACM0"] "ttyU") /\
  do_open Examples.linux "ttyUSB0" (Examples.closed Examples.linux tt) =
    bind Examples.linux (__connect Examples.linux "ser:/dev/ttyUSB0")
      (fun _ => ret Examples.linux false) (Examples.closed Examples.linux tt).
Proof.
  split; [left; reflexivity|].
  refine (proj2 (proj2 (completed_port_opens Examples.linux
                          ["/dev/ttyUSB0"] ["/dev/ttyACM0"] "ttyU" "ttyUSB0"
                          (Examples.closed Examples.linux tt) _ _ eq_refl _))).
  - repeat constructor.
  - repeat constructor.
  - left. reflexivity.
Defined.

(** ** The terminal session *)

Section Repl.

Variable W : World.
Implicit Type m : Machine W.

(** [repl] on an open session with a PySerial that is recent enough,
    when the teardown, the start of the terminal, its cleanup and the
    setup succeed: whether the terminal session ends normally or with an
    exception that [except Exception] catches, the handler cleans the
    console up, sets the File Explorer up again and returns.  The File
    Explorer is called twice, [teardown] then [setup]; the terminal is a
    fresh one on first use and the kept one, pointed at the current
    connection, afterwards; the hint names the terminal's exit key. *)
Theorem repl_sets_up_again args m f d1 d2 d3 d4 d5 joined :
  serial_too_old W = Return false ->
  fe (self m) = Some f ->
  remote W Teardown f (dev m) = (d1, Return tt) ->
  term W TermStart d1 = (d2, Return tt) ->
  term W TermJoin d2 = (d3, joined) ->
  join_ended W joined ->
  term W TermCleanup d3 = (d4, Return tt) ->
  remote W Setup f d4 = (d5, Return tt) ->
  do_repl W args m =
    (mkMachine
       (mkShell (color (self m)) (caching (self m)) (reset (self m)) (Some f)
          (Some (terminal_for W (self m) f)) (prompt (self m)))
       d5
       (stdout m
          ++ [exit_hint (exit_character (terminal_for W (self m) f)); nl])
       (errlog m)
       (calls m ++ [event Teardown; event Setup]),
     Return false).
Proof.
  intros Hver Hfe Htear Hstart Hjoin Hended Hclean Hsetup.
  unfold do_repl. unfold bind at 1, lift at 1. rewrite Hver. cbn iota.
  unfold bind at 1. rewrite (is_open_session W m f Hfe). cbn iota.
  unfold bind at 1, get_self at 1.
  unfold bind at 1.
  assert (Hterm :
    (match repl (self m) with
     | None =>
         bind W (fe_attr W "con" con)
           (fun c => set_repl W (Some (mkTerm c
              (if String.eqb (platform_system W) "Windows" then chr 17 else chr 29)
              true "UTF-8" "UTF-8")))
     | Some t =>
         bind W (fe_attr W "con" con)
           (fun c => set_repl W (Some (mkTerm c (exit_character t) (raw t)
              (rx_encoding t) (tx_encoding t))))
     end) m =
    (mkMachine
       (mkShell (color (self m)) (caching (self m)) (reset (self m)) (Some f)
          (Some (terminal_for W (self m) f)) (prompt (self m)))
       (dev m) (stdout m) (errlog m) (calls m), Return tt)).
  { unfold terminal_for, fresh_exit_character.
    destruct (repl (self m)) as [t|];
      unfold bind, fe_attr, bind, get_self, set_repl, bind, get_self, set_self, ret;
      cbn [self]; rewrite Hfe; cbn [self fe color caching reset prompt];
      rewrite Hfe; reflexivity. }
  rewrite Hterm. clear Hterm.
  unfold bind at 1. unfold fe_invoke at 1. cbn [self fe dev]. rewrite Htear.
  unfold bind at 1. unfold term_invoke at 1. cbn [dev]. rewrite Hstart.
  unfold bind at 1, get_self at 1. cbn [self repl].
  unfold bind at 1.
  set (t := terminal_for W (self m) f).
  assert (Hhint : forall m0 : Machine W,
    (if String.eqb (exit_character t) (chr 17)
     then print W (nl +:+ "*** Exit REPL with Ctrl+Q ***")
     else print W (nl +:+ "*** Exit REPL with Ctrl+] ***")) m0 =
    (wrote m0 (exit_hint (exit_character t)), Return tt)).
  { intros m0. unfold exit_hint.
    destruct (String.eqb (exit_character t) (chr 17)); reflexivity. }
  rewrite Hhint. clear Hhint. unfold wrote. cbn [self dev stdout errlog calls].
  unfold bind at 1. unfold try_except, term_invoke at 1. cbn [dev]. rewrite Hjoin.
  assert (Hafter : forall m0 : Machine W,
    (match joined with
     | Return a => (m0, Return a)
     | Raise e => dispatch W [(Builtin Exception, fun _ => ret W tt)] e m0
     end) = (m0, Return tt)).
  { intros m0. destruct joined as [[]|e]; [reflexivity|].
    cbn [dispatch]. simpl in Hended. rewrite Hended. reflexivity. }
  rewrite Hafter. clear Hafter.
  unfold bind at 1. unfold term_invoke at 1. cbn [dev]. rewrite Hclean.
  unfold bind at 1. unfold fe_invoke at 1. cbn [self fe dev]. rewrite Hsetup.
  unfold bind, print, write, ret. cbn [self dev stdout errlog calls].
  rewrite <- !app_assoc. reflexivity.
Qed.

End Repl.

(** The first [repl] of a session. *)
Lemma repl_witness :
  do_repl Examples.linux "" (Examples.session Examples.linux tt "/") =
    (@mkMachine Examples.linux
       (mkShell false true false (Some (mkFe "/" "esp8266" "ser:/dev/ttyUSB0"))
          (Some (mkTerm "ser:/dev/ttyUSB0" (chr 29) true "UTF-8" "UTF-8"))
          (prompt_for false "/"))
       tt [exit_hint (chr 29); nl] [] [event Teardown; event Setup],
     Return false).
Proof.
  refine (repl_sets_up_again Examples.linux ""
            (Examples.session Examples.linux tt "/")
            (mkFe "/" "esp8266" "ser:/dev/ttyUSB0") tt tt tt tt tt (Return tt)
            _ eq_refl eq_refl eq_refl eq_refl _ eq_refl eq_refl).
  - vm_compute. reflexivity.
  - exact I.
Defined.

(** ** The command line *)

Lemma chars_rev_app (s t : string) :
  chars (String.rev_app s t) = rev_append (chars s) (chars t).
Proof.
  revert t. induction s as [|c s IH]; intros t; simpl; [reflexivity|].
  rewrite IH. reflexivity.
Qed.

Lemma chars_rev (s : string) : chars (String.rev s) = reverse (chars s).
Proof. apply chars_rev_app. Qed.

Lemma lstrip_space_suffix py3 (s : string) :
  exists pre, chars s = (pre ++ chars (lstrip_space py3 s))%list.
Proof.
  induction s as [|c s [pre IH]]; simpl.
  - exists []. reflexivity.
  - destruct (isspace py3 c).
    + exists (c :: pre). simpl. rewrite IH. reflexivity.
    + exists []. reflexivity.
Qed.

Lemma lstrip_space_head py3 (s : string) c :
  head (chars (lstrip_space py3 s)) = Some c -> isspace py3 c = false.
Proof.
  induction s as [|a s IH]; simpl; [discriminate|].
  destruct (isspace py3 a) eqn:E; [assumption|].
  simpl. intros H. inversion H; subst. assumption.
Qed.

(** Stripping cuts a piece out of the string. *)
Lemma strip_space_infix py3 (s : string) :
  exists pre post, chars s = (pre ++ chars (strip_space py3 s) ++ post)%list.
Proof.
  unfold strip_space.
  destruct (lstrip_space_suffix py3 s) as [pre Hpre].
  destruct (lstrip_space_suffix py3 (String.rev (lstrip_space py3 s)))
    as [post Hpost].
  exists pre, (reverse post). rewrite Hpre. f_equal.
  rewrite chars_rev. rewrite chars_rev in Hpost.
  apply (f_equal reverse) in Hpost.
  rewrite reverse_involutive, reverse_app in Hpost. exact Hpost.
Qed.

Lemma strip_space_last py3 (s : string) c :
  last (chars (strip_space py3 s)) = Some c -> isspace py3 c = false.
Proof.
  unfold strip_space. rewrite chars_rev, last_reverse.
  apply lstrip_space_head.
Qed.

Lemma strip_space_head py3 (s : string) c :
  head (chars (strip_space py3 s)) = Some c -> isspace py3 c = false.
Proof.
  unfold strip_space. rewrite chars_rev, head_reverse.
  set (t := lstrip_space py3 s).
  intros Hlast.
  destruct (lstrip_space_suffix py3 (String.rev t)) as [pre Hpre].
  rewrite chars_rev in Hpre.
  assert (Hl : last (reverse (chars t)) = Some c).
  { rewrite Hpre. apply last_app_Some. left. assumption. }
  rewrite last_reverse in Hl. apply (lstrip_space_head py3 s c Hl).
Qed.

(** No piece of [s.split(sep)] holds the separator. *)
Lemma split_no_separator (sep : ascii) (s w : string) :
  In w (split sep s) -> ~ In sep (chars w).
Proof.
  revert w. induction s as [|c s IH]; intros w; simpl.
  - intros [<-|[]]. simpl. tauto.
  - destruct (Ascii.eqb_spec c sep) as [->|Hne].
    + intros [<-|Hin]; [simpl; tauto|apply IH; assumption].
    + destruct (split sep s) as [|w0 ws] eqn:E.
      * intros [<-|[]]. simpl. intros [H|[]]. congruence.
      * intros [<-|Hin].
        -- simpl. intros [H|H]; [congruence|].
           apply (IH w0); [left; reflexivity|assumption].
        -- apply IH. right. assumption.
Qed.

Lemma positive_length (s : string) :
  (0 <? String.length s)%nat = true -> s <> "".
Proof. destruct s; discriminate. Qed.

Section CommandLine.


Variable W : World.

Lemma for_each_filtered {A} (keep : A -> bool) (act : A -> M W unit)
    (l : list A) i j m :
  for_each W l i (fun _ x => if keep x then act x else ret W tt) m =
  for_each W (List.filter keep l) j (fun _ x => act x) m.
Proof.
  revert i j m. induction l as [|x l IH]; intros i j m; simpl; [reflexivity|].
  destruct (keep x); simpl.
  - unfold bind. destruct (act x m) as [m1 [[]|e]]; [apply IH|reflexivity].
  - unfold bind, ret. apply IH.
Qed.

Lemma for_each_map {A B} (g : A -> B) (act : nat -> B -> M W unit)
    (l : list A) i m :
  for_each W l i (fun k x => act k (g x)) m = for_each W (map g l) i act m.
Proof.
  revert i m. induction l as [|x l IH]; intros i m; simpl; [reflexivity|].
  unfold bind. destruct (act i (g x) m) as [m1 [[]|e]]; [apply IH|reflexivity].
Qed.

(** The [-c] loop of [main] runs the shell on the command lines of the
    joined arguments, in order, one after the other until one raises, and
    ignores what each returns.  Every line it passes on is clean: not
    empty, not a comment, without a semicolon, and with no white space at
    either end. *)
Theorem commands_are_cleaned (onecmd : string -> M W bool) command m :
  run_commands W onecmd command m =
    for_each W (command_lines (python3 W) command) 0
      (fun _ scmd => bind W (onecmd scmd) (fun _ => ret W tt)) m
  /\ Forall (clean (python3 W)) (command_lines (python3 W) command).
Proof.
  split.
  - unfold run_commands, command_lines.
    rewrite (for_each_map (strip_space (python3 W))
               (fun _ scmd =>
                  if (0 <? String.length scmd)%nat
                     && negb (String.prefix "#" scmd)
                  then bind W (onecmd scmd) (fun _ => ret W tt)
                  else ret W tt)).
    apply (for_each_filtered
             (fun scmd => (0 <? String.length scmd)%nat
                          && negb (String.prefix "#" scmd))
             (fun scmd => bind W (onecmd scmd) (fun _ => ret W tt))).
  - unfold command_lines. apply Forall_forall. intros scmd Hin.
    apply list_elem_of_In, filter_In in Hin. destruct Hin as [Hin Hkeep].
    apply andb_true_iff in Hkeep. destruct Hkeep as [Hlen Hhash].
    apply in_map_iff in Hin. destruct Hin as (cmd & <- & Hcmd).
    repeat split.
    + apply positive_length. assumption.
    + apply negb_true_iff. assumption.
    + intros Hsemi.
      destruct (strip_space_infix (python3 W) cmd) as (pre & post & Hcut).
      apply (split_no_separator _ _ _ Hcmd). unfold chars in *.
      rewrite Hcut. apply in_or_app. right. apply in_or_app. left. assumption.
    + apply strip_space_head.
    + apply strip_space_last.
Qed.

End CommandLine.

(** ** When closing fails *)

Section ClosingFails.

Variable W : World.
Implicit Type m : Machine W.

(** [__disconnect] when [close()] raises. *)
Lemma disconnect_fails m f d' e :
  fe (self m) = Some f ->
  remote W Close f (dev m) = (d', Raise e) ->
  __disconnect W m =
    if isinstance W e RemoteIOError
    then (wrote (called m (event Close) d') (error_text (color (self m)) (exn_str e)),
          Return tt)
    else (called m (event Close) d', Raise e).
Proof.
  intros Hfe Hclose.
  unfold __disconnect. unfold bind at 1, get_self at 1. rewrite Hfe.
  unfold try_except. unfold bind at 1. unfold fe_invoke. rewrite Hfe, Hclose.
  cbn [dispatch].
  destruct (isinstance W e RemoteIOError); [|reflexivity].
  rewrite error_wrote. reflexivity.
Qed.

(** [close] and [exit] on a session whose [close()] raises.  If the
    exception is a [RemoteIOError], it is reported with one message and
    the handler returns, [exit] still with the answer that ends the
    command loop; the shell object is unchanged, so the session stays
    referenced and the prompt stays as it was.  Any other exception
    leaves the handler, with nothing written. *)
Theorem failed_close_keeps_session args m f d' e :
  fe (self m) = Some f ->
  remote W Close f (dev m) = (d', Raise e) ->
  (isinstance W e RemoteIOError = true ->
   do_close W args m =
     (wrote (called m (event Close) d') (error_text (color (self m)) (exn_str e)),
      Return false) /\
   do_exit W args m =
     (wrote (called m (event Close) d') (error_text (color (self m)) (exn_str e)),
      Return true)) /\
  (isinstance W e RemoteIOError = false ->
   do_close W args m = (called m (event Close) d', Raise e) /\
   do_exit W args m = (called m (event Close) d', Raise e)).
Proof.
  intros Hfe Hclose. unfold do_close, do_exit, bind.
  rewrite (disconnect_fails m f d' e Hfe Hclose).
  split; intros ->; split; reflexivity.
Qed.

(** [open] on a session whose [close()] raises a [RemoteIOError]: the
    error is reported, and the connection is made all the same.  The new
    File Explorer replaces the old one, but the prompt is not computed
    again: it still shows the directory of the session that was left. *)
Theorem open_after_failed_close args m f d1 e d2 f' :
  fe (self m) = Some f ->
  args <> "" ->
  remote W Close f (dev m) = (d1, Raise e) ->
  isinstance W e RemoteIOError = true ->
  connect W (caching (self m)) (target_of W args) (reset (self m)) d1
    = (d2, Return f') ->
  do_open W args m =
    (mkMachine
       (mkShell (color (self m)) (caching (self m)) (reset (self m)) (Some f')
          (repl (self m)) (prompt (self m)))
       d2
       (stdout m ++ [error_text (color (self m)) (exn_str e)]
          ++ reset_notice (self m)
          ++ [("Connected to " +:+ sysname f') +:+ nl])
       (errlog m) (calls m ++ [event Close]),
     Return false).
Proof.
  intros Hfe Hne Hclose Hinst Hcon.
  rewrite (open_connects W args m Hne).
  unfold bind at 1. unfold __connect, try_except.
  unfold bind at 1. rewrite (disconnect_fails m f d1 e Hfe Hclose), Hinst.
  unfold bind at 1, get_self at 1. unfold wrote, called.
  cbn [self dev stdout errlog calls reset caching].
  unfold reset_notice.
  destruct (reset (self m)) eqn:Hreset.
  - unfold bind at 1, print at 1, write at 1.
    unfold bind at 1. cbn [self dev stdout errlog calls]. rewrite Hcon.
    unfold bind, set_fe, bind, get_self, set_self, fe_attr, bind, get_self,
      print, write, ret. cbn -[String.append error_text].
    rewrite ?Hreset, <- !app_assoc. reflexivity.
  - unfold bind at 1, ret at 1.
    unfold bind at 1. cbn [self dev stdout errlog calls]. rewrite Hcon.
    unfold bind, set_fe, bind, get_self, set_self, fe_attr, bind, get_self,
      print, write, ret. cbn -[String.append error_text].
    rewrite ?Hreset, <- !app_assoc. reflexivity.
Qed.

End ClosingFails.

(** [exit] on a device that does not answer [close]. *)
Lemma failed_close_witness :
  do_exit Hosts.clinging "" (Examples.session Hosts.clinging tt "/lib") =
    (wrote (called (Examples.session Hosts.clinging tt "/lib") (event Close) tt)
       (error_text false "no answer to close"),
     Return true).
Proof.
  apply (proj2 (proj1 (failed_close_keeps_session Hosts.clinging ""
                         (Examples.session Hosts.clinging tt "/lib")
                         (mkFe "/lib" "esp8266" "ser:/dev/ttyUSB0") tt
                         Hosts.no_answer eq_refl eq_refl)
                  eq_refl)).
Defined.

(** [open ttyUSB1] on that device, from [/lib]: the prompt still names
    [/lib]. *)
Lemma open_after_failed_close_witness :
  do_open Hosts.clinging "ttyUSB1" (Examples.session Hosts.clinging tt "/lib") =
    (@mkMachine Hosts.clinging
       (mkShell false true false (Some (mkFe "/" "esp8266" "ser:/dev/ttyUSB1"))
          None (prompt_for false "/lib"))
       tt
       [error_text false "no answer to close"; "Connected to esp8266" +:+ nl]
       [] [event Close],
     Return false).
Proof.
  refine (open_after_failed_close Hosts.clinging "ttyUSB1"
            (Examples.session Hosts.clinging tt "/lib")
            (mkFe "/lib" "esp8266" "ser:/dev/ttyUSB0") tt Hosts.no_answer tt
            (mkFe "/" "esp8266" "ser:/dev/ttyUSB1") eq_refl _ eq_refl eq_refl
            eq_refl).
  discriminate.
Defined.

(** ** What [cat] and [exec] print *)

Section Output.

Variable W : World.
Implicit Type m : Machine W.

(** [cat] on an open session with one name, when reading the file
    succeeds: the handler makes that one call, prints the content
    followed by a newline, and returns. *)
Theorem cat_prints_content args name m f d' text :
  fe (self m) = Some f ->
  args <> "" ->
  snd (tokenize W args) = "" ->
  map value (fst (tokenize W args)) = [name] ->
  remote W (Gets name) f (dev m) = (d', Return text) ->
  do_cat W args m =
    (wrote (called m (event (Gets name)) d') (text +:+ nl), Return false).
Proof.
  intros Hfe Hne Hrest Hname Hgets.
  unfold do_cat. rewrite (length_nonzero _ Hne).
  unfold bind at 1. rewrite (is_open_session W m f Hfe).
  unfold bind at 1. rewrite (parse_tokens W args m Hrest), Hname.
  cbn [falsy list_len length Nat.ltb Nat.leb].
  unfold try_except, bind, arg, lift, fe_invoke. cbn -[String.append].
  rewrite Hfe, Hgets. reflexivity.
Qed.

(** [exec] when a fragment of the output does not decode: the fragments
    before it have been written, nothing after it is, and the decoder's
    exception leaves the handler unless it is an [IOError] or a
    [PyboardError], the two classes [do_exec] catches. *)
Theorem exec_stops_at_undecodable args m f d1 d2 pre bad post texts out err e :
  fe (self m) = Some f ->
  args <> "" ->
  remote W (ExecRawNoFollow (args +:+ nl)) f (dev m) = (d1, Return tt) ->
  remote W (Follow None) f d1 = (d2, Return ((pre ++ bad :: post)%list, (out, err))) ->
  Forall2 (fun data text => decode_utf8 W data = Return text) pre texts ->
  decode_utf8 W bad = Raise e ->
  isinstance W e IOError = false ->
  isinstance W e PyboardError = false ->
  do_exec W args m = (streamed m (args +:+ nl) d2 texts, Raise e).
Proof.
  intros Hfe Hne Hexec Hfollow Hpre Hbad Hio Hpyb.
  unfold do_exec. rewrite (length_nonzero _ Hne).
  unfold bind at 1. rewrite (is_open_session W m f Hfe).
  unfold try_except. unfold bind at 1. unfold fe_invoke at 1.
  rewrite Hfe, Hexec.
  unfold bind at 1. unfold fe_follow. unfold bind at 1. unfold fe_invoke.
  cbn [self dev]. rewrite Hfe, Hfollow.
  unfold bind at 1. cbn [fst snd].
  assert (Hloop : forall i m0,
    for_each W (pre ++ bad :: post)%list i (fun _ data => data_consumer W data) m0 =
      (mkMachine (self m0) (dev m0)
         (stdout m0 ++ map (strip (ascii_of_nat 4)) texts) (errlog m0) (calls m0),
       Raise e)).
  { clear -Hpre Hbad. induction Hpre as [|data text pre texts Hd _ IH];
      intros i m0; simpl.
    - unfold bind at 1. unfold data_consumer at 1, bind, lift. rewrite Hbad.
      rewrite app_nil_r. destruct m0; reflexivity.
    - unfold bind at 1. unfold data_consumer at 1, bind, lift. rewrite Hd.
      unfold write. rewrite IH. cbn [self dev stdout errlog calls].
      rewrite <- app_assoc. reflexivity. }
  rewrite Hloop. cbn [dispatch]. rewrite Hio, Hpyb.
  unfold raise, streamed. cbn [self dev stdout errlog calls].
  rewrite <- app_assoc. reflexivity.
Qed.

End Output.

(** [cat main.py] *)
Lemma cat_witness :
  do_cat Examples.linux "main.py" (Examples.session Examples.linux tt "/") =
    (wrote (called (Examples.session Examples.linux tt "/")
              (event (Gets "main.py")) tt)
       ("print('hello')" +:+ nl),
     Return false).
Proof.
  apply (cat_prints_content Examples.linux "main.py" "main.py"
           (Examples.session Examples.linux tt "/")
           (mkFe "/" "esp8266" "ser:/dev/ttyUSB0") tt "print('hello')"
           eq_refl).
  - discriminate.
  - reflexivity.
  - reflexivity.
  - reflexivity.
Defined.

(** A statement that prints [4], a stray byte and [2]. *)
Lemma exec_undecodable_witness :
  do_exec Hosts.strict_decoder "f()"
    (Examples.session Hosts.strict_decoder tt "/") =
    (streamed (Examples.session Hosts.strict_decoder tt "/") ("f()" +:+ nl) tt
       ["4"],
     Raise Hosts.undecodable).
Proof.
  refine (exec_stops_at_undecodable Hosts.strict_decoder "f()"
            (Examples.session Hosts.strict_decoder tt "/")
            (mkFe "/" "esp8266" "ser:/dev/ttyUSB0") tt tt
            ["4"] Hosts.stray ["2"] ["4"] "" "" Hosts.undecodable
            eq_refl _ eq_refl eq_refl _ eq_refl eq_refl eq_refl).
  - discriminate.
  - repeat constructor.
Defined.

(** ** Failures while listing *)

Section Failures.

Variable W : World.
Implicit Type m : Machine W.

(** [do_ls] when the change of directory raises. *)
Lemma ls_cd_outcome directory m f d1 e :
  fe (self m) = Some f ->
  directory <> "" ->
  remote W (Cd directory) f (dev m) = (d1, Raise e) ->
  do_ls W directory m =
    if isinstance W e IOError then
      bind W (fe_cd W (dir f)) (fun _ => ret W false)
        (mkMachine (self m) d1
           (stdout m ++ [error_text (color (self m)) (exn_str e)]) (errlog m)
           (calls m ++ [event Pwd; event (Cd directory)]))
    else
      (mkMachine (self m) d1 (stdout m) (errlog m)
         (calls m ++ [event Pwd; event (Cd directory)]),
       Raise e).
Proof.
  intros Hfe Hne Hcd.
  unfold do_ls. unfold bind at 1. rewrite (is_open_session W m f Hfe).
  unfold bind at 1. unfold fe_pwd at 1. rewrite Hfe.
  rewrite (length_nonzero _ Hne). cbn [negb].
  unfold bind at 1. unfold try_except. unfold bind at 1.
  rewrite (fe_cd_raises W
             (mkMachine (self m) (dev m) (stdout m) (errlog m)
                (calls m ++ [event Pwd])) f directory d1 e Hfe Hcd).
  cbn [dispatch]. destruct (isinstance W e IOError).
  - rewrite error_wrote. unfold wrote, called.
    cbn [self dev stdout errlog calls]. rewrite <- !app_assoc. reflexivity.
  - unfold raise, called.
    cbn [self dev stdout errlog calls]. rewrite <- !app_assoc. reflexivity.
Qed.

(** [ls directory] when the change to [directory] raises.  An
    [IOError] is reported with one message, nothing is listed, and the
    handler still changes back to the directory it started from before it
    returns.  Any other exception leaves the handler at once: nothing is
    written and no change back is attempted. *)
Theorem ls_of_missing_directory directory m f d1 e :
  fe (self m) = Some f ->
  directory <> "" ->
  remote W (Cd directory) f (dev m) = (d1, Raise e) ->
  (isinstance W e IOError = true ->
   forall d2 back,
     remote W (Cd (dir f)) f d1 = (d2, Return back) ->
     do_ls W directory m =
       (mkMachine (moved (self m) back) d2
          (stdout m ++ [error_text (color (self m)) (exn_str e)]) (errlog m)
          (calls m ++ [event Pwd; event (Cd directory); event (Cd (dir f))]),
        Return false)) /\
  (isinstance W e IOError = false ->
   do_ls W directory m =
     (mkMachine (self m) d1 (stdout m) (errlog m)
        (calls m ++ [event Pwd; event (Cd directory)]),
      Raise e)).
Proof.
  intros Hfe Hne Hcd.
  rewrite (ls_cd_outcome directory m f d1 e Hfe Hne Hcd).
  split; intros ->; [intros d2 back Hback|reflexivity].
  unfold bind.
  erewrite fe_cd_returns; [|exact Hfe|exact Hback].
  unfold ret, moved. cbn [self dev stdout errlog calls].
  rewrite Hfe. cbn [fmap option_fmap option_map].
  rewrite <- !app_assoc. reflexivity.
Qed.

(** [rec_tree] when the listing of the directory it has entered raises
    an [IOError]: the error is reported and [rec_tree] returns, but the
    change back to the directory it came from, which stands inside the
    [try], is skipped; the session is left in the directory entered. *)
Theorem tree_error_leaves_session_inside depth directory prefix m f d1 pwd d2 e :
  fe (self m) = Some f ->
  remote W (Cd directory) f (dev m) = (d1, Return pwd) ->
  remote W Ls (mkFe pwd (sysname f) (con f)) d1 = (d2, Raise e) ->
  isinstance W e IOError = true ->
  rec_tree W (S depth) directory prefix m =
    (mkMachine (moved (self m) pwd) d2
       (stdout m ++ [error_text (color (self m)) (exn_str e)]) (errlog m)
       (calls m ++ [event Pwd; event (Cd directory); event Ls]),
     Return tt).
Proof.
  intros Hfe Hcd Hls Hio.
  cbn [rec_tree]. unfold try_except.
  unfold bind at 1. unfold fe_pwd at 1. rewrite Hfe.
  unfold bind at 1.
  rewrite (fe_cd_returns W
             (mkMachine (self m) (dev m) (stdout m) (errlog m)
                (calls m ++ [event Pwd])) f directory d1 pwd Hfe Hcd).
  cbn [self dev stdout errlog calls].
  unfold bind at 1. unfold fe_ls, bind at 1, fe_invoke.
  cbn [self dev stdout errlog calls fe]. rewrite Hls.
  cbn [dispatch]. destruct (isinstance W e IOError); [|discriminate Hio].
  rewrite error_wrote.
  unfold wrote, moved. cbn [self dev stdout errlog calls color].
  rewrite Hfe. cbn [fmap option_fmap option_map].
  rewrite <- !app_assoc. reflexivity.
Qed.

End Failures.

(** [ls nodir] *)
Lemma ls_missing_witness :
  do_ls Hosts.one_missing "nodir" (Examples.session Hosts.one_missing tt "/") =
    (@mkMachine Hosts.one_missing
       (moved (self (Examples.session Hosts.one_missing tt "/")) "/") tt
       [error_text false "No such directory: nodir"] []
       [event Pwd; event (Cd "nodir"); event (Cd "/")],
     Return false).
Proof.
  refine (proj1 (ls_of_missing_directory Hosts.one_missing "nodir"
                   (Examples.session Hosts.one_missing tt "/")
                   (mkFe "/" "esp8266" "ser:/dev/ttyUSB0") tt
                   Examples.no_such_directory eq_refl _ eq_refl)
            eq_refl tt "/" eq_refl).
  discriminate.
Defined.

(** [rec_tree("lib")] on a device whose listings fail. *)
Lemma tree_error_witness :
  rec_tree Hosts.unreadable 1 "lib" "" (Examples.session Hosts.unreadable tt "/") =
    (@mkMachine Hosts.unreadable
       (moved (self (Examples.session Hosts.unreadable tt "/")) "lib") tt
       [error_text false "cannot list directory"] []
       [event Pwd; event (Cd "lib"); event Ls],
     Return tt).
Proof.
  apply (tree_error_leaves_session_inside Hosts.unreadable 0 "lib" ""
           (Examples.session Hosts.unreadable tt "/")
           (mkFe "/" "esp8266" "ser:/dev/ttyUSB0") tt "lib" tt Hosts.no_listing
           eq_refl eq_refl eq_refl eq_refl).
Defined.

(** ** [cd], then [pwd] *)

Section Composition.

Variable W : World.
Implicit Type m : Machine W.

(** [cd] and then [pwd].  After a [cd] that succeeds, [pwd] prints the
    directory the device reported for the change, whatever argument
    [pwd] is given, and the prompt names the same directory.  The device
    is asked once, for the change; the two [pwd()] calls, one for the
    prompt and one for the output, do not reach it. *)
Theorem pwd_after_cd args name ignored m f d' newdir :
  fe (self m) = Some f ->
  args <> "" ->
  snd (tokenize W args) = "" ->
  map value (fst (tokenize W args)) = [name] ->
  remote W (Cd name) f (dev m) = (d', Return newdir) ->
  bind W (do_cd W args) (fun _ => do_pwd W ignored) m =
    (mkMachine
       (mkShell (color (self m)) (caching (self m)) (reset (self m))
          (Some (mkFe newdir (sysname f) (con f))) (repl (self m))
          (prompt_for (color (self m)) newdir))
       d' (stdout m ++ [newdir +:+ nl]) (errlog m)
       (calls m ++ [event (Cd name); event Pwd; event Pwd]),
     Return false).
Proof.
  intros Hfe Hne Hrest Hname Hcd.
  unfold bind at 1.
  assert (Hdo :
    do_cd W args m =
      (mkMachine
         (mkShell (color (self m)) (caching (self m)) (reset (self m))
            (Some (mkFe newdir (sysname f) (con f))) (repl (self m))
            (prompt_for (color (self m)) newdir))
         d' (stdout m) (errlog m) (calls m ++ [event (Cd name); event Pwd]),
       Return false)).
  { unfold do_cd. rewrite (length_nonzero _ Hne).
    unfold bind at 1. rewrite (is_open_session W m f Hfe).
    unfold try_except. unfold bind at 1.
    rewrite (parse_tokens W args m Hrest), Hname.
    cbn [falsy list_len length Nat.ltb Nat.leb].
    unfold bind at 1. unfold arg, lift, item. cbn [lookup list_lookup].
    unfold bind at 1. rewrite (fe_cd_returns W m f name d' newdir Hfe Hcd).
    unfold bind at 1. unfold __set_prompt_path, bind, get_self, fe_pwd,
      set_prompt, bind, get_self, set_self, ret, prompt_for.
    cbn [self fe color caching reset repl prompt dev stdout errlog calls dir].
    destruct (color (self m)); rewrite <- app_assoc; reflexivity. }
  rewrite Hdo. unfold do_pwd. unfold bind at 1.
  erewrite is_open_session by reflexivity.
  unfold bind, fe_pwd, print, write, ret.
  cbn [self fe dev stdout errlog calls dir].
  rewrite <- app_assoc. reflexivity.
Qed.

End Composition.

(** [cd lib], then [pwd]. *)
Lemma pwd_after_cd_witness :
  bind Examples.linux (do_cd Examples.linux "lib")
    (fun _ => do_pwd Examples.linux "")
    (Examples.session Examples.linux tt "/") =
    (@mkMachine Examples.linux
       (mkShell false true false (Some (mkFe "lib" "esp8266" "ser:/dev/ttyUSB0"))
          None (prompt_for false "lib"))
       tt ["lib" +:+ nl] [] [event (Cd "lib"); event Pwd; event Pwd],
     Return false).
Proof.
  refine (pwd_after_cd Examples.linux "lib" "lib" ""
            (Examples.session Examples.linux tt "/")
            (mkFe "/" "esp8266" "ser:/dev/ttyUSB0") tt "lib"
            eq_refl _ eq_refl eq_refl eq_refl).
  discriminate.
Defined.

(** ** Indexing in [tree] *)

Lemma length_append (s t : string) :
  String.length (s +:+ t) = String.length s + String.length t.
Proof. induction s as [|c s IH]; simpl; [reflexivity|]. rewrite IH. reflexivity. Qed.

Lemma length_substring (n : nat) (s : string) :
  n <= String.length s -> String.length (String.substring 0 n s) = n.
Proof.
  revert n. induction s as [|c s IH]; intros [|n] H; simpl in *;
    try reflexivity; [lia|].
  rewrite IH by lia. reflexivity.
Qed.

Lemma get_in_range (n : nat) (s : string) :
  n < String.length s -> exists c, String.get n s = Some c.
Proof.
  revert n. induction s as [|c s IH]; intros n H; simpl in *; [lia|].
  destruct n as [|n]; [eauto|]. apply IH. lia.
Qed.

Lemma fourth_from_end_returns (s : string) :
  4 <= String.length s -> exists c, fourth_from_end s = Return c.
Proof.
  intros H. unfold fourth_from_end.
  destruct (String.length s <? 4)%nat eqn:E; [apply Nat.ltb_lt in E; lia|].
  destruct (get_in_range (String.length s - 4) s) as [c ->]; [lia|eauto].
Qed.

Lemma length_drop_last4 (s : string) :
  4 <= String.length s -> String.length (drop_last4 s) = String.length s - 4.
Proof. intros H. unfold drop_last4. apply length_substring. lia. Qed.

Section Indexing.


Variable W : World.
Implicit Type m : Machine W.

Hypothesis Hdevice : index_safe_device W.

Lemma safe_ret {A} (a : A) : no_index_error (ret W a).
Proof. intros m m' e H. discriminate H. Qed.

Lemma safe_bind {A B} (c : M W A) (k : A -> M W B) :
  no_index_error c -> (forall a, no_index_error (k a)) ->
  no_index_error (bind W c k).
Proof.
  intros Hc Hk m m' e H. unfold bind in H.
  destruct (c m) as [m1 [a|e1]] eqn:E.
  - eapply Hk; eassumption.
  - inversion H; subst. eapply Hc; eassumption.
Qed.

Lemma safe_returning {A} (c : M W A) :
  (forall m, exists m' a, c m = (m', Return a)) -> no_index_error c.
Proof.
  intros Hc m m' e H. destruct (Hc m) as (m1 & a & E). congruence.
Qed.

Lemma safe_invoke {A} (c : fe_call A) : no_index_error (fe_invoke W c).
Proof.
  intros m m' e H. unfold fe_invoke in H.
  destruct (fe (self m)) as [f|].
  - destruct (remote W c f (dev m)) as [d [a|e1]] eqn:E; inversion H; subst.
    eapply Hdevice; eassumption.
  - inversion H; subst. discriminate.
Qed.

Lemma safe_pwd : no_index_error (fe_pwd W).
Proof.
  intros m m' e H. unfold fe_pwd in H.
  destruct (fe (self m)); inversion H; subst. discriminate.
Qed.

Lemma safe_cd target : no_index_error (fe_cd W target).
Proof.
  unfold fe_cd. apply safe_bind; [apply safe_invoke|intros d].
  apply safe_returning. intros m. unfold bind, get_self, set_fe, bind,
    get_self, set_self, ret.
  destruct (fe (self m)); eauto.
Qed.

Lemma safe_ls : no_index_error (fe_ls W).
Proof.
  unfold fe_ls. apply safe_bind; [apply safe_invoke|intros; apply safe_ret].
Qed.

Lemma safe_print s : no_index_error (print W s).
Proof. apply safe_returning. intros m. unfold print, write. eauto. Qed.

Lemma safe_error (msg : string) : no_index_error (__error W msg).
Proof. apply safe_returning. intros m. rewrite error_wrote. eauto. Qed.

Lemma safe_try {A} (body : M W A) (hs : list (exn_class * (exn -> M W A))) :
  no_index_error body ->
  Forall (fun h => forall e, no_index_error (snd h e)) hs ->
  no_index_error (try_except W body hs).
Proof.
  intros Hb Hhs m m' e H. unfold try_except in H.
  destruct (body m) as [m1 [a|e1]] eqn:E; [discriminate H|].
  assert (He1 := Hb _ _ _ E). clear E.
  induction Hhs as [|[c h] hs Hh _ IH]; simpl in H.
  - inversion H; subst. assumption.
  - destruct (isinstance W e1 c); [eapply Hh; eassumption|apply IH; assumption].
Qed.

Lemma safe_for_each {A} (l : list A) i (body : nat -> A -> M W unit) :
  (forall i x, no_index_error (body i x)) ->
  no_index_error (for_each W l i body).
Proof.
  intros Hb. revert i. induction l as [|x l IH]; intros i; simpl.
  - apply safe_ret.
  - apply safe_bind; [apply Hb|intros; apply IH].
Qed.

Lemma safe_last_item (sep : ascii) (s : string) :
  no_index_error (lift W (last_item (split sep s))).
Proof.
  apply safe_returning. intros m. unfold lift, last_item.
  destruct (split_last sep s) as [name ->]. eauto.
Qed.

(** The prefixes [rec_tree] works with are whole branches. *)
Lemma safe_rec_tree depth directory prefix :
  String.length prefix mod 4 = 0 ->
  no_index_error (rec_tree W depth directory prefix).
Proof.
  revert directory prefix.
  induction depth as [|depth IH]; intros directory prefix Hlen.
  - intros m m' e H. inversion H; subst. discriminate.
  - cbn [rec_tree]. apply safe_try.
    2:{ constructor; [|constructor]. intros e'. apply safe_error. }
    apply safe_bind; [apply safe_pwd|intros olddir].
    apply safe_bind; [apply safe_cd|intros _].
    apply safe_bind; [apply safe_ls|intros files].
    apply safe_bind; [apply safe_returning; intros m; unfold get_self; eauto|intros s].
    apply safe_bind; [apply safe_pwd|intros pwd].
    apply safe_bind; [apply safe_last_item|intros name].
    apply safe_bind; [destruct (color s); apply safe_print|intros _].
    (* the prefix after the closing branch is blanked *)
    intros m m' e H. unfold bind at 1 in H.
    assert (Hprefix : exists prefix',
               (if (4 <=? String.length prefix)%nat
                then bind W (lift W (fourth_from_end prefix))
                       (fun c => if Ascii.eqb c BOX_UP_RIGHT
                                 then ret W (drop_last4 prefix +:+ "    ")
                                 else ret W prefix)
                else ret W prefix) m = (m, Return prefix')
               /\ String.length prefix' mod 4 = 0).
    { destruct (4 <=? String.length prefix)%nat eqn:E.
      - apply Nat.leb_le in E.
        destruct (fourth_from_end_returns prefix E) as [c Hc].
        unfold bind, lift. rewrite Hc.
        destruct (Ascii.eqb c BOX_UP_RIGHT); unfold ret.
        + eexists; split; [reflexivity|].
          rewrite length_append, length_drop_last4 by assumption.
          change (String.length "    ") with 4.
          replace (String.length prefix - 4 + 4) with (String.length prefix) by lia.
          assumption.
        + eexists; split; [reflexivity|assumption].
      - eexists; split; [reflexivity|assumption]. }
    destruct Hprefix as (prefix' & Hrun & Hlen').
    rewrite Hrun in H. clear Hrun. revert m m' e H.
    change (no_index_error
              (bind W
                 (for_each W (display_order files) 0
                    (fun i f =>
                       if String.eqb (snd f) "F" then
                         bind W
                           (if (3 <=? String.length prefix')%nat then
                              bind W (lift W (fourth_from_end prefix'))
                                (fun c =>
                                   ret W (drop_last4 prefix' +:+
                                          (if Ascii.eqb c SPACE then " "
                                           else String BOX_VERTICAL "") +:+
                                          "   "))
                            else ret W prefix')
                           (fun fprefix =>
                              if color s then
                                print W (Fore.CYAN +:+
                                         ((if (length (display_order files) =? i + 1)%nat
                                           then fprefix +:+ LAST_BRANCH
                                           else fprefix +:+ MID_BRANCH) +:+ fst f)
                                         +:+ Fore.RESET)
                              else
                                print W ((if (length (display_order files) =? i + 1)%nat
                                          then fprefix +:+ LAST_BRANCH
                                          else fprefix +:+ MID_BRANCH) +:+ fst f))
                       else if (length (display_order files) =? i + 1)%nat then
                         bind W (fe_invoke W (Fqn (fst f)))
                           (fun d => rec_tree W depth d (prefix' +:+ LAST_BRANCH))
                       else
                         bind W (fe_invoke W (Fqn (fst f)))
                           (fun d => rec_tree W depth d (prefix' +:+ MID_BRANCH))))
                 (fun _ => fe_cd W olddir))).
    apply safe_bind; [|intros _; apply safe_cd].
    apply safe_for_each. intros i f.
    destruct (String.eqb (snd f) "F").
    + apply safe_bind; [|intros fprefix; destruct (color s); apply safe_print].
      destruct (3 <=? String.length prefix')%nat eqn:E; [|apply safe_ret].
      apply Nat.leb_le in E.
      assert (E4 : 4 <= String.length prefix').
      { destruct (Nat.le_gt_cases 4 (String.length prefix')) as [|Hlt];
          [assumption|].
        assert (String.length prefix' = 3) by lia.
        rewrite H in Hlen'. discriminate Hlen'. }
      destruct (fourth_from_end_returns prefix' E4) as [c Hc].
      apply safe_returning. intros m. unfold bind, lift, ret. rewrite Hc. eauto.
    + assert (Hnext : forall branch, String.length branch = 4 ->
                 String.length (prefix' +:+ branch) mod 4 = 0).
      { intros branch Hb. rewrite length_append, Hb.
        rewrite <- Nat.Div0.add_mod_idemp_l, Hlen'. reflexivity. }
      destruct (length (display_order files) =? i + 1)%nat;
        (apply safe_bind; [apply safe_invoke|intros d; apply IH, Hnext; reflexivity]).
Qed.

(** [tree] never raises an [IndexError] of its own.  [rec_tree] indexes
    the prefix at [-4] when it is at least three characters long, and
    takes the last piece of the path; the prefixes it builds are whole
    branches of four characters and a split has a last piece, so when the
    File Explorer raises no [IndexError], none leaves [do_tree], whatever
    the device holds and however deep the walk goes. *)
Theorem tree_indexing_is_safe directory m m' e :
  do_tree W directory m = (m', Raise e) -> exn_cls e <> Builtin IndexError.
Proof.
  revert m m' e. change (no_index_error (do_tree W directory)).
  unfold do_tree.
  apply safe_bind.
  { apply safe_returning. intros m. unfold __is_open, bind, get_self.
    destruct (fe (self m)); [unfold ret; eauto|].
    rewrite error_wrote. unfold ret. eauto. }
  intros [|]; [|apply safe_ret].
  apply safe_bind; [apply safe_pwd|intros olddir].
  apply safe_bind.
  { destruct (negb (String.length directory =? 0)%nat); [|apply safe_pwd].
    apply safe_bind; [apply safe_cd|intros; apply safe_ret]. }
  intros directory'.
  apply safe_bind; [apply safe_rec_tree; reflexivity|intros _].
  apply safe_bind; [|intros; apply safe_ret].
  destruct (negb (String.length directory' =? 0)%nat);
    [apply safe_cd|apply safe_ret].
Qed.

End Indexing.

(** [tree] from the root of a device with two directories, on a link
    that gives out at the last change of directory.  The walk has listed
    [/app] under the middle branch and [/lib] under the closing branch,
    indexing both prefixes, before the time-out leaves the handler. *)
Lemma tree_indexing_witness :
  do_tree Hosts.nested "" (Examples.session Hosts.nested 0 "/") =
    (@mkMachine Hosts.nested
       (self (Examples.session Hosts.nested 0 "/")) 6
       [nl;
        MID_BRANCH +:+ "app" +:+ nl;
        String BOX_VERTICAL "   " +:+ LAST_BRANCH +:+ "a.py" +:+ nl;
        LAST_BRANCH +:+ "lib" +:+ nl;
        "    " +:+ LAST_BRANCH +:+ "b.py" +:+ nl]
       []
       [event Pwd; event Pwd;
        event Pwd; event (Cd "/"); event Ls; event Pwd;
        event (Fqn "app");
        event Pwd; event (Cd "/app"); event Ls; event Pwd; event (Cd "/");
        event (Fqn "lib");
        event Pwd; event (Cd "/lib"); event Ls; event Pwd; event (Cd "/");
        event (Cd "/")],
     Raise Examples.link_timeout) /\
  exn_cls Examples.link_timeout <> Builtin IndexError.
Proof.
  split; [vm_compute; reflexivity|].
  refine (tree_indexing_is_safe Hosts.nested _ ""
            (Examples.session Hosts.nested 0 "/")
            (fst (do_tree Hosts.nested "" (Examples.session Hosts.nested 0 "/")))
            Examples.link_timeout _).
  - intros A c f d d' e H. destruct c; simpl in H;
      try (inversion H; fail).
    destruct (d <? 5)%nat; inversion H. discriminate.
  - vm_compute. reflexivity.
Defined.
